(** * VkVideoDecoder: a shallow embedding of
    vk_video_decoder/libs/VkVideoDecoder/VkVideoDecoder.cpp

  The decoder's pure helpers are Rocq functions over [Z] with the C++
  32-bit arithmetic written out; the stateful members are functions on
  an explicit decoder state; calls into the driver and into the
  collaborating classes are answered by an explicit environment. *)

From Stdlib Require Import ZArith List Bool Lia.
From stdpp Require Import base numbers option list strings gmap.

Open Scope Z_scope.

(** ** Machine integers *)

Module MachineInt.

Definition UINT32_MOD : Z := 2 ^ 32.
Definition INT32_MAX : Z := 2 ^ 31 - 1.

(** Values of type [uint32_t]. *)
Definition is_uint32 (z : Z) : Prop := 0 <= z < UINT32_MOD.

(** Unsigned 32-bit arithmetic wraps modulo 2^32. *)
Definition to_uint32 (z : Z) : Z := z mod UINT32_MOD.

(** The cast [(int)u] of an unsigned 32-bit value [u]: the same 32 bits
    read as a two's complement number. *)
Definition int_of_uint32 (u : Z) : Z :=
  if u <? 2 ^ 31 then u else u - UINT32_MOD.

End MachineInt.
Import MachineInt.

(** ** Vulkan enumerants and the build configuration

  [VkVideoCodecOperationFlagBitsKHR] comes from the Vulkan headers, which
  are not part of VkVideoDecoder.cpp.  The three enumerants the file uses
  unconditionally carry their registry values.  The VP9 and AV1 entries are
  guarded by [#ifdef VK_EXT_video_decode_vp9] and
  [#ifdef VK_EXT_video_decode_av1]: a build is described by the value of
  each guarded enumerant when its macro is defined, [None] when it is not. *)

Definition VkVideoCodecOperationFlagBitsKHR := Z.

Definition VK_VIDEO_CODEC_OPERATION_NONE_KHR : Z := 0.
Definition VK_VIDEO_CODEC_OPERATION_DECODE_H264_BIT_KHR : Z := 1.
Definition VK_VIDEO_CODEC_OPERATION_DECODE_H265_BIT_KHR : Z := 2.

Record BuildConfig := {
VK_VIDEO_CODEC_OPERATION_DECODE_VP9_BIT_KHR : option Z;
VK_VIDEO_CODEC_OPERATION_DECODE_AV1_BIT_KHR : option Z
}.

(** Neither guarded extension is available. *)
Definition build_h26x : BuildConfig :=
{| VK_VIDEO_CODEC_OPERATION_DECODE_VP9_BIT_KHR := None;
   VK_VIDEO_CODEC_OPERATION_DECODE_AV1_BIT_KHR := None |}.

(** Both guarded extensions are available, with the registry values of the
  two enumerants (AV1 = 0x4, VP9 = 0x8). *)
Definition build_all : BuildConfig :=
{| VK_VIDEO_CODEC_OPERATION_DECODE_VP9_BIT_KHR := Some 8;
   VK_VIDEO_CODEC_OPERATION_DECODE_AV1_BIT_KHR := Some 4 |}.

(** Only the VP9 extension is available. *)
Definition build_vp9 : BuildConfig :=
{| VK_VIDEO_CODEC_OPERATION_DECODE_VP9_BIT_KHR := Some 8;
   VK_VIDEO_CODEC_OPERATION_DECODE_AV1_BIT_KHR := None |}.

(** [codec == X] for an enumerant [X] that exists only when its macro is
  defined. *)
Definition is_guarded_codec (guarded : option Z) (codec : Z) : bool :=
match guarded with
| Some v => codec =? v
| None => false
end.

(** ** GetVideoCodecString *)

Module CodecString.

Record CodecNameEntry := { eCodec : Z; name : string }.

Definition guarded_entry (guarded : option Z) (n : string) : list CodecNameEntry :=
  match guarded with
  | Some v => [ {| eCodec := v; name := n |} ]
  | None => []
  end.

(** The static table [aCodecName]. *)
Definition aCodecName (cfg : BuildConfig) : list CodecNameEntry :=
  [ {| eCodec := VK_VIDEO_CODEC_OPERATION_NONE_KHR; name := "None" |};
    {| eCodec := VK_VIDEO_CODEC_OPERATION_DECODE_H264_BIT_KHR; name := "AVC/H.264" |};
    {| eCodec := VK_VIDEO_CODEC_OPERATION_DECODE_H265_BIT_KHR; name := "H.265/HEVC" |} ]
  ++ guarded_entry (VK_VIDEO_CODEC_OPERATION_DECODE_VP9_BIT_KHR cfg) "VP9"
  ++ guarded_entry (VK_VIDEO_CODEC_OPERATION_DECODE_AV1_BIT_KHR cfg) "AV1".

(** An array read in C++: inside the array it yields the element, outside
    it has no defined result. *)
Inductive ArrayRead (A : Type) : Type :=
| InBounds (a : A)
| OutOfBounds (index : Z).
Arguments InBounds {A} a.
Arguments OutOfBounds {A} index.

Definition array_read {A} (arr : list A) (index : Z) : ArrayRead A :=
  if (0 <=? index) && (index <? Z.of_nat (length arr)) then
    match arr !! Z.to_nat index with
    | Some a => InBounds a
    | None => OutOfBounds index
    end
  else OutOfBounds index.

(** The loop [for (i = 0; i < N; i++) if (codec == aCodecName[i].eCodec)]:
    the index at which it stops, scanning the entries from [i] on. *)
Fixpoint find_codec_from (entries : list CodecNameEntry) (i : nat) (codec : Z)
  : option nat :=
  match entries with
  | [] => None
  | e :: rest =>
      if codec =? eCodec e then Some i
      else find_codec_from rest (S i) codec
  end.

Definition find_codec (tbl : list CodecNameEntry) (codec : Z) : option nat :=
  find_codec_from tbl 0 codec.

(** [GetVideoCodecString]: when the loop stops at some [i] the function
    returns [aCodecName[codec].name] -- the table is indexed by the codec
    value, not by [i]. *)
Definition GetVideoCodecString (cfg : BuildConfig) (codec : Z) : ArrayRead string :=
  match find_codec (aCodecName cfg) codec with
  | Some _ =>
      match array_read (aCodecName cfg) codec with
      | InBounds e => InBounds (name e)
      | OutOfBounds ix => OutOfBounds ix
      end
  | None => InBounds "Unknown"
  end.

(** The name of the entry at which the loop stopped. *)
Definition matched_entry_name (cfg : BuildConfig) (codec : Z) : ArrayRead string :=
  match find_codec (aCodecName cfg) codec with
  | Some i =>
      match array_read (aCodecName cfg) (Z.of_nat i) with
      | InBounds e => InBounds (name e)
      | OutOfBounds ix => OutOfBounds ix
      end
  | None => InBounds "Unknown"
  end.

End CodecString.

(** ** GetNumDecodeSurfaces *)

Module SurfaceCount.

Definition maxLumaPS : Z := 35651584.
Definition maxDpbPicBuf : Z := 6.

(** [picSizeInSamplesY = (int)(width * height)]: an unsigned 32-bit product
    converted to [int]. *)
Definition picSizeInSamplesY (width height : Z) : Z :=
  int_of_uint32 (to_uint32 (width * height)).

(** The [if]/[else if] ladder on [picSizeInSamplesY]. *)
Definition maxDpbSize (picSize : Z) : Z :=
  if picSize <=? Z.shiftr maxLumaPS 2 then maxDpbPicBuf * 4
  else if picSize <=? Z.shiftr maxLumaPS 1 then maxDpbPicBuf * 2
  else if picSize <=? Z.shiftr (3 * maxLumaPS) 2 then Z.quot (maxDpbPicBuf * 4) 3
  else maxDpbPicBuf.

Definition GetNumDecodeSurfaces (cfg : BuildConfig)
    (codec : VkVideoCodecOperationFlagBitsKHR)
    (minNumDecodeSurfaces width height : Z) : Z :=
  if is_guarded_codec (VK_VIDEO_CODEC_OPERATION_DECODE_VP9_BIT_KHR cfg) codec then 12
  else if codec =? VK_VIDEO_CODEC_OPERATION_DECODE_H264_BIT_KHR then
    to_uint32 (to_uint32 (minNumDecodeSurfaces + 4) + 4)
  else if codec =? VK_VIDEO_CODEC_OPERATION_DECODE_H265_BIT_KHR then
    Z.min (maxDpbSize (picSizeInSamplesY width height)) 16 + 4
  else 8.


(** The surface count as the specification words it, over unbounded
    integers: H.264 adds 4 and 4 to the minimum; H.265 compares the area
    [width * height] with 1/4, 1/2 and 3/4 of [maxLumaPS], scales
    [maxDpbPicBuf] by 4, 2, 4/3 or 1, caps the result at 16 and adds 4;
    every other codec gets 8. *)
Definition spec_maxDpbSize (area : Z) : Z :=
  if 4 * area <=? maxLumaPS then maxDpbPicBuf * 4
  else if 2 * area <=? maxLumaPS then maxDpbPicBuf * 2
  else if 4 * area <=? 3 * maxLumaPS then maxDpbPicBuf * 4 / 3
  else maxDpbPicBuf.

Definition spec_SurfaceCount (codec minNumDecodeSurfaces width height : Z) : Z :=
  if codec =? VK_VIDEO_CODEC_OPERATION_DECODE_H264_BIT_KHR then
    minNumDecodeSurfaces + 4 + 4
  else if codec =? VK_VIDEO_CODEC_OPERATION_DECODE_H265_BIT_KHR then
    Z.min (spec_maxDpbSize (width * height)) 16 + 4
  else 8.

End SurfaceCount.

(** ** Results, faults and the platform

    Assertions are compiled out ([NDEBUG]): an [assert] documents what the
    code expects and has no effect of its own.  What C++ leaves undefined or
    answers with an exception ends a computation with a [Fault]. *)

Definition VkResult := Z.
Definition VK_SUCCESS : VkResult := 0.
Definition VK_ERROR_INITIALIZATION_FAILED : VkResult := -3.

Inductive Fault :=
| OutOfRange        (* std::out_of_range thrown by std::bitset::set *)
| NullDereference   (* a null shared object is dereferenced *)
| SignedOverflow    (* ++ on an int32_t holding INT32_MAX *)
| BadRead.          (* a read beyond the memory a pointer designates *)

Inductive Outcome (A : Type) : Type :=
| Done (a : A)
| Raised (f : Fault).
Arguments Done {A} a.
Arguments Raised {A} f.

Global Instance outcome_ret : MRet Outcome := fun A a => Done a.

Global Instance outcome_bind : MBind Outcome := fun A B k m =>
  match m with
  | Done a => k a
  | Raised f => Raised f
  end.

(** Constants of headers that are not part of VkVideoDecoder.cpp, and the
    answers of the Vulkan driver.  [vkResultOf n] is the [VkResult] of the
    [n]-th call to [vkCreateVideoSessionParametersKHR] or
    [vkUpdateVideoSessionParametersKHR]. *)
Record Platform := {
  build : BuildConfig;
  MAX_VPS_IDS : Z;
  MAX_SPS_IDS : Z;
  MAX_PPS_IDS : Z;
  MAX_DPB_REF_SLOTS : Z;
  vkResultOf : nat -> VkResult
}.

(** A decode session, identified by what it was created for. *)
Record VkVideoCoreProfile := {
  profile_codec : Z;
  profile_chromaSubsampling : Z;
  profile_lumaBitDepth : Z;
  profile_chromaBitDepth : Z;
  profile_codecProfile : Z
}.

Record VkExtent2D := { width : Z; height : Z }.

Record NvVideoSession := {
  session_profile : VkVideoCoreProfile;
  session_pictureFormat : Z;
  session_maxCodedExtent : VkExtent2D;
  session_referencePicturesFormat : Z;
  session_maxDpbSlots : Z;
  session_maxActiveReferencePictures : Z
}.

(** ** StdVideoPictureParametersSet: a node of the parameter-set graph *)

Module StdVideoPictureParametersSet.

Inductive ItemType := SPS_TYPE | PPS_TYPE | VPS_TYPE | INVALID_TYPE.

Inductive VkParserPictureParametersUpdateType :=
| VK_PICTURE_PARAMETERS_UPDATE_H264_SPS
| VK_PICTURE_PARAMETERS_UPDATE_H264_PPS
| VK_PICTURE_PARAMETERS_UPDATE_H265_VPS
| VK_PICTURE_PARAMETERS_UPDATE_H265_SPS
| VK_PICTURE_PARAMETERS_UPDATE_H265_PPS.

(** The union [m_data], tagged by [m_updateType]; of each Std structure only
    the identifiers that the decoder reads are kept. *)
Inductive StdData :=
| h264Sps (seq_parameter_set_id : Z)
| h264Pps (seq_parameter_set_id pic_parameter_set_id : Z)
| h265Vps (vps_video_parameter_set_id : Z)
| h265Sps (sps_video_parameter_set_id sps_seq_parameter_set_id : Z)
| h265Pps (sps_video_parameter_set_id pps_seq_parameter_set_id
           pps_pic_parameter_set_id : Z).

(** Nodes and compiled objects live in two arenas of the decoder state and
    are referred to by their index there, as the shared pointers of the
    source refer to one object from several places. *)
Record t := {
  m_itemType : ItemType;
  m_data : StdData;
  m_updateSequenceCount : Z;
  m_parent : option nat;
  m_vkObjectOwner : option nat;
  m_videoSession : option NvVideoSession
}.

Definition m_updateType (n : t) : VkParserPictureParametersUpdateType :=
  match m_data n with
  | h264Sps _ => VK_PICTURE_PARAMETERS_UPDATE_H264_SPS
  | h264Pps _ _ => VK_PICTURE_PARAMETERS_UPDATE_H264_PPS
  | h265Vps _ => VK_PICTURE_PARAMETERS_UPDATE_H265_VPS
  | h265Sps _ _ => VK_PICTURE_PARAMETERS_UPDATE_H265_SPS
  | h265Pps _ _ _ => VK_PICTURE_PARAMETERS_UPDATE_H265_PPS
  end.

(** Modelled from the spec: the accessors [GetVpsId], [GetSpsId] and
    [GetPpsId] are declared in VkVideoDecoder.h, which is not part of
    VkVideoDecoder.cpp.  Each returns the identifier of the given kind
    stored in the node (its own "kind-scoped numeric id", or the "stored parent-id" it
    refers to) and reports through its [bool&] argument whether that
    identifier is the node's own; a node that stores none yields -1. *)
Definition GetVpsId (n : t) : Z * bool :=
  match m_data n with
  | h265Vps v => (v, true)
  | h265Sps v _ => (v, false)
  | h265Pps v _ _ => (v, false)
  | _ => (-1, false)
  end.

Definition GetSpsId (n : t) : Z * bool :=
  match m_data n with
  | h264Sps s => (s, true)
  | h264Pps s _ => (s, false)
  | h265Sps _ s => (s, true)
  | h265Pps _ s _ => (s, false)
  | h265Vps _ => (-1, false)
  end.

Definition GetPpsId (n : t) : Z * bool :=
  match m_data n with
  | h264Pps _ p => (p, true)
  | h265Pps _ _ p => (p, true)
  | _ => (-1, false)
  end.

Definition set_m_parent (p : option nat) (n : t) : t :=
  {| m_itemType := m_itemType n; m_data := m_data n;
     m_updateSequenceCount := m_updateSequenceCount n;
     m_parent := p; m_vkObjectOwner := m_vkObjectOwner n;
     m_videoSession := m_videoSession n |}.

Definition set_m_vkObjectOwner (o : option nat) (n : t) : t :=
  {| m_itemType := m_itemType n; m_data := m_data n;
     m_updateSequenceCount := m_updateSequenceCount n;
     m_parent := m_parent n; m_vkObjectOwner := o;
     m_videoSession := m_videoSession n |}.

Definition set_m_videoSession (s : option NvVideoSession) (n : t) : t :=
  {| m_itemType := m_itemType n; m_data := m_data n;
     m_updateSequenceCount := m_updateSequenceCount n;
     m_parent := m_parent n; m_vkObjectOwner := m_vkObjectOwner n;
     m_videoSession := s |}.

(** Modelled from the spec: [StdVideoPictureParametersSet::Create] is not
    part of VkVideoDecoder.cpp.  It wraps the parser's payload and the
    update-sequence counter in a new node that has no parent, no owning
    object and no session yet. *)
Definition Create (ty : ItemType) (payload : StdData) (updateSequenceCount : Z) : t :=
  {| m_itemType := ty; m_data := payload;
     m_updateSequenceCount := updateSequenceCount;
     m_parent := None; m_vkObjectOwner := None; m_videoSession := None |}.

End StdVideoPictureParametersSet.

(** ** VkParserVideoPictureParameters: a compiled session-parameters object *)

Module VkParserVideoPictureParameters.

Import StdVideoPictureParametersSet.

(** [std::bitset<N>]: a set of positions below [N]. *)
Definition bitset := gset Z.

(** [bits.set(pos, true)] throws [std::out_of_range] when [pos >= N]. *)
Definition bitset_set (N : Z) (bits : bitset) (pos : Z) : Outcome bitset :=
  if pos <? N then Done ({[ pos ]} ∪ bits) else Raised OutOfRange.

(** [if (id >= 0) bits.set(id, true)] *)
Definition mark_id (N : Z) (bits : bitset) (id : Z) : Outcome bitset :=
  if 0 <=? id then bitset_set N bits id else Done bits.

Record t := {
  m_Id : Z;
  m_vpsIdsUsed : bitset;
  m_spsIdsUsed : bitset;
  m_ppsIdsUsed : bitset;
  m_videoSession : option NvVideoSession
}.

Definition HasVpsId (o : t) (id : Z) : bool := bool_decide (id ∈ m_vpsIdsUsed o).
Definition HasSpsId (o : t) (id : Z) : bool := bool_decide (id ∈ m_spsIdsUsed o).
Definition HasPpsId (o : t) (id : Z) : bool := bool_decide (id ∈ m_ppsIdsUsed o).

(** What the class keeps outside its objects: the static counter
    [m_currentId] and the calls made to the driver so far. *)
Inductive DriverCall :=
| CreateVideoSessionParametersKHR (templateId : option Z)
| UpdateVideoSessionParametersKHR (objectId : Z) (updateSequenceCount : Z).

Record Statics := {
  m_currentId : Z;
  driverCalls : list DriverCall
}.

Definition PopulateH264UpdateFields (pStdPictureParametersSet : option StdVideoPictureParametersSet.t) : Z :=
  match pStdPictureParametersSet with
  | None => -1
  | Some n =>
      match m_data n with
      | h264Sps s => s
      | h264Pps _ p => p
      | _ => -1
      end
  end.

Definition PopulateH265UpdateFields (pStdPictureParametersSet : option StdVideoPictureParametersSet.t) : Z :=
  match pStdPictureParametersSet with
  | None => -1
  | Some n =>
      match m_data n with
      | h265Vps v => v
      | h265Sps _ s => s
      | h265Pps _ _ p => p
      | _ => -1
      end
  end.

(** [updateType = pPps ? pPps->m_updateType : (pSps ? pSps->m_updateType :
    pVps->m_updateType)] *)
Definition select_updateType (vps sps pps : option StdVideoPictureParametersSet.t)
  : Outcome VkParserPictureParametersUpdateType :=
  match pps, sps, vps with
  | Some n, _, _ => Done (m_updateType n)
  | None, Some n, _ => Done (m_updateType n)
  | None, None, Some n => Done (m_updateType n)
  | None, None, None => Raised NullDereference
  end.

(** The ids [(currentVpsId, currentSpsId, currentPpsId)] that the [switch]
    on the update type collects. *)
Definition current_ids (updateType : VkParserPictureParametersUpdateType)
    (vps sps pps : option StdVideoPictureParametersSet.t) : Z * Z * Z :=
  match updateType with
  | VK_PICTURE_PARAMETERS_UPDATE_H264_SPS
  | VK_PICTURE_PARAMETERS_UPDATE_H264_PPS =>
      (-1, PopulateH264UpdateFields sps, PopulateH264UpdateFields pps)
  | VK_PICTURE_PARAMETERS_UPDATE_H265_VPS
  | VK_PICTURE_PARAMETERS_UPDATE_H265_SPS
  | VK_PICTURE_PARAMETERS_UPDATE_H265_PPS =>
      (PopulateH265UpdateFields vps, PopulateH265UpdateFields sps,
       PopulateH265UpdateFields pps)
  end.

(** The three [if (id >= 0) set(id, true)] statements, in source order. *)
Definition mark_ids (P : Platform) (ids : Z * Z * Z) (v s p : bitset)
  : Outcome (bitset * bitset * bitset) :=
  let '(currentVpsId, currentSpsId, currentPpsId) := ids in
  v' ← mark_id (MAX_VPS_IDS P) v currentVpsId;
  s' ← mark_id (MAX_SPS_IDS P) s currentSpsId;
  p' ← mark_id (MAX_PPS_IDS P) p currentPpsId;
  Done (v', s', p').

(** [m_Id = ++m_currentId] *)
Definition next_id (currentId : Z) : Outcome Z :=
  if currentId <? INT32_MAX then Done (currentId + 1) else Raised SignedOverflow.

(** [VkParserVideoPictureParameters::Create]: the new object, [None] for a
    null result, together with the class statics after the call. *)
Definition Create (P : Platform) (statics : Statics)
    (videoSession : option NvVideoSession)
    (pVpsStdPictureParametersSet pSpsStdPictureParametersSet
     pPpsStdPictureParametersSet : option StdVideoPictureParametersSet.t)
    (pTemplatePictureParameters : option t) : Outcome (option t * Statics) :=
  updateType ← select_updateType pVpsStdPictureParametersSet
                  pSpsStdPictureParametersSet pPpsStdPictureParametersSet;
  let ids := current_ids updateType pVpsStdPictureParametersSet
               pSpsStdPictureParametersSet pPpsStdPictureParametersSet in
  _ ← (match videoSession with
        | Some _ => Done tt
        | None => Raised NullDereference
        end);
  let call := CreateVideoSessionParametersKHR (m_Id <$> pTemplatePictureParameters) in
  let result := vkResultOf P (length (driverCalls statics)) in
  let statics1 := {| m_currentId := m_currentId statics;
                     driverCalls := driverCalls statics ++ [call] |} in
  if negb (result =? VK_SUCCESS) then Done (None, statics1)
  else
    let '(v0, s0, p0) :=
      match pTemplatePictureParameters with
      | Some tmpl => (m_vpsIdsUsed tmpl, m_spsIdsUsed tmpl, m_ppsIdsUsed tmpl)
      | None => (∅, ∅, ∅)
      end in
    '(v, s, p) ← mark_ids P ids v0 s0 p0;
    id ← next_id (m_currentId statics1);
    Done (Some {| m_Id := id; m_vpsIdsUsed := v; m_spsIdsUsed := s;
                  m_ppsIdsUsed := p; m_videoSession := videoSession |},
          {| m_currentId := id; driverCalls := driverCalls statics1 |}).

(** [updateInfo.updateSequenceCount]: the maximum over the nodes given, as a
    [uint32_t] field that starts at 0. *)
Definition max_updateSequenceCount (vps sps pps : option StdVideoPictureParametersSet.t) : Z :=
  let step (n : option StdVideoPictureParametersSet.t) (acc : Z) :=
    match n with
    | Some x => to_uint32 (Z.max (m_updateSequenceCount x) acc)
    | None => acc
    end in
  step pps (step sps (step vps 0)).

(** [VkParserVideoPictureParameters::Update] on the object [this]. *)
Definition Update (P : Platform) (statics : Statics) (this : t)
    (pVpsStdPictureParametersSet pSpsStdPictureParametersSet
     pPpsStdPictureParametersSet : option StdVideoPictureParametersSet.t)
  : Outcome (VkResult * t * Statics) :=
  updateType ← select_updateType pVpsStdPictureParametersSet
                  pSpsStdPictureParametersSet pPpsStdPictureParametersSet;
  let ids := current_ids updateType pVpsStdPictureParametersSet
               pSpsStdPictureParametersSet pPpsStdPictureParametersSet in
  let call := UpdateVideoSessionParametersKHR (m_Id this)
                (max_updateSequenceCount pVpsStdPictureParametersSet
                   pSpsStdPictureParametersSet pPpsStdPictureParametersSet) in
  let result := vkResultOf P (length (driverCalls statics)) in
  let statics1 := {| m_currentId := m_currentId statics;
                     driverCalls := driverCalls statics ++ [call] |} in
  if result =? VK_SUCCESS then
    '(v, s, p) ← mark_ids P ids (m_vpsIdsUsed this) (m_spsIdsUsed this)
                    (m_ppsIdsUsed this);
    Done (result,
          {| m_Id := m_Id this; m_vpsIdsUsed := v; m_spsIdsUsed := s;
             m_ppsIdsUsed := p; m_videoSession := m_videoSession this |},
          statics1)
  else Done (result, this, statics1).

(** The ids that a call given these three nodes marks. *)
Definition ids_of (vps sps pps : option StdVideoPictureParametersSet.t) : Z * Z * Z :=
  match select_updateType vps sps pps with
  | Done updateType => current_ids updateType vps sps pps
  | Raised _ => (-1, -1, -1)
  end.


End VkParserVideoPictureParameters.

(** ** VkVideoDecoder *)

Module VkVideoDecoder.

Import StdVideoPictureParametersSet.

Record VkParserDetectedVideoFormat := {
  codec : VkVideoCodecOperationFlagBitsKHR;
  coded_width : Z;
  coded_height : Z;
  display_area_left : Z;
  display_area_top : Z;
  display_area_right : Z;
  display_area_bottom : Z;
  chromaSubsampling : Z;
  lumaBitDepth : Z;
  chromaBitDepth : Z;
  codecProfile : Z;
  minNumDecodeSurfaces : Z;
  maxNumDpbSlots : Z
}.

(** A bitstream buffer of the pool: its memory, whose length is the
    buffer's maximum size. *)
Record VulkanBitstreamBuffer := { bufferMemory : list Byte.byte }.

(** The decoder object.  Console output is not modelled.  The last three
    fields before the pool are the arenas that the shared pointers of the
    source refer into, and the statics of VkParserVideoPictureParameters. *)
Record t := {
  m_numDecodeSurfaces : Z;
  m_maxDecodeFramesCount : Z;
  m_videoSession : option NvVideoSession;
  m_resetDecoder : bool;
  m_videoFormat : VkParserDetectedVideoFormat;
  m_decodePicCount : Z;
  m_useSeparateOutputImages : bool;
  m_useLinearOutput : bool;
  m_lastPictParamsQueue : ItemType -> option nat;
  m_lastIdInQueue : ItemType -> Z;
  m_pictureParametersQueue : list nat;
  m_currentPictureParameters : option nat;
  m_maxStreamBufferSize : Z;
  nodes : list StdVideoPictureParametersSet.t;
  objects : list VkParserVideoPictureParameters.t;
  statics : VkParserVideoPictureParameters.Statics;
  bitstreamBuffersQueue : list VulkanBitstreamBuffer
}.

Definition set_m_numDecodeSurfaces (v : Z) (d : t) : t :=
  {| m_numDecodeSurfaces := v;
     m_maxDecodeFramesCount := m_maxDecodeFramesCount d;
     m_videoSession := m_videoSession d;
     m_resetDecoder := m_resetDecoder d;
     m_videoFormat := m_videoFormat d;
     m_decodePicCount := m_decodePicCount d;
     m_useSeparateOutputImages := m_useSeparateOutputImages d;
     m_useLinearOutput := m_useLinearOutput d;
     m_lastPictParamsQueue := m_lastPictParamsQueue d;
     m_lastIdInQueue := m_lastIdInQueue d;
     m_pictureParametersQueue := m_pictureParametersQueue d;
     m_currentPictureParameters := m_currentPictureParameters d;
     m_maxStreamBufferSize := m_maxStreamBufferSize d;
     nodes := nodes d;
     objects := objects d;
     statics := statics d;
     bitstreamBuffersQueue := bitstreamBuffersQueue d |}.

Definition set_m_maxDecodeFramesCount (v : Z) (d : t) : t :=
  {| m_numDecodeSurfaces := m_numDecodeSurfaces d;
     m_maxDecodeFramesCount := v;
     m_videoSession := m_videoSession d;
     m_resetDecoder := m_resetDecoder d;
     m_videoFormat := m_videoFormat d;
     m_decodePicCount := m_decodePicCount d;
     m_useSeparateOutputImages := m_useSeparateOutputImages d;
     m_useLinearOutput := m_useLinearOutput d;
     m_lastPictParamsQueue := m_lastPictParamsQueue d;
     m_lastIdInQueue := m_lastIdInQueue d;
     m_pictureParametersQueue := m_pictureParametersQueue d;
     m_currentPictureParameters := m_currentPictureParameters d;
     m_maxStreamBufferSize := m_maxStreamBufferSize d;
     nodes := nodes d;
     objects := objects d;
     statics := statics d;
     bitstreamBuffersQueue := bitstreamBuffersQueue d |}.

Definition set_m_videoSession (v : option NvVideoSession) (d : t) : t :=
  {| m_numDecodeSurfaces := m_numDecodeSurfaces d;
     m_maxDecodeFramesCount := m_maxDecodeFramesCount d;
     m_videoSession := v;
     m_resetDecoder := m_resetDecoder d;
     m_videoFormat := m_videoFormat d;
     m_decodePicCount := m_decodePicCount d;
     m_useSeparateOutputImages := m_useSeparateOutputImages d;
     m_useLinearOutput := m_useLinearOutput d;
     m_lastPictParamsQueue := m_lastPictParamsQueue d;
     m_lastIdInQueue := m_lastIdInQueue d;
     m_pictureParametersQueue := m_pictureParametersQueue d;
     m_currentPictureParameters := m_currentPictureParameters d;
     m_maxStreamBufferSize := m_maxStreamBufferSize d;
     nodes := nodes d;
     objects := objects d;
     statics := statics d;
     bitstreamBuffersQueue := bitstreamBuffersQueue d |}.

Definition set_m_resetDecoder (v : bool) (d : t) : t :=
  {| m_numDecodeSurfaces := m_numDecodeSurfaces d;
     m_maxDecodeFramesCount := m_maxDecodeFramesCount d;
     m_videoSession := m_videoSession d;
     m_resetDecoder := v;
     m_videoFormat := m_videoFormat d;
     m_decodePicCount := m_decodePicCount d;
     m_useSeparateOutputImages := m_useSeparateOutputImages d;
     m_useLinearOutput := m_useLinearOutput d;
     m_lastPictParamsQueue := m_lastPictParamsQueue d;
     m_lastIdInQueue := m_lastIdInQueue d;
     m_pictureParametersQueue := m_pictureParametersQueue d;
     m_currentPictureParameters := m_currentPictureParameters d;
     m_maxStreamBufferSize := m_maxStreamBufferSize d;
     nodes := nodes d;
     objects := objects d;
     statics := statics d;
     bitstreamBuffersQueue := bitstreamBuffersQueue d |}.

Definition set_m_videoFormat (v : VkParserDetectedVideoFormat) (d : t) : t :=
  {| m_numDecodeSurfaces := m_numDecodeSurfaces d;
     m_maxDecodeFramesCount := m_maxDecodeFramesCount d;
     m_videoSession := m_videoSession d;
     m_resetDecoder := m_resetDecoder d;
     m_videoFormat := v;
     m_decodePicCount := m_decodePicCount d;
     m_useSeparateOutputImages := m_useSeparateOutputImages d;
     m_useLinearOutput := m_useLinearOutput d;
     m_lastPictParamsQueue := m_lastPictParamsQueue d;
     m_lastIdInQueue := m_lastIdInQueue d;
     m_pictureParametersQueue := m_pictureParametersQueue d;
     m_currentPictureParameters := m_currentPictureParameters d;
     m_maxStreamBufferSize := m_maxStreamBufferSize d;
     nodes := nodes d;
     objects := objects d;
     statics := statics d;
     bitstreamBuffersQueue := bitstreamBuffersQueue d |}.

Definition set_m_decodePicCount (v : Z) (d : t) : t :=
  {| m_numDecodeSurfaces := m_numDecodeSurfaces d;
     m_maxDecodeFramesCount := m_maxDecodeFramesCount d;
     m_videoSession := m_videoSession d;
     m_resetDecoder := m_resetDecoder d;
     m_videoFormat := m_videoFormat d;
     m_decodePicCount := v;
     m_useSeparateOutputImages := m_useSeparateOutputImages d;
     m_useLinearOutput := m_useLinearOutput d;
     m_lastPictParamsQueue := m_lastPictParamsQueue d;
     m_lastIdInQueue := m_lastIdInQueue d;
     m_pictureParametersQueue := m_pictureParametersQueue d;
     m_currentPictureParameters := m_currentPictureParameters d;
     m_maxStreamBufferSize := m_maxStreamBufferSize d;
     nodes := nodes d;
     objects := objects d;
     statics := statics d;
     bitstreamBuffersQueue := bitstreamBuffersQueue d |}.

Definition set_m_pictureParametersQueue (v : list nat) (d : t) : t :=
  {| m_numDecodeSurfaces := m_numDecodeSurfaces d;
     m_maxDecodeFramesCount := m_maxDecodeFramesCount d;
     m_videoSession := m_videoSession d;
     m_resetDecoder := m_resetDecoder d;
     m_videoFormat := m_videoFormat d;
     m_decodePicCount := m_decodePicCount d;
     m_useSeparateOutputImages := m_useSeparateOutputImages d;
     m_useLinearOutput := m_useLinearOutput d;
     m_lastPictParamsQueue := m_lastPictParamsQueue d;
     m_lastIdInQueue := m_lastIdInQueue d;
     m_pictureParametersQueue := v;
     m_currentPictureParameters := m_currentPictureParameters d;
     m_maxStreamBufferSize := m_maxStreamBufferSize d;
     nodes := nodes d;
     objects := objects d;
     statics := statics d;
     bitstreamBuffersQueue := bitstreamBuffersQueue d |}.

Definition set_m_currentPictureParameters (v : option nat) (d : t) : t :=
  {| m_numDecodeSurfaces := m_numDecodeSurfaces d;
     m_maxDecodeFramesCount := m_maxDecodeFramesCount d;
     m_videoSession := m_videoSession d;
     m_resetDecoder := m_resetDecoder d;
     m_videoFormat := m_videoFormat d;
     m_decodePicCount := m_decodePicCount d;
     m_useSeparateOutputImages := m_useSeparateOutputImages d;
     m_useLinearOutput := m_useLinearOutput d;
     m_lastPictParamsQueue := m_lastPictParamsQueue d;
     m_lastIdInQueue := m_lastIdInQueue d;
     m_pictureParametersQueue := m_pictureParametersQueue d;
     m_currentPictureParameters := v;
     m_maxStreamBufferSize := m_maxStreamBufferSize d;
     nodes := nodes d;
     objects := objects d;
     statics := statics d;
     bitstreamBuffersQueue := bitstreamBuffersQueue d |}.

Definition set_m_maxStreamBufferSize (v : Z) (d : t) : t :=
  {| m_numDecodeSurfaces := m_numDecodeSurfaces d;
     m_maxDecodeFramesCount := m_maxDecodeFramesCount d;
     m_videoSession := m_videoSession d;
     m_resetDecoder := m_resetDecoder d;
     m_videoFormat := m_videoFormat d;
     m_decodePicCount := m_decodePicCount d;
     m_useSeparateOutputImages := m_useSeparateOutputImages d;
     m_useLinearOutput := m_useLinearOutput d;
     m_lastPictParamsQueue := m_lastPictParamsQueue d;
     m_lastIdInQueue := m_lastIdInQueue d;
     m_pictureParametersQueue := m_pictureParametersQueue d;
     m_currentPictureParameters := m_currentPictureParameters d;
     m_maxStreamBufferSize := v;
     nodes := nodes d;
     objects := objects d;
     statics := statics d;
     bitstreamBuffersQueue := bitstreamBuffersQueue d |}.

Definition set_nodes (v : list StdVideoPictureParametersSet.t) (d : t) : t :=
  {| m_numDecodeSurfaces := m_numDecodeSurfaces d;
     m_maxDecodeFramesCount := m_maxDecodeFramesCount d;
     m_videoSession := m_videoSession d;
     m_resetDecoder := m_resetDecoder d;
     m_videoFormat := m_videoFormat d;
     m_decodePicCount := m_decodePicCount d;
     m_useSeparateOutputImages := m_useSeparateOutputImages d;
     m_useLinearOutput := m_useLinearOutput d;
     m_lastPictParamsQueue := m_lastPictParamsQueue d;
     m_lastIdInQueue := m_lastIdInQueue d;
     m_pictureParametersQueue := m_pictureParametersQueue d;
     m_currentPictureParameters := m_currentPictureParameters d;
     m_maxStreamBufferSize := m_maxStreamBufferSize d;
     nodes := v;
     objects := objects d;
     statics := statics d;
     bitstreamBuffersQueue := bitstreamBuffersQueue d |}.

Definition set_objects (v : list VkParserVideoPictureParameters.t) (d : t) : t :=
  {| m_numDecodeSurfaces := m_numDecodeSurfaces d;
     m_maxDecodeFramesCount := m_maxDecodeFramesCount d;
     m_videoSession := m_videoSession d;
     m_resetDecoder := m_resetDecoder d;
     m_videoFormat := m_videoFormat d;
     m_decodePicCount := m_decodePicCount d;
     m_useSeparateOutputImages := m_useSeparateOutputImages d;
     m_useLinearOutput := m_useLinearOutput d;
     m_lastPictParamsQueue := m_lastPictParamsQueue d;
     m_lastIdInQueue := m_lastIdInQueue d;
     m_pictureParametersQueue := m_pictureParametersQueue d;
     m_currentPictureParameters := m_currentPictureParameters d;
     m_maxStreamBufferSize := m_maxStreamBufferSize d;
     nodes := nodes d;
     objects := v;
     statics := statics d;
     bitstreamBuffersQueue := bitstreamBuffersQueue d |}.

Definition set_statics (v : VkParserVideoPictureParameters.Statics) (d : t) : t :=
  {| m_numDecodeSurfaces := m_numDecodeSurfaces d;
     m_maxDecodeFramesCount := m_maxDecodeFramesCount d;
     m_videoSession := m_videoSession d;
     m_resetDecoder := m_resetDecoder d;
     m_videoFormat := m_videoFormat d;
     m_decodePicCount := m_decodePicCount d;
     m_useSeparateOutputImages := m_useSeparateOutputImages d;
     m_useLinearOutput := m_useLinearOutput d;
     m_lastPictParamsQueue := m_lastPictParamsQueue d;
     m_lastIdInQueue := m_lastIdInQueue d;
     m_pictureParametersQueue := m_pictureParametersQueue d;
     m_currentPictureParameters := m_currentPictureParameters d;
     m_maxStreamBufferSize := m_maxStreamBufferSize d;
     nodes := nodes d;
     objects := objects d;
     statics := v;
     bitstreamBuffersQueue := bitstreamBuffersQueue d |}.

Definition set_bitstreamBuffersQueue (v : list VulkanBitstreamBuffer) (d : t) : t :=
  {| m_numDecodeSurfaces := m_numDecodeSurfaces d;
     m_maxDecodeFramesCount := m_maxDecodeFramesCount d;
     m_videoSession := m_videoSession d;
     m_resetDecoder := m_resetDecoder d;
     m_videoFormat := m_videoFormat d;
     m_decodePicCount := m_decodePicCount d;
     m_useSeparateOutputImages := m_useSeparateOutputImages d;
     m_useLinearOutput := m_useLinearOutput d;
     m_lastPictParamsQueue := m_lastPictParamsQueue d;
     m_lastIdInQueue := m_lastIdInQueue d;
     m_pictureParametersQueue := m_pictureParametersQueue d;
     m_currentPictureParameters := m_currentPictureParameters d;
     m_maxStreamBufferSize := m_maxStreamBufferSize d;
     nodes := nodes d;
     objects := objects d;
     statics := statics d;
     bitstreamBuffersQueue := v |}.

(** *** Sequence start *)

(** What the collaborators answer during one [StartVideoSequence]. *)
Record SequenceEnv := {
  IsCodecTypeSupported : bool;
  GetVideoDecodeCapabilities : VkResult;
  minCodedExtent : VkExtent2D;
  pictureAccessGranularity : VkExtent2D;
  GetSupportedVideoFormats : VkResult;
  pictureFormat : Z;
  referencePicturesFormat : Z;
  IsCompatible : bool;
  NvVideoSession_Create : VkResult;
  InitImagePool : Z
}.

(** What one [StartVideoSequence] asks of its collaborators. *)
Inductive Effect :=
| MultiThreadedQueueWaitIdle
| DeviceWaitIdle
| CallNvVideoSessionCreate (session : NvVideoSession) (result : VkResult)
| CallInitImagePool (numImages : Z) (codedExtent imageExtent : VkExtent2D)
    (referencePicturesFormat : Z)
| CallDecodeFramesDataResize (maxDecodeFramesCount : Z) (codedExtent : VkExtent2D).

(** [(x + align) & ~align] on [uint32_t], with [align = granularity - 1]. *)
Definition align_up (x granularity : Z) : Z :=
  let align := to_uint32 (granularity - 1) in
  Z.land (to_uint32 (x + align)) (to_uint32 (Z.lnot align)).


(** [StartVideoSequence]: the [int32_t] result, the decoder afterwards and
    the calls made.  [testUseLargestSurfaceExtent] is the constant [false]. *)
Definition StartVideoSequence (P : Platform) (d : t)
    (pVideoFormat : VkParserDetectedVideoFormat) (env : SequenceEnv)
  : Z * t * list Effect :=
  let codedExtent := {| width := coded_width pVideoFormat;
                        height := coded_height pVideoFormat |} in
  let imageExtent0 :=
    {| width := Z.max (to_uint32 (display_area_right pVideoFormat
                                  - display_area_left pVideoFormat))
                      (coded_width pVideoFormat);
       height := Z.max (to_uint32 (display_area_bottom pVideoFormat
                                   - display_area_top pVideoFormat))
                       (coded_height pVideoFormat) |} in
  let d1 := set_m_numDecodeSurfaces
              (Z.max (m_numDecodeSurfaces d)
                 (SurfaceCount.GetNumDecodeSurfaces (build P) (codec pVideoFormat)
                    (minNumDecodeSurfaces pVideoFormat)
                    (width codedExtent) (height codedExtent))) d in
  let videoProfile :=
    {| profile_codec := codec pVideoFormat;
       profile_chromaSubsampling := chromaSubsampling pVideoFormat;
       profile_lumaBitDepth := lumaBitDepth pVideoFormat;
       profile_chromaBitDepth := chromaBitDepth pVideoFormat;
       profile_codecProfile := codecProfile pVideoFormat |} in
  if negb (IsCodecTypeSupported env) then (-1, d1, [])
  else
    let waits :=
      if negb (coded_width (m_videoFormat d1) =? 0)
         && negb (coded_height (m_videoFormat d1) =? 0)
      then [MultiThreadedQueueWaitIdle; DeviceWaitIdle] else [] in
    let maxDpbSlotCount := maxNumDpbSlots pVideoFormat in
    if negb (GetVideoDecodeCapabilities env =? VK_SUCCESS) then (-1, d1, waits)
    else if negb (GetSupportedVideoFormats env =? VK_SUCCESS) then (-1, d1, waits)
    else
      let imageExtent :=
        {| width := align_up (Z.max (width imageExtent0) (width (minCodedExtent env)))
                             (width (pictureAccessGranularity env));
           height := align_up (Z.max (height imageExtent0) (height (minCodedExtent env)))
                              (height (pictureAccessGranularity env)) |} in
      let wanted :=
        {| session_profile := videoProfile;
           session_pictureFormat := pictureFormat env;
           session_maxCodedExtent := imageExtent;
           session_referencePicturesFormat := referencePicturesFormat env;
           session_maxDpbSlots := maxDpbSlotCount;
           session_maxActiveReferencePictures :=
             Z.max maxDpbSlotCount (MAX_DPB_REF_SLOTS P) |} in
      let recreate :=
        match m_videoSession d1 with
        | None => true
        | Some _ => negb (IsCompatible env)
        end in
      let '(d2, created) :=
        if recreate then
          (* NvVideoSession::Create assigns [m_videoSession] when it succeeds *)
          let d' := if NvVideoSession_Create env =? VK_SUCCESS
                    then set_m_videoSession (Some wanted) d1 else d1 in
          (set_m_resetDecoder true d',
           [CallNvVideoSessionCreate wanted (NvVideoSession_Create env)])
        else (d1, []) in
      let pool := CallInitImagePool (m_numDecodeSurfaces d2) codedExtent imageExtent
                    (referencePicturesFormat env) in
      let d3 := set_m_maxDecodeFramesCount (m_numDecodeSurfaces d2) d2 in
      let resize := CallDecodeFramesDataResize (m_maxDecodeFramesCount d3) codedExtent in
      let d4 := set_m_videoFormat pVideoFormat d3 in
      (int_of_uint32 (m_numDecodeSurfaces d4), d4,
       waits ++ created ++ [pool; resize]).

(** *** The parameter-set graph *)

(** Modelled from the spec: the enumerant values of [ItemType] are declared
    in VkVideoDecoder.h, which is not part of VkVideoDecoder.cpp; the
    three kinds are numbered from 0 in the order SPS, PPS, VPS. *)
Definition ItemType_value (ty : ItemType) : Z :=
  match ty with
  | SPS_TYPE => 0
  | PPS_TYPE => 1
  | VPS_TYPE => 2
  | INVALID_TYPE => 4
  end.

(** Dereferencing a node or an object reference. *)
Definition deref {A} (arena : list A) (ref : nat) : Outcome A :=
  match arena !! ref with
  | Some a => Done a
  | None => Raised NullDereference
  end.

Definition deref_opt {A} (arena : list A) (ref : option nat) : Outcome (option A) :=
  match ref with
  | Some r => a ← deref arena r; Done (Some a)
  | None => Done None
  end.

Definition update_node (ref : nat) (f : StdVideoPictureParametersSet.t -> StdVideoPictureParametersSet.t)
    (d : t) : t :=
  set_nodes (alter f ref (nodes d)) d.

Definition CheckStdObjectBeforeUpdate (d : t)
    (stdPictureParametersSet : option StdVideoPictureParametersSet.t) : bool :=
  match stdPictureParametersSet with
  | None => false
  | Some n =>
      let stdObjectUpdate := 0 <? m_updateSequenceCount n in
      match m_currentPictureParameters d with
      | None => true
      | Some _ => stdObjectUpdate
      end
  end.

Definition CheckStdObjectAfterUpdate (d : t) (stdPictureParametersSet : option nat)
    (pNewPictureParametersObject : option nat) : Outcome (option nat * t) :=
  match stdPictureParametersSet with
  | None => Done (None, d)
  | Some ref =>
      n ← deref (nodes d) ref;
      match pNewPictureParametersObject with
      | Some new =>
          let d1 := if m_updateSequenceCount n =? 0
                    then update_node ref (StdVideoPictureParametersSet.set_m_videoSession (m_videoSession d)) d
                    else d in
          Done (Some new, update_node ref (set_m_vkObjectOwner (Some new)) d1)
      | None =>
          let d1 := update_node ref (StdVideoPictureParametersSet.set_m_videoSession (m_videoSession d)) d in
          let d2 := update_node ref
                      (set_m_vkObjectOwner (m_currentPictureParameters d)) d1 in
          Done (m_currentPictureParameters d, d2)
      end
  end.

(** The [if (createNewObject) ... else ...] statement of
    [AddPictureParameters]: the new object (null on the update path) and the
    decoder afterwards. *)
Definition create_or_update (P : Platform) (d : t) (createNewObject : bool)
    (vps sps pps : option StdVideoPictureParametersSet.t)
  : Outcome (option nat * t) :=
  if createNewObject then
    template ← deref_opt (objects d) (m_currentPictureParameters d);
    '(created, statics') ←
      VkParserVideoPictureParameters.Create P (statics d)
        (m_videoSession d) vps sps pps template;
    let d' := set_statics statics' d in
    match created with
    | Some o =>
        let ref := length (objects d') in
        let d'' := set_objects (objects d' ++ [o]) d' in
        Done (Some ref, set_m_currentPictureParameters (Some ref) d'')
    | None =>
        Done (None, set_m_currentPictureParameters None d')
    end
  else
    match m_currentPictureParameters d with
    | None => Raised NullDereference
    | Some cur =>
        this ← deref (objects d) cur;
        '(_, this', statics') ←
          VkParserVideoPictureParameters.Update P (statics d) this vps sps pps;
        Done (None,
              set_objects (<[cur := this']> (objects d))
                (set_statics statics' d))
    end.

(** [AddPictureParameters] once at least one of the three nodes is given. *)
Definition AddPictureParameters_present (P : Platform) (d : t)
    (vpsStdPictureParametersSet spsStdPictureParametersSet
     ppsStdPictureParametersSet : option nat) : Outcome (option nat * t) :=
  vps ← deref_opt (nodes d) vpsStdPictureParametersSet;
  sps ← deref_opt (nodes d) spsStdPictureParametersSet;
  pps ← deref_opt (nodes d) ppsStdPictureParametersSet;
  let createNewObject :=
    CheckStdObjectBeforeUpdate d pps
    || CheckStdObjectBeforeUpdate d sps
    || CheckStdObjectBeforeUpdate d vps in
  '(pPictureParametersObject, d1) ← create_or_update P d createNewObject vps sps pps;
  '(_, d2) ← CheckStdObjectAfterUpdate d1 vpsStdPictureParametersSet
               pPictureParametersObject;
  '(_, d3) ← CheckStdObjectAfterUpdate d2 spsStdPictureParametersSet
               pPictureParametersObject;
  '(_, d4) ← CheckStdObjectAfterUpdate d3 ppsStdPictureParametersSet
               pPictureParametersObject;
  Done (pPictureParametersObject, d4).

Definition AddPictureParameters (P : Platform) (d : t)
    (vpsStdPictureParametersSet spsStdPictureParametersSet
     ppsStdPictureParametersSet : option nat) : Outcome (option nat * t) :=
  match ppsStdPictureParametersSet, spsStdPictureParametersSet,
        vpsStdPictureParametersSet with
  | None, None, None => Done (None, d)
  | _, _, _ =>
      AddPictureParameters_present P d vpsStdPictureParametersSet
        spsStdPictureParametersSet ppsStdPictureParametersSet
  end.

Definition AddPictureParametersToQueue (d : t) (pictureParametersSet : nat)
    (ty : ItemType) : Z * t :=
  (Z.shiftl 1 (ItemType_value ty),
   set_m_pictureParametersQueue (m_pictureParametersQueue d ++ [pictureParametersSet]) d).

(** One turn of the [while] loop of [FlushPictureParametersQueue] for the
    front item [ppItem], without the [pop]. *)
Definition flush_front (P : Platform) (d : t) (ppItem : nat) : Outcome t :=
  n ← deref (nodes d) ppItem;
  match m_itemType n with
  | PPS_TYPE => '(_, d') ← AddPictureParameters P d None None (Some ppItem); Done d'
  | SPS_TYPE => '(_, d') ← AddPictureParameters P d None (Some ppItem) None; Done d'
  | VPS_TYPE => '(_, d') ← AddPictureParameters P d (Some ppItem) None None; Done d'
  | INVALID_TYPE => Done d
  end.

(** The loop, by recursion on the items still queued: [AddPictureParameters]
    leaves the queue alone, so the queue after a turn is the rest of it. *)
Fixpoint flush_loop (P : Platform) (queue : list nat) (d : t) (numQueueItems : Z)
  : Outcome (Z * t) :=
  match queue with
  | [] => Done (numQueueItems, d)
  | ppItem :: rest =>
      d1 ← flush_front P d ppItem;
      flush_loop P rest (set_m_pictureParametersQueue rest d1)
        (to_uint32 (numQueueItems + 1))
  end.

Definition FlushPictureParametersQueue (P : Platform) (d : t) : Outcome (Z * t) :=
  flush_loop P (m_pictureParametersQueue d) d 0.

(** [pictureParametersSet->m_parent = m_lastPictParamsQueue[nodeParent]] when
    the last node of the parent kind carries the id the new node refers to. *)
Definition link_to_parent (nodeParent : ItemType) (parentId : Z) (ref : nat) (d : t) : t :=
  match m_lastPictParamsQueue d nodeParent with
  | Some _ =>
      if parentId =? m_lastIdInQueue d nodeParent
      then update_node ref (set_m_parent (m_lastPictParamsQueue d nodeParent)) d
      else d
  | None => d
  end.

(** [m_lastPictParamsQueue[nodeChild]->m_parent = pictureParametersSet] when
    the last node of the child kind refers to the id of the new node. *)
Definition link_child (nodeChild : ItemType)
    (getParentId : StdVideoPictureParametersSet.t -> Z * bool)
    (nodeId : Z) (ref : nat) (d : t) : Outcome t :=
  match m_lastPictParamsQueue d nodeChild with
  | Some child =>
      c ← deref (nodes d) child;
      if fst (getParentId c) =? nodeId
      then Done (update_node child (set_m_parent (Some ref)) d)
      else Done d
  | None => Done d
  end.

(** [UpdatePictureParameters]: the boolean result, the node handed back in
    [pictureParametersObject], and the decoder afterwards.  The argument is
    [None] when the payload yields no node. *)
Definition UpdatePictureParameters (P : Platform) (d : t)
    (pPictureParameters : option (ItemType * StdData)) (updateSequenceCount : Z)
  : Outcome (bool * option nat * t) :=
  match pPictureParameters with
  | None => Done (false, None, d)
  | Some (ty, payload) =>
      let pictureParametersSet :=
        StdVideoPictureParametersSet.Create ty payload updateSequenceCount in
      let ref := length (nodes d) in
      let d0 := set_nodes (nodes d ++ [pictureParametersSet]) d in
      linked ←
        match ty with
        | PPS_TYPE =>
            Done (Some (link_to_parent SPS_TYPE (fst (GetSpsId pictureParametersSet)) ref d0))
        | SPS_TYPE =>
            let nodeId := fst (GetSpsId pictureParametersSet) in
            d1 ← link_child PPS_TYPE GetSpsId nodeId ref d0;
            Done (Some (link_to_parent VPS_TYPE (fst (GetVpsId pictureParametersSet)) ref d1))
        | VPS_TYPE =>
            let nodeId := fst (GetVpsId pictureParametersSet) in
            d1 ← link_child SPS_TYPE GetVpsId nodeId ref d0;
            Done (Some d1)
        | INVALID_TYPE => Done None
        end;
      match linked with
      | None => Done (false, None, d0)
      | Some d1 =>
          let '(nodesTypeMask, d2) := AddPictureParametersToQueue d1 ref ty in
          d3 ← (match m_videoSession d2 with
                | Some _ =>
                    if negb (nodesTypeMask =? 0)
                    then '(_, d') ← FlushPictureParametersQueue P d2; Done d'
                    else Done d2
                | None => Done d2
                end);
          Done (true, Some ref, d3)
      end
  end.

(** *** Decoding one picture *)

Definition VkImageLayout := Z.
Definition VK_IMAGE_LAYOUT_UNDEFINED : VkImageLayout := 0.
Definition VK_IMAGE_LAYOUT_VIDEO_DECODE_DST_KHR : VkImageLayout := 1000024000.
Definition VK_IMAGE_LAYOUT_VIDEO_DECODE_DPB_KHR : VkImageLayout := 1000024002.
Definition VK_VIDEO_CODING_CONTROL_RESET_BIT_KHR : Z := 1.

(** The commands recorded into the frame's command buffer. *)
Inductive Command :=
| CmdResetQueryPool
| CmdBeginVideoCodingKHR (videoSession : NvVideoSession) (videoSessionParameters : nat)
| CmdControlVideoCodingKHR (flags : Z)
| CmdPipelineBarrier2KHR (bufferMemoryBarrierCount imageMemoryBarrierCount : Z)
| CmdBeginQuery
| CmdDecodeVideoKHR (srcBufferRange : Z)
| CmdEndQuery
| CmdEndVideoCodingKHR
| CmdCopyImage (regionCount : Z)
| CmdPipelineBarrier.

Record PictureResourceInfo := {
  image : bool;                      (* the image handle is not null *)
  currentImageLayout : VkImageLayout
}.

Record VkParserPerFrameDecodeParameters := {
  currPicIdx : Z;
  bitstreamDataLen : Z;
  numGopReferenceSlots : Z;
  pCurrentPictureParameters : option nat
}.

(** What the frame buffer answers during one decode. *)
Record DecodeEnv := {
  currentDpbPictureResourceInfo : PictureResourceInfo;
  pictureResourcesInfo : list PictureResourceInfo
}.

(** A reference image needs a layout transition. *)
Definition needs_dpb_barrier (info : PictureResourceInfo) : bool :=
  image info
  && negb (currentImageLayout info =? VK_IMAGE_LAYOUT_VIDEO_DECODE_DPB_KHR)
  && negb (currentImageLayout info =? VK_IMAGE_LAYOUT_VIDEO_DECODE_DST_KHR).

Definition numDpbBarriers (pPicParams : VkParserPerFrameDecodeParameters)
    (env : DecodeEnv) : Z :=
  (if currentImageLayout (currentDpbPictureResourceInfo env) =? VK_IMAGE_LAYOUT_UNDEFINED
   then 1 else 0)
  + Z.of_nat (length (filter (fun i => needs_dpb_barrier i = true)
                        (take (Z.to_nat (numGopReferenceSlots pPicParams))
                              (pictureResourcesInfo env)))).

(** [DecodePictureWithParameters]: the result, the decoder afterwards and
    the command buffer that is submitted.  The fence and semaphore traffic
    around the submission is not part of the model. *)
Definition DecodePictureWithParameters (P : Platform) (d : t)
    (pPicParams : VkParserPerFrameDecodeParameters) (env : DecodeEnv)
  : Outcome (Z * t * list Command) :=
  match m_videoSession d with
  | None => Done (-1, d, [])
  | Some session =>
      let d1 := set_m_decodePicCount (m_decodePicCount d + 1) d in
      let barriers := numDpbBarriers pPicParams env in
      '(_, d2) ← FlushPictureParametersQueue P d1;
      node ← match pCurrentPictureParameters pPicParams with
             | Some r => deref (nodes d2) r
             | None => Raised NullDereference
             end;
      owner ← match m_vkObjectOwner node with
              | Some o => _ ← deref (objects d2) o; Done o
              | None => Raised NullDereference
              end;
      let begin := [CmdResetQueryPool; CmdBeginVideoCodingKHR session owner] in
      let '(reset, d3) :=
        if m_resetDecoder d2
        then ([CmdControlVideoCodingKHR VK_VIDEO_CODING_CONTROL_RESET_BIT_KHR],
              set_m_resetDecoder false d2)
        else ([], d2) in
      let decode := [CmdPipelineBarrier2KHR 1 barriers; CmdBeginQuery;
                     CmdDecodeVideoKHR (bitstreamDataLen pPicParams);
                     CmdEndQuery; CmdEndVideoCodingKHR] in
      let copy := if m_useSeparateOutputImages d3 || m_useLinearOutput d3
                  then [CmdCopyImage 2; CmdPipelineBarrier] else [] in
      Done (currPicIdx pPicParams, d3, begin ++ reset ++ decode ++ copy)
  end.

(** *** The bitstream buffer pool *)

Definition GetMaxSize (b : VulkanBitstreamBuffer) : Z :=
  Z.of_nat (length (bufferMemory b)).

(** [data] written over [mem] from position [offset] on. *)
Definition write_at (mem : list Byte.byte) (offset : nat) (data : list Byte.byte)
  : list Byte.byte :=
  take offset mem ++ data ++ drop (offset + length data) mem.

(** Modelled from the spec: [VulkanBitstreamBufferImpl::CopyDataFromBuffer]
    is not part of VkVideoDecoder.cpp.  It copies [size] bytes of the
    caller's memory, from [srcOffset] on, into the buffer at [dstOffset]
    ("copy initData into it"); a copy that does not fit the buffer is
    refused and leaves it as it was.  Reading beyond the caller's memory is a
    fault. *)
Definition CopyDataFromBuffer (b : VulkanBitstreamBuffer) (pData : list Byte.byte)
    (srcOffset dstOffset size : Z) : Outcome VulkanBitstreamBuffer :=
  if Z.of_nat (length pData) <? srcOffset + size then Raised BadRead
  else if GetMaxSize b <? dstOffset + size then Done b
  else Done {| bufferMemory :=
                 write_at (bufferMemory b) (Z.to_nat dstOffset)
                   (take (Z.to_nat size) (drop (Z.to_nat srcOffset) pData)) |}.

(** Modelled from the spec: [VulkanBitstreamBufferImpl::MemsetData] is not
    part of VkVideoDecoder.cpp.  It fills [size] bytes of the buffer from
    [offset] on with [value] ("zero-fill the remainder up to the entry's
    capacity"); a fill that does not fit the buffer is refused. *)
Definition MemsetData (b : VulkanBitstreamBuffer) (value : Byte.byte)
    (offset size : Z) : VulkanBitstreamBuffer :=
  if GetMaxSize b <? offset + size then b
  else {| bufferMemory :=
            write_at (bufferMemory b) (Z.to_nat offset)
              (replicate (Z.to_nat size) value) |}.

(** What the pool and the allocator answer during one [GetBitstreamBuffer]:
    the index of a free pool entry or a negative number, the result of
    [VulkanBitstreamBufferImpl::Create] and the memory of the buffer it
    allocates. *)
Record BitstreamEnv := {
  GetAvailableNodeFromPool : Z;
  VulkanBitstreamBufferImpl_Create : VkResult;
  newBufferMemory : list Byte.byte
}.

(** [GetBitstreamBuffer]: the [size_t] result, the buffer handed back in
    [bitstreamBuffer] and the decoder afterwards.  [pInitializeBufferMemory]
    is the memory the caller's pointer designates. *)
Definition GetBitstreamBuffer (d : t) (size : Z)
    (pInitializeBufferMemory : list Byte.byte) (initializeBufferMemorySize : Z)
    (env : BitstreamEnv) : Outcome (Z * option nat * t) :=
  let availablePoolNode := GetAvailableNodeFromPool env in
  let finish (newSize : Z) (ref : nat) (d' : t) : Outcome (Z * option nat * t) :=
    b ← deref (bitstreamBuffersQueue d') ref;
    let d'' := if m_maxStreamBufferSize d' <? newSize
               then set_m_maxStreamBufferSize newSize d' else d' in
    Done (GetMaxSize b, Some ref, d'') in
  if negb (0 <=? availablePoolNode) then
    if negb (VulkanBitstreamBufferImpl_Create env =? VK_SUCCESS) then Done (0, None, d)
    else
      newBitstreamBuffer ←
        CopyDataFromBuffer {| bufferMemory := newBufferMemory env |}
          pInitializeBufferMemory 0 0 initializeBufferMemorySize;
      let ref := length (bitstreamBuffersQueue d) in
      finish size ref
        (set_bitstreamBuffersQueue (bitstreamBuffersQueue d ++ [newBitstreamBuffer]) d)
  else
    let ref := Z.to_nat availablePoolNode in
    newBitstreamBuffer ← deref (bitstreamBuffersQueue d) ref;
    let newSize := GetMaxSize newBitstreamBuffer in
    let copySize := Z.min initializeBufferMemorySize newSize in
    copied ← CopyDataFromBuffer newBitstreamBuffer pInitializeBufferMemory 0 0 copySize;
    let cleared := MemsetData copied Byte.x00 copySize (newSize - copySize) in
    finish newSize ref
      (set_bitstreamBuffersQueue (<[ref := cleared]> (bitstreamBuffersQueue d)) d).

(** *** Runs of the decoder *)

Inductive Op :=
| OpStartVideoSequence (pVideoFormat : VkParserDetectedVideoFormat) (env : SequenceEnv)
| OpUpdatePictureParameters (pPictureParameters : option (ItemType * StdData))
    (updateSequenceCount : Z)
| OpDecodePictureWithParameters (pPicParams : VkParserPerFrameDecodeParameters)
    (env : DecodeEnv)
| OpGetBitstreamBuffer (size : Z) (pInitializeBufferMemory : list Byte.byte)
    (initializeBufferMemorySize : Z) (env : BitstreamEnv).

Inductive Event :=
| EvSequence (ret : Z) (effects : list Effect)
| EvParameters (ok : bool)
| EvDecode (ret : Z) (commands : list Command)
| EvBitstream (ret : Z).

Definition step (P : Platform) (d : t) (op : Op) : Outcome (t * Event) :=
  match op with
  | OpStartVideoSequence fmt env =>
      let '(ret, d', effects) := StartVideoSequence P d fmt env in
      Done (d', EvSequence ret effects)
  | OpUpdatePictureParameters payload count =>
      '(ok, _, d') ← UpdatePictureParameters P d payload count;
      Done (d', EvParameters ok)
  | OpDecodePictureWithParameters params env =>
      '(ret, d', commands) ← DecodePictureWithParameters P d params env;
      Done (d', EvDecode ret commands)
  | OpGetBitstreamBuffer size mem len env =>
      '(ret, _, d') ← GetBitstreamBuffer d size mem len env;
      Done (d', EvBitstream ret)
  end.

(** The decoder after a list of calls, with the events in call order. *)
Fixpoint run (P : Platform) (d : t) (ops : list Op) : Outcome (t * list Event) :=
  match ops with
  | [] => Done (d, [])
  | op :: rest =>
      '(d1, ev) ← step P d op;
      '(d2, evs) ← run P d1 rest;
      Done (d2, ev :: evs)
  end.


(** The members that the parameter-set code never assigns. *)
Definition outside_parameters (d : t) :=
  (m_numDecodeSurfaces d, m_maxDecodeFramesCount d, m_videoSession d,
   m_resetDecoder d, m_videoFormat d, m_decodePicCount d,
   m_useSeparateOutputImages d, m_useLinearOutput d,
   m_lastPictParamsQueue d, m_lastIdInQueue d, m_maxStreamBufferSize d,
   bitstreamBuffersQueue d).

(** The part of a node that flushing the queue never assigns. *)
Definition node_static (n : StdVideoPictureParametersSet.t) :=
  (m_itemType n, m_data n, m_updateSequenceCount n, m_parent n).

(** What [AddPictureParameters] and its parts leave alone: the members
    outside the parameter-set code, the queue, and of every node its kind,
    payload, counter and parent. *)
Definition keeps_graph (d d' : t) : Prop :=
  outside_parameters d' = outside_parameters d
  /\ m_pictureParametersQueue d' = m_pictureParametersQueue d
  /\ map node_static (nodes d') = map node_static (nodes d).

(** How one arrival changes the parents of the nodes.  [relinked d d']
    says: [d'] has one node more than [d]; of the nodes of [d] only a
    last-seen node may have a new parent, and then it is the new node; the
    new node has no parent or a last-seen node of [d] as its parent. *)
Definition relinked (d d' : t) : Prop :=
  length (nodes d') = S (length (nodes d))
  /\ (forall i n, nodes d !! i = Some n ->
      exists n', nodes d' !! i = Some n'
        /\ (m_parent n' = m_parent n
            \/ (m_parent n' = Some (length (nodes d))
                /\ exists ty, m_lastPictParamsQueue d ty = Some i)))
  /\ (exists n', nodes d' !! length (nodes d) = Some n'
        /\ (m_parent n' = None
            \/ exists ty r, m_lastPictParamsQueue d ty = Some r
                 /\ m_parent n' = Some r)).

(** The last-seen tables refer to nodes of the arena. *)
Definition last_seen_wf (d : t) : Prop :=
  forall ty r, m_lastPictParamsQueue d ty = Some r -> (r < length (nodes d))%nat.

(** The node a reference designates. *)
Definition node_of (d : t) (ref : option nat) : option StdVideoPictureParametersSet.t :=
  match ref with
  | Some r => nodes d !! r
  | None => None
  end.

(** The decision of [AddPictureParameters]: some node given needs a new
    object. *)
Definition createNewObject (d : t) (vps sps pps : option nat) : bool :=
  CheckStdObjectBeforeUpdate d (node_of d pps)
  || CheckStdObjectBeforeUpdate d (node_of d sps)
  || CheckStdObjectBeforeUpdate d (node_of d vps).

(** The identities of the objects created so far do not exceed the counter
    and increase strictly in creation order. *)
Definition ids_increasing (d : t) : Prop :=
  (forall i o, objects d !! i = Some o ->
     VkParserVideoPictureParameters.m_Id o
     <= VkParserVideoPictureParameters.m_currentId (statics d))
  /\ (forall i j oi oj,
        objects d !! i = Some oi -> objects d !! j = Some oj -> (i < j)%nat ->
        VkParserVideoPictureParameters.m_Id oi < VkParserVideoPictureParameters.m_Id oj).

(** The id sets of one object are contained in those of another. *)
Definition ids_subset (o o' : VkParserVideoPictureParameters.t) : Prop :=
  VkParserVideoPictureParameters.m_vpsIdsUsed o ⊆ VkParserVideoPictureParameters.m_vpsIdsUsed o'
  /\ VkParserVideoPictureParameters.m_spsIdsUsed o ⊆ VkParserVideoPictureParameters.m_spsIdsUsed o'
  /\ VkParserVideoPictureParameters.m_ppsIdsUsed o ⊆ VkParserVideoPictureParameters.m_ppsIdsUsed o'.










(** The zero-initialised [m_videoFormat]. *)
Definition zero_format : VkParserDetectedVideoFormat :=
  {| codec := 0; coded_width := 0; coded_height := 0;
     display_area_left := 0; display_area_top := 0;
     display_area_right := 0; display_area_bottom := 0;
     chromaSubsampling := 0; lumaBitDepth := 0; chromaBitDepth := 0;
     codecProfile := 0; minNumDecodeSurfaces := 0; maxNumDpbSlots := 0 |}.

(** Modelled from the spec: the constructor is declared in VkVideoDecoder.h,
    which is not part of VkVideoDecoder.cpp.  A decoder that has not been
    used has no session, no last-seen node of any kind, nothing queued, no
    current parameters object and an empty buffer pool; the initial value of
    the reset flag is left open. *)
Definition fresh (useLinearOutput resetDecoder : bool) : t :=
  {| m_numDecodeSurfaces := 0;
     m_maxDecodeFramesCount := 0;
     m_videoSession := None;
     m_resetDecoder := resetDecoder;
     m_videoFormat := zero_format;
     m_decodePicCount := 0;
     m_useSeparateOutputImages := false;
     m_useLinearOutput := useLinearOutput;
     m_lastPictParamsQueue := fun _ => None;
     m_lastIdInQueue := fun _ => -1;
     m_pictureParametersQueue := [];
     m_currentPictureParameters := None;
     m_maxStreamBufferSize := 0;
     nodes := [];
     objects := [];
     statics := {| VkParserVideoPictureParameters.m_currentId := 0;
                   VkParserVideoPictureParameters.driverCalls := [] |};
     bitstreamBuffersQueue := [] |}.

End VkVideoDecoder.

(** ** Concrete platforms, streams and answers used in the examples *)

Module Examples.

Import StdVideoPictureParametersSet VkVideoDecoder.

(** A driver that accepts every call, with neither guarded codec. *)
Definition platform : Platform :=
  {| build := build_h26x; MAX_VPS_IDS := 16; MAX_SPS_IDS := 32;
     MAX_PPS_IDS := 256; MAX_DPB_REF_SLOTS := 16;
     vkResultOf := fun _ => VK_SUCCESS |}.

Definition stream (c w h minSurfaces : Z) : VkParserDetectedVideoFormat :=
  {| codec := c; coded_width := w; coded_height := h;
     display_area_left := 0; display_area_top := 0;
     display_area_right := w; display_area_bottom := h;
     chromaSubsampling := 2; lumaBitDepth := 1; chromaBitDepth := 1;
     codecProfile := 100; minNumDecodeSurfaces := minSurfaces;
     maxNumDpbSlots := 17 |}.

Definition h264_1080p : VkParserDetectedVideoFormat :=
  stream VK_VIDEO_CODEC_OPERATION_DECODE_H264_BIT_KHR 1920 1080 4.


Definition answers (supported compatible : bool) : SequenceEnv :=
  {| IsCodecTypeSupported := supported;
     GetVideoDecodeCapabilities := VK_SUCCESS;
     minCodedExtent := {| width := 16; height := 16 |};
     pictureAccessGranularity := {| width := 16; height := 16 |};
     GetSupportedVideoFormats := VK_SUCCESS;
     pictureFormat := 1000156003; referencePicturesFormat := 1000156003;
     IsCompatible := compatible; NvVideoSession_Create := VK_SUCCESS;
     InitImagePool := 12 |}.

(** One decode of the picture whose parameters are the node [ref]. *)
Definition decode_with (ref : nat) : Op :=
  OpDecodePictureWithParameters
    {| currPicIdx := 0; bitstreamDataLen := 1024; numGopReferenceSlots := 0;
       pCurrentPictureParameters := Some ref |}
    {| currentDpbPictureResourceInfo :=
         {| image := true; currentImageLayout := VK_IMAGE_LAYOUT_UNDEFINED |};
       pictureResourcesInfo := [] |}.

(** A sequence start, an SPS and a PPS, and two decodes. *)
Definition two_decodes : list Op :=
  [ OpStartVideoSequence h264_1080p (answers true false);
    OpUpdatePictureParameters (Some (SPS_TYPE, h264Sps 0)) 0;
    OpUpdatePictureParameters (Some (PPS_TYPE, h264Pps 0 0)) 0;
    decode_with 1;
    decode_with 1 ].

(** Scenario C: a PPS that refers to SPS 0 arrives, then SPS 0. *)
Definition pps_then_sps : list Op :=
  [ OpUpdatePictureParameters (Some (PPS_TYPE, h264Pps 0 0)) 0;
    OpUpdatePictureParameters (Some (SPS_TYPE, h264Sps 0)) 0 ].

(** A decoder with a session, one compiled object with identity 1 that
    holds SPS 0, and an SPS node: a revision of SPS 0 owned by that object. *)
Definition session_1080p : NvVideoSession :=
  {| session_profile :=
       {| profile_codec := VK_VIDEO_CODEC_OPERATION_DECODE_H264_BIT_KHR;
          profile_chromaSubsampling := 2; profile_lumaBitDepth := 1;
          profile_chromaBitDepth := 1; profile_codecProfile := 100 |};
     session_pictureFormat := 1000156003;
     session_maxCodedExtent := {| width := 1920; height := 1088 |};
     session_referencePicturesFormat := 1000156003;
     session_maxDpbSlots := 17;
     session_maxActiveReferencePictures := 17 |}.

Definition decoder_with_object : VkVideoDecoder.t :=
  set_m_videoSession (Some session_1080p)
    (set_m_currentPictureParameters (Some 0%nat)
       (set_statics
          {| VkParserVideoPictureParameters.m_currentId := 1;
             VkParserVideoPictureParameters.driverCalls :=
               [VkParserVideoPictureParameters.CreateVideoSessionParametersKHR None] |}
          (set_objects
             [ {| VkParserVideoPictureParameters.m_Id := 1;
                  VkParserVideoPictureParameters.m_vpsIdsUsed := ∅;
                  VkParserVideoPictureParameters.m_spsIdsUsed := {[ 0 ]};
                  VkParserVideoPictureParameters.m_ppsIdsUsed := ∅;
                  VkParserVideoPictureParameters.m_videoSession := Some session_1080p |} ]
             (set_nodes
                [ {| m_itemType := SPS_TYPE; m_data := h264Sps 0;
                     m_updateSequenceCount := 1; m_parent := None;
                     m_vkObjectOwner := Some 0%nat;
                     StdVideoPictureParametersSet.m_videoSession := Some session_1080p |} ]
                (fresh false false))))).

(** A pool whose only entry, of eight bytes, still holds the bytes of its
    previous use; a payload of three bytes; a pool that offers entry 0. *)
Definition decoder_with_stale_buffer : VkVideoDecoder.t :=
  set_bitstreamBuffersQueue
    [ {| bufferMemory := replicate 8 Byte.xff |} ] (fresh false false).

Definition payload : list Byte.byte := [Byte.x01; Byte.x02; Byte.x03].

Definition pool_offers_entry_0 : BitstreamEnv :=
  {| GetAvailableNodeFromPool := 0;
     VulkanBitstreamBufferImpl_Create := VK_SUCCESS;
     newBufferMemory := [] |}.

End Examples.

(** ** GetVideoChromaFormatString *)

Module ChromaFormatString.

(** [VkVideoChromaSubsamplingFlagBitsKHR] comes from the Vulkan headers; the
    four enumerants of the [switch] carry their registry values. *)
Definition VK_VIDEO_CHROMA_SUBSAMPLING_MONOCHROME_BIT_KHR : Z := 1.
Definition VK_VIDEO_CHROMA_SUBSAMPLING_420_BIT_KHR : Z := 2.
Definition VK_VIDEO_CHROMA_SUBSAMPLING_422_BIT_KHR : Z := 4.
Definition VK_VIDEO_CHROMA_SUBSAMPLING_444_BIT_KHR : Z := 8.

(** The [switch]; its [default] label only asserts, so control reaches the
    final [return "Unknown"]. *)
Definition GetVideoChromaFormatString (chromaFormat : Z) : string :=
  if chromaFormat =? VK_VIDEO_CHROMA_SUBSAMPLING_MONOCHROME_BIT_KHR
  then "YCbCr 400 (Monochrome)"
  else if chromaFormat =? VK_VIDEO_CHROMA_SUBSAMPLING_420_BIT_KHR then "YCbCr 420"
  else if chromaFormat =? VK_VIDEO_CHROMA_SUBSAMPLING_422_BIT_KHR then "YCbCr 422"
  else if chromaFormat =? VK_VIDEO_CHROMA_SUBSAMPLING_444_BIT_KHR then "YCbCr 444"
  else "Unknown".

(** The values that have a [case] label. *)
Definition has_case_label (chromaFormat : Z) : Prop :=
  chromaFormat = VK_VIDEO_CHROMA_SUBSAMPLING_MONOCHROME_BIT_KHR
  \/ chromaFormat = VK_VIDEO_CHROMA_SUBSAMPLING_420_BIT_KHR
  \/ chromaFormat = VK_VIDEO_CHROMA_SUBSAMPLING_422_BIT_KHR
  \/ chromaFormat = VK_VIDEO_CHROMA_SUBSAMPLING_444_BIT_KHR.

End ChromaFormatString.

(** ** What holds of the states the decoder reaches *)

Module Invariant.

Import StdVideoPictureParametersSet VkVideoDecoder.

(** The ids that compiling a queued node marks: those of the call that
    [FlushPictureParametersQueue] makes for a node of its kind. *)
Definition queued_ids (n : StdVideoPictureParametersSet.t) : Z * Z * Z :=
  match m_itemType n with
  | PPS_TYPE => VkParserVideoPictureParameters.ids_of None None (Some n)
  | SPS_TYPE => VkParserVideoPictureParameters.ids_of None (Some n) None
  | VPS_TYPE => VkParserVideoPictureParameters.ids_of (Some n) None None
  | INVALID_TYPE => (-1, -1, -1)
  end.

(** The object has each id that is not negative in its set. *)
Definition holds_ids (o : VkParserVideoPictureParameters.t) (ids : Z * Z * Z) : Prop :=
  (0 <= ids.1.1 -> ids.1.1 ∈ VkParserVideoPictureParameters.m_vpsIdsUsed o)
  /\ (0 <= ids.1.2 -> ids.1.2 ∈ VkParserVideoPictureParameters.m_spsIdsUsed o)
  /\ (0 <= ids.2 -> ids.2 ∈ VkParserVideoPictureParameters.m_ppsIdsUsed o).

(** The current object, when there is one, is the object created last. *)
Definition current_is_last (d : t) : Prop :=
  forall c, m_currentPictureParameters d = Some c -> S c = length (objects d).

(** Every owner of a node is an object of the arena. *)
Definition owners_exist (d : t) : Prop :=
  forall i n o, nodes d !! i = Some n -> m_vkObjectOwner n = Some o ->
    (o < length (objects d))%nat.


(** All of a node but its parent. *)
Definition node_sans_parent (n : StdVideoPictureParametersSet.t) :=
  (m_itemType n, m_data n, m_updateSequenceCount n, m_vkObjectOwner n,
   StdVideoPictureParametersSet.m_videoSession n).

(** Two states with the same graph of nodes and objects. *)
Definition same_graph (d d' : t) : Prop :=
  nodes d' = nodes d /\ objects d' = objects d /\ statics d' = statics d
  /\ m_currentPictureParameters d' = m_currentPictureParameters d
  /\ m_lastPictParamsQueue d' = m_lastPictParamsQueue d.

(** The shape of the graph that every call relies on and keeps. *)
Definition graph_wf (d : t) : Prop :=
  current_is_last d /\ owners_exist d /\ last_seen_wf d /\ ids_increasing d.



(** The owner of every node holds the ids of the node. *)
Definition owners_hold_ids (d : t) : Prop :=
  forall i n o obj, nodes d !! i = Some n -> m_vkObjectOwner n = Some o ->
    objects d !! o = Some obj -> holds_ids obj (queued_ids n).

(** The shape of the graph, with owners that hold the ids of their nodes. *)
Definition owned_wf (d : t) : Prop := graph_wf d /\ owners_hold_ids d.

(** The driver accepts every call. *)
Definition driver_accepts (P : Platform) : Prop :=
  forall k, vkResultOf P k = VK_SUCCESS.

(** The kind of a node agrees with its payload. *)
Definition kind_matches (ty : ItemType) (payload : StdData) : Prop :=
  match ty, payload with
  | SPS_TYPE, (h264Sps _ | h265Sps _ _)
  | PPS_TYPE, (h264Pps _ _ | h265Pps _ _ _)
  | VPS_TYPE, h265Vps _ => True
  | _, _ => False
  end.

(** The id that [PopulateH264UpdateFields] or [PopulateH265UpdateFields]
    reads from the payload of a node, and whether an object has it in the
    set of the node's kind. *)
Definition own_id (n : StdVideoPictureParametersSet.t) : Z :=
  match m_data n with
  | h264Sps seq_parameter_set_id => seq_parameter_set_id
  | h264Pps _ pic_parameter_set_id => pic_parameter_set_id
  | h265Vps vps_video_parameter_set_id => vps_video_parameter_set_id
  | h265Sps _ sps_seq_parameter_set_id => sps_seq_parameter_set_id
  | h265Pps _ _ pps_pic_parameter_set_id => pps_pic_parameter_set_id
  end.

Definition HasOwnId (o : VkParserVideoPictureParameters.t)
    (n : StdVideoPictureParametersSet.t) : bool :=
  match m_itemType n with
  | VPS_TYPE => VkParserVideoPictureParameters.HasVpsId o (own_id n)
  | SPS_TYPE => VkParserVideoPictureParameters.HasSpsId o (own_id n)
  | PPS_TYPE => VkParserVideoPictureParameters.HasPpsId o (own_id n)
  | INVALID_TYPE => false
  end.

(** Some id to mark is beyond the size of its bitset. *)
Definition exceeds_bitset (P : Platform) (ids : Z * Z * Z) : Prop :=
  (0 <= ids.1.1 /\ MAX_VPS_IDS P <= ids.1.1)
  \/ (0 <= ids.1.2 /\ MAX_SPS_IDS P <= ids.1.2)
  \/ (0 <= ids.2 /\ MAX_PPS_IDS P <= ids.2).

(** The members that configure the decoder for a stream. *)
Definition configuration (d : t) :=
  (m_numDecodeSurfaces d, m_maxDecodeFramesCount d, m_videoSession d,
   m_videoFormat d, m_useSeparateOutputImages d, m_useLinearOutput d).

Definition is_sequence_start (op : Op) : bool :=
  match op with
  | OpStartVideoSequence _ _ => true
  | _ => false
  end.

(** From [d] to [d'] no parent has been assigned: the last-seen tables are
    the same, the nodes of [d] have kept their parents, and the nodes added
    since have none. *)
Definition no_parent_assigned (d d' : t) : Prop :=
  m_lastPictParamsQueue d' = m_lastPictParamsQueue d
  /\ m_lastIdInQueue d' = m_lastIdInQueue d
  /\ (length (nodes d) <= length (nodes d'))%nat
  /\ (forall i n, nodes d !! i = Some n ->
      exists n', nodes d' !! i = Some n' /\ m_parent n' = m_parent n)
  /\ (forall i n', nodes d' !! i = Some n' -> (length (nodes d) <= i)%nat ->
      m_parent n' = None).

(** The payloads of the calls of a run satisfy [Ok]. *)
Definition op_ok (Ok : ItemType -> StdData -> Z -> Prop) (op : Op) : Prop :=
  match op with
  | OpUpdatePictureParameters (Some (ty, payload)) updateSequenceCount =>
      Ok ty payload updateSequenceCount
  | _ => True
  end.

End Invariant.

(** ** CopyOptimalToLinearImage *)

Module ImageCopy.

Import VkVideoDecoder.

Definition VK_IMAGE_ASPECT_PLANE_0_BIT : Z := 16.
Definition VK_IMAGE_ASPECT_PLANE_1_BIT : Z := 32.

Module VkImageSubresourceLayers.
Record t := {
  aspectMask : Z;
  mipLevel : Z;
  baseArrayLayer : Z;
  layerCount : Z
}.
End VkImageSubresourceLayers.

Module VkOffset3D.
Record t := { x : Z; y : Z; z : Z }.
End VkOffset3D.

Module VkExtent3D.
Record t := { width : Z; height : Z; depth : Z }.
End VkExtent3D.

Record VkImageCopy := {
  srcSubresource : VkImageSubresourceLayers.t;
  srcOffset : VkOffset3D.t;
  dstSubresource : VkImageSubresourceLayers.t;
  dstOffset : VkOffset3D.t;
  extent : VkExtent3D.t
}.

Module VkVideoPictureResourceInfoKHR.
Record t := { codedExtent : VkExtent2D; baseArrayLayer : Z }.
End VkVideoPictureResourceInfoKHR.

(** What the result of [YcbcrVkFormatInfo] tells about the planes of the
    source format ([planesLayout]). *)
Record VkMpFormatInfo := {
  secondaryPlaneSubsampledX : Z;
  secondaryPlaneSubsampledY : Z
}.

(** One plane of one array layer, at mip level 0. *)
Definition plane (aspect layer : Z) : VkImageSubresourceLayers.t :=
  {| VkImageSubresourceLayers.aspectMask := aspect;
     VkImageSubresourceLayers.mipLevel := 0;
     VkImageSubresourceLayers.baseArrayLayer := layer;
     VkImageSubresourceLayers.layerCount := 1 |}.

(** The offsets stay as [memset] left them. *)
Definition zero_offset : VkOffset3D.t :=
  {| VkOffset3D.x := 0; VkOffset3D.y := 0; VkOffset3D.z := 0 |}.

(** [CopyOptimalToLinearImage]: the [int] result, the regions passed to
    [CmdCopyImage] -- the first two of [copyRegion] -- and the commands
    recorded.  [mpInfo] is what the pointer returned by [YcbcrVkFormatInfo]
    designates, [None] for a null pointer; [extent.width /= 2] is a division
    of a [uint32_t]. *)
Definition CopyOptimalToLinearImage
    (srcPictureResource dstPictureResource : VkVideoPictureResourceInfoKHR.t)
    (mpInfo : option VkMpFormatInfo)
  : Outcome (Z * list VkImageCopy * list Command) :=
  match mpInfo with
  | None => Raised NullDereference
  | Some info =>
      let srcLayer := VkVideoPictureResourceInfoKHR.baseArrayLayer srcPictureResource in
      let dstLayer := VkVideoPictureResourceInfoKHR.baseArrayLayer dstPictureResource in
      let width0 :=
        width (VkVideoPictureResourceInfoKHR.codedExtent srcPictureResource) in
      let height0 :=
        height (VkVideoPictureResourceInfoKHR.codedExtent srcPictureResource) in
      let width1 :=
        if negb (secondaryPlaneSubsampledX info =? 0) then width0 / 2 else width0 in
      let height1 :=
        if negb (secondaryPlaneSubsampledY info =? 0) then height0 / 2 else height0 in
      let copyRegion0 :=
        {| srcSubresource := plane VK_IMAGE_ASPECT_PLANE_0_BIT srcLayer;
           srcOffset := zero_offset;
           dstSubresource := plane VK_IMAGE_ASPECT_PLANE_0_BIT dstLayer;
           dstOffset := zero_offset;
           extent := {| VkExtent3D.width := width0; VkExtent3D.height := height0;
                        VkExtent3D.depth := 1 |} |} in
      let copyRegion1 :=
        {| srcSubresource := plane VK_IMAGE_ASPECT_PLANE_1_BIT srcLayer;
           srcOffset := zero_offset;
           dstSubresource := plane VK_IMAGE_ASPECT_PLANE_1_BIT dstLayer;
           dstOffset := zero_offset;
           extent := {| VkExtent3D.width := width1; VkExtent3D.height := height1;
                        VkExtent3D.depth := 1 |} |} in
      Done (0, [copyRegion0; copyRegion1], [CmdCopyImage 2; CmdPipelineBarrier])
  end.

End ImageCopy.

(** ** Deinitialize and the destructor *)

Module Lifetime.

Import VkVideoDecoder.

Record VulkanDeviceContext := { GetVideoDecodeNumQueues : Z }.

(** The decoder with the members that [Deinitialize] releases. *)
Record t := {
  decoder : VkVideoDecoder.t;
  m_vkDevCtx : option VulkanDeviceContext;
  m_videoFrameBuffer : bool;        (* the shared pointer is not null *)
  m_defaultVideoQueueIndx : Z
}.

(** What [Deinitialize] asks of its collaborators. *)
Inductive Call :=
| DecodeQueueWaitIdle (queueId : Z)   (* MultiThreadedQueueWaitIdle(DECODE, queueId) *)
| DecodeFramesDataDeinit.             (* m_decodeFramesData.deinit() *)

(** [Deinitialize].  The loop runs [queueId] over [0 .. numQueues - 1].
    [m_decodeFramesData.deinit()] is not part of VkVideoDecoder.cpp: the call
    is recorded, and [poolAfterDeinit] is the pool of bitstream buffers that
    it leaves. *)
Definition Deinitialize (this : t) (poolAfterDeinit : list VulkanBitstreamBuffer)
  : t * list Call :=
  match m_vkDevCtx this with
  | None => (this, [])
  | Some ctx =>
      let waits :=
        if 1 <? GetVideoDecodeNumQueues ctx
        then DecodeQueueWaitIdle <$> seqZ 0 (GetVideoDecodeNumQueues ctx)
        else [DecodeQueueWaitIdle (m_defaultVideoQueueIndx this)] in
      ({| decoder := set_m_videoSession None
                       (set_bitstreamBuffersQueue poolAfterDeinit (decoder this));
          m_vkDevCtx := None;
          m_videoFrameBuffer := false;
          m_defaultVideoQueueIndx := m_defaultVideoQueueIndx this |},
       waits ++ [DecodeFramesDataDeinit])
  end.

(** [~VkVideoDecoder()] calls [Deinitialize]. *)
Definition destructor (this : t) (poolAfterDeinit : list VulkanBitstreamBuffer)
  : t * list Call :=
  Deinitialize this poolAfterDeinit.

End Lifetime.

(** * Properties *)

(** ** Machine integers *)

Module MachineIntFacts.

Lemma to_uint32_small z : is_uint32 z -> to_uint32 z = z.
Proof. intros [H0 H1]. unfold to_uint32. now apply Z.mod_small. Qed.

Lemma to_uint32_range z : is_uint32 (to_uint32 z).
Proof. unfold is_uint32, to_uint32, UINT32_MOD. apply Z.mod_pos_bound. lia. Qed.

Lemma to_uint32_add_l a b : to_uint32 (to_uint32 a + b) = to_uint32 (a + b).
Proof. unfold to_uint32. now rewrite Zplus_mod_idemp_l. Qed.

Lemma int_of_uint32_small u : 0 <= u < 2 ^ 31 -> int_of_uint32 u = u.
Proof.
  intros [H0 H1]. unfold int_of_uint32.
  destruct (Z.ltb_spec u (2 ^ 31)); lia.
Qed.

Lemma int_of_uint32_neg u : 2 ^ 31 <= u < UINT32_MOD -> int_of_uint32 u < 0.
Proof.
  unfold int_of_uint32, UINT32_MOD. intros [H0 H1].
  destruct (Z.ltb_spec u (2 ^ 31)); lia.
Qed.

End MachineIntFacts.

(** ** GetVideoCodecString *)

Module CodecStringFacts.

Import CodecString.

(** When neither guarded entry is compiled in, the three codecs of the
    table have the values 0, 1 and 2 of their own indices, so indexing by
    the codec value reads the entry the loop matched. *)
Lemma GetVideoCodecString_h26x codec :
  GetVideoCodecString build_h26x codec = matched_entry_name build_h26x codec.
Proof.
  unfold GetVideoCodecString, matched_entry_name, find_codec. cbn.
  destruct (Z.eqb_spec codec VK_VIDEO_CODEC_OPERATION_NONE_KHR) as [->|H0];
    [reflexivity|].
  destruct (Z.eqb_spec codec VK_VIDEO_CODEC_OPERATION_DECODE_H264_BIT_KHR) as [->|H1];
    [reflexivity|].
  destruct (Z.eqb_spec codec VK_VIDEO_CODEC_OPERATION_DECODE_H265_BIT_KHR) as [->|H2];
    reflexivity.
Qed.

(** With the VP9 entry compiled in, the loop matches VP9 at index 3 whatever
    value the enumerant has, as long as it differs from the three entries
    before it. *)
Lemma find_codec_vp9 cfg v :
  VK_VIDEO_CODEC_OPERATION_DECODE_VP9_BIT_KHR cfg = Some v ->
  3 <= v ->
  find_codec (aCodecName cfg) v = Some 3%nat.
Proof.
  intros Hv Hge. unfold find_codec, aCodecName. rewrite Hv. cbn.
  unfold VK_VIDEO_CODEC_OPERATION_NONE_KHR,
    VK_VIDEO_CODEC_OPERATION_DECODE_H264_BIT_KHR,
    VK_VIDEO_CODEC_OPERATION_DECODE_H265_BIT_KHR.
  destruct (Z.eqb_spec v 0); [lia|].
  destruct (Z.eqb_spec v 1); [lia|].
  destruct (Z.eqb_spec v 2); [lia|].
  now rewrite Z.eqb_refl.
Qed.

Lemma matched_entry_name_vp9 cfg v :
  VK_VIDEO_CODEC_OPERATION_DECODE_VP9_BIT_KHR cfg = Some v ->
  3 <= v ->
  matched_entry_name cfg v = InBounds "VP9".
Proof.
  intros Hv Hge. unfold matched_entry_name.
  rewrite (find_codec_vp9 cfg v Hv Hge).
  unfold aCodecName. rewrite Hv.
  destruct (VK_VIDEO_CODEC_OPERATION_DECODE_AV1_BIT_KHR cfg); reflexivity.
Qed.

Lemma array_read_outside {A} (arr : list A) index :
  Z.of_nat (length arr) <= index -> array_read arr index = OutOfBounds index.
Proof.
  intros Hle. unfold array_read.
  destruct (Z.ltb_spec index (Z.of_nat (length arr))); [lia|].
  now rewrite andb_false_r.
Qed.

(** A flag bit other than those of H.264 and H.265 is at least 4: the VP9
    codec then never gets its own name. *)
Lemma GetVideoCodecString_vp9_wrong cfg v :
  VK_VIDEO_CODEC_OPERATION_DECODE_VP9_BIT_KHR cfg = Some v ->
  4 <= v ->
  GetVideoCodecString cfg v <> matched_entry_name cfg v.
Proof.
  intros Hv Hge.
  rewrite (matched_entry_name_vp9 cfg v Hv) by lia.
  unfold GetVideoCodecString.
  rewrite (find_codec_vp9 cfg v Hv) by lia.
  unfold aCodecName. rewrite Hv.
  destruct (VK_VIDEO_CODEC_OPERATION_DECODE_AV1_BIT_KHR cfg) as [a|].
  - destruct (Z.eq_dec v 4) as [->|Hne].
    + cbn. intros E. inversion E.
    + rewrite array_read_outside by (cbn; lia). intros E. inversion E.
  - rewrite array_read_outside by (cbn; lia). intros E. inversion E.
Qed.

(** C10 (code defect).  In a build that compiles the VP9 entry in, the
    lookup loop of GetVideoCodecString matches the VP9 codec (0x8) at index
    3, whose name is "VP9", but the function reads aCodecName[8], outside the
    table of four (or, with AV1, five) entries; in a build with the AV1
    entry alone the AV1 codec (0x4) is matched at index 3 and the function
    reads aCodecName[4], outside the table of four entries. *)
Theorem GetVideoCodecString_reads_outside_table :
  find_codec (aCodecName build_vp9) 8 = Some 3%nat
  /\ matched_entry_name build_vp9 8 = InBounds "VP9"
  /\ length (aCodecName build_vp9) = 4%nat
  /\ GetVideoCodecString build_vp9 8 = OutOfBounds 8
  /\ GetVideoCodecString build_all 8 = OutOfBounds 8
  /\ GetVideoCodecString
       {| VK_VIDEO_CODEC_OPERATION_DECODE_VP9_BIT_KHR := None;
          VK_VIDEO_CODEC_OPERATION_DECODE_AV1_BIT_KHR := Some 4 |} 4
     = OutOfBounds 4.
Proof. repeat split; reflexivity. Qed.

End CodecStringFacts.

(** ** GetNumDecodeSurfaces *)

Module SurfaceCountFacts.

Import SurfaceCount MachineIntFacts.

Lemma maxDpbSize_spec area : maxDpbSize area = spec_maxDpbSize area.
Proof.
  unfold maxDpbSize, spec_maxDpbSize, maxLumaPS, maxDpbPicBuf.
  change (Z.shiftr 35651584 2) with 8912896.
  change (Z.shiftr 35651584 1) with 17825792.
  change (Z.shiftr (3 * 35651584) 2) with 26738688.
  change (Z.quot (6 * 4) 3) with 8. change (6 * 4 / 3) with 8.
  repeat match goal with
         | |- context [?a <=? ?b] => destruct (Z.leb_spec a b)
         end; lia.
Qed.

Lemma maxDpbSize_values area :
  maxDpbSize area = 24 \/ maxDpbSize area = 12
  \/ maxDpbSize area = 8 \/ maxDpbSize area = 6.
Proof.
  unfold maxDpbSize, maxDpbPicBuf.
  change (Z.quot (6 * 4) 3) with 8.
  repeat match goal with
         | |- context [?a <=? ?b] => destruct (Z.leb_spec a b)
         end; lia.
Qed.


Lemma picSizeInSamplesY_exact w h :
  0 <= w -> 0 <= h -> w * h < 2 ^ 31 -> picSizeInSamplesY w h = w * h.
Proof.
  intros Hw Hh Hlt. unfold picSizeInSamplesY.
  rewrite to_uint32_small by (unfold is_uint32, UINT32_MOD; nia).
  apply int_of_uint32_small. nia.
Qed.

Lemma GetNumDecodeSurfaces_h264 cfg minNum w h :
  is_guarded_codec (VK_VIDEO_CODEC_OPERATION_DECODE_VP9_BIT_KHR cfg)
    VK_VIDEO_CODEC_OPERATION_DECODE_H264_BIT_KHR = false ->
  GetNumDecodeSurfaces cfg VK_VIDEO_CODEC_OPERATION_DECODE_H264_BIT_KHR minNum w h
  = (minNum + 8) mod 2 ^ 32.
Proof.
  intros Hg. unfold GetNumDecodeSurfaces. rewrite Hg. cbn [Z.eqb].
  rewrite to_uint32_add_l. unfold to_uint32, UINT32_MOD. f_equal. lia.
Qed.

Lemma GetNumDecodeSurfaces_h265 cfg minNum w h :
  is_guarded_codec (VK_VIDEO_CODEC_OPERATION_DECODE_VP9_BIT_KHR cfg)
    VK_VIDEO_CODEC_OPERATION_DECODE_H265_BIT_KHR = false ->
  GetNumDecodeSurfaces cfg VK_VIDEO_CODEC_OPERATION_DECODE_H265_BIT_KHR minNum w h
  = Z.min (maxDpbSize (picSizeInSamplesY w h)) 16 + 4.
Proof. intros Hg. unfold GetNumDecodeSurfaces. now rewrite Hg. Qed.

Lemma GetNumDecodeSurfaces_other cfg codec minNum w h :
  is_guarded_codec (VK_VIDEO_CODEC_OPERATION_DECODE_VP9_BIT_KHR cfg) codec = false ->
  codec <> VK_VIDEO_CODEC_OPERATION_DECODE_H264_BIT_KHR ->
  codec <> VK_VIDEO_CODEC_OPERATION_DECODE_H265_BIT_KHR ->
  GetNumDecodeSurfaces cfg codec minNum w h = 8.
Proof.
  intros Hg H4 H5. unfold GetNumDecodeSurfaces. rewrite Hg.
  destruct (Z.eqb_spec codec VK_VIDEO_CODEC_OPERATION_DECODE_H264_BIT_KHR); [easy|].
  destruct (Z.eqb_spec codec VK_VIDEO_CODEC_OPERATION_DECODE_H265_BIT_KHR); easy.
Qed.

(** C1 (as amended).  GetNumDecodeSurfaces is piecewise by codec.  When VP9
    decoding is compiled in, VP9 gets the fixed count 12.  Otherwise: H.264
    gets the minimum plus 4 plus 4 in unsigned 32-bit arithmetic; H.265 gets
    min(maxDpbSize, 16) + 4, where maxDpbSize is maxDpbPicBuf scaled by 4, 2,
    4/3 or 1 as the picture area is at most 1/4, 1/2, 3/4 of maxLumaPS or
    above, the area being the 32-bit product width * height read as an int;
    every other codec gets 8.  Whenever the sum and the product do not
    overflow, this is the number the specification words. *)
Theorem GetNumDecodeSurfaces_piecewise cfg codec minNum w h :
  is_uint32 minNum -> is_uint32 w -> is_uint32 h ->
  (is_guarded_codec (VK_VIDEO_CODEC_OPERATION_DECODE_VP9_BIT_KHR cfg) codec = true ->
   GetNumDecodeSurfaces cfg codec minNum w h = 12)
  /\ (is_guarded_codec (VK_VIDEO_CODEC_OPERATION_DECODE_VP9_BIT_KHR cfg) codec = false ->
      (codec = VK_VIDEO_CODEC_OPERATION_DECODE_H264_BIT_KHR ->
       GetNumDecodeSurfaces cfg codec minNum w h = (minNum + 4 + 4) mod 2 ^ 32)
      /\ (codec = VK_VIDEO_CODEC_OPERATION_DECODE_H265_BIT_KHR ->
          GetNumDecodeSurfaces cfg codec minNum w h
          = Z.min (spec_maxDpbSize (picSizeInSamplesY w h)) 16 + 4)
      /\ (codec <> VK_VIDEO_CODEC_OPERATION_DECODE_H264_BIT_KHR ->
          codec <> VK_VIDEO_CODEC_OPERATION_DECODE_H265_BIT_KHR ->
          GetNumDecodeSurfaces cfg codec minNum w h = 8)
      /\ ((codec = VK_VIDEO_CODEC_OPERATION_DECODE_H264_BIT_KHR ->
           minNum + 4 + 4 < 2 ^ 32) ->
          (codec = VK_VIDEO_CODEC_OPERATION_DECODE_H265_BIT_KHR ->
           w * h < 2 ^ 31) ->
          GetNumDecodeSurfaces cfg codec minNum w h
          = spec_SurfaceCount codec minNum w h)).
Proof.
  intros [Hm0 Hm1] [Hw0 Hw1] [Hh0 Hh1]. split.
  - intros Hg. unfold GetNumDecodeSurfaces. now rewrite Hg.
  - intros Hg. repeat split.
    + intros ->. rewrite GetNumDecodeSurfaces_h264 by exact Hg. f_equal. lia.
    + intros ->. rewrite GetNumDecodeSurfaces_h265 by exact Hg.
      now rewrite maxDpbSize_spec.
    + now apply GetNumDecodeSurfaces_other.
    + intros H4 H5. unfold spec_SurfaceCount.
      destruct (Z.eqb_spec codec VK_VIDEO_CODEC_OPERATION_DECODE_H264_BIT_KHR)
        as [->|N4].
      * rewrite GetNumDecodeSurfaces_h264 by exact Hg.
        specialize (H4 eq_refl). rewrite Z.mod_small; lia.
      * destruct (Z.eqb_spec codec VK_VIDEO_CODEC_OPERATION_DECODE_H265_BIT_KHR)
          as [->|N5].
        -- rewrite GetNumDecodeSurfaces_h265 by exact Hg.
           rewrite picSizeInSamplesY_exact by auto.
           now rewrite maxDpbSize_spec.
        -- now apply GetNumDecodeSurfaces_other.
Qed.

(** Scenarios A and B of the specification. *)
Lemma GetNumDecodeSurfaces_piecewise_witness :
  GetNumDecodeSurfaces build_h26x VK_VIDEO_CODEC_OPERATION_DECODE_H264_BIT_KHR
    4 1920 1080 = 12
  /\ GetNumDecodeSurfaces build_h26x VK_VIDEO_CODEC_OPERATION_DECODE_H265_BIT_KHR
       4 7680 4320 = 10.
Proof.
  assert (U4 : is_uint32 4) by (unfold is_uint32, UINT32_MOD; lia).
  assert (U1920 : is_uint32 1920) by (unfold is_uint32, UINT32_MOD; lia).
  assert (U1080 : is_uint32 1080) by (unfold is_uint32, UINT32_MOD; lia).
  assert (U7680 : is_uint32 7680) by (unfold is_uint32, UINT32_MOD; lia).
  assert (U4320 : is_uint32 4320) by (unfold is_uint32, UINT32_MOD; lia).
  split.
  - destruct (GetNumDecodeSurfaces_piecewise build_h26x
                VK_VIDEO_CODEC_OPERATION_DECODE_H264_BIT_KHR 4 1920 1080
                U4 U1920 U1080) as [_ H].
    destruct (H eq_refl) as (_ & _ & _ & Hs).
    rewrite Hs; [reflexivity | intros _; reflexivity | intros E; discriminate E].
  - destruct (GetNumDecodeSurfaces_piecewise build_h26x
                VK_VIDEO_CODEC_OPERATION_DECODE_H265_BIT_KHR 4 7680 4320
                U4 U7680 U4320) as [_ H].
    destruct (H eq_refl) as (_ & _ & _ & Hs).
    rewrite Hs; [reflexivity | intros E; discriminate E | intros _; reflexivity].
Defined.

(** C1 as stated fails in two places: a 65536 x 32768 H.265 picture has
    2^31 luma samples, more than 3/4 of maxLumaPS, so the stated rule gives
    min(6,16)+4 = 10, while the code reads the 32-bit product as a negative
    int and returns 20; and in a build with VP9 decoding the VP9 codec is not
    H.264 or H.265, so the stated rule gives 8, while the code returns 12. *)
Lemma GetNumDecodeSurfaces_piecewise_counterexample :
  (GetNumDecodeSurfaces build_h26x VK_VIDEO_CODEC_OPERATION_DECODE_H265_BIT_KHR
     4 65536 32768 = 20
   /\ spec_SurfaceCount VK_VIDEO_CODEC_OPERATION_DECODE_H265_BIT_KHR
        4 65536 32768 = 10)
  /\ (GetNumDecodeSurfaces build_vp9 8 4 1920 1080 = 12
      /\ spec_SurfaceCount 8 4 1920 1080 = 8).
Proof. repeat split; reflexivity. Qed.






End SurfaceCountFacts.

(** ** The outcome monad *)

Module OutcomeFacts.

Lemma bind_Done_inv {A B} (m : Outcome A) (k : A -> Outcome B) (r : B) :
  (m ≫= k) = Done r -> exists a, m = Done a /\ k a = Done r.
Proof. destruct m as [a|f]; cbn; intros H; [eauto | discriminate]. Qed.

Lemma bind_Done {A B} (m : Outcome A) (k : A -> Outcome B) (a : A) :
  m = Done a -> (m ≫= k) = k a.
Proof. now intros ->. Qed.

End OutcomeFacts.

Ltac inv_bind H :=
  let a := fresh "a" in
  let Ha := fresh "Ha" in
  apply OutcomeFacts.bind_Done_inv in H; destruct H as (a & Ha & H).

Ltac inv_bind_as H a Ha :=
  apply OutcomeFacts.bind_Done_inv in H; destruct H as (a & Ha & H).

Ltac inv_done H := injection H as H; subst.

(** ** Sequence start *)

Module SequenceFacts.

Import StdVideoPictureParametersSet VkVideoDecoder.

Ltac start_cases :=
  unfold StartVideoSequence;
  repeat match goal with
         | |- context [if ?b then _ else _] => destruct b eqn:?
         | |- context [match m_videoSession ?x with _ => _ end] =>
             destruct (m_videoSession x) eqn:?
         end.






End SequenceFacts.

(** ** The parameter-set graph: what each step leaves alone *)

Module ParameterFacts.

Import StdVideoPictureParametersSet VkVideoDecoder.

Lemma deref_Done {A} (arena : list A) ref a :
  deref arena ref = Done a -> arena !! ref = Some a.
Proof. unfold deref. destruct (arena !! ref); intros H; now inversion H. Qed.

Lemma deref_opt_Done {A} (arena : list A) ref o :
  deref_opt arena ref = Done o ->
  match ref with
  | Some r => exists a, o = Some a /\ arena !! r = Some a
  | None => o = None
  end.
Proof.
  unfold deref_opt. destruct ref as [r|]; intros H.
  - inv_bind H. inversion H; subst. eauto using deref_Done.
  - now inversion H.
Qed.

Lemma set_nodes_eta d : set_nodes (nodes d) d = d.
Proof. now destruct d. Qed.

Lemma alter_node_static f i (l : list StdVideoPictureParametersSet.t) :
  (forall n, node_static (f n) = node_static n) ->
  map node_static (alter f i l) = map node_static l.
Proof.
  intros Hf. revert i. induction l as [|x l IH]; intros [|i]; cbn; try reflexivity.
  - now rewrite Hf.
  - now rewrite IH.
Qed.

Lemma update_node_static f ref d :
  (forall n, node_static (f n) = node_static n) ->
  map node_static (nodes (update_node ref f d)) = map node_static (nodes d).
Proof. intros Hf. unfold update_node. cbn. now apply alter_node_static. Qed.

Lemma keeps_graph_refl d : keeps_graph d d.
Proof. now repeat split. Qed.

Lemma keeps_graph_trans d1 d2 d3 :
  keeps_graph d1 d2 -> keeps_graph d2 d3 -> keeps_graph d1 d3.
Proof.
  intros (A1 & B1 & C1) (A2 & B2 & C2). repeat split; congruence.
Qed.

Lemma keeps_graph_length d d' :
  keeps_graph d d' -> length (nodes d') = length (nodes d).
Proof.
  intros (_ & _ & H). apply (f_equal (@length _)) in H.
  now rewrite !length_map in H.
Qed.

Lemma keeps_graph_parent d d' ref n :
  keeps_graph d d' -> nodes d !! ref = Some n ->
  exists n', nodes d' !! ref = Some n' /\ node_static n' = node_static n.
Proof.
  intros (_ & _ & H) Hn.
  assert (Hm : map node_static (nodes d') !! ref = Some (node_static n)).
  { rewrite H. change map with (@fmap list _). now rewrite list_lookup_fmap, Hn. }
  change map with (@fmap list _) in Hm. rewrite list_lookup_fmap in Hm.
  destruct (nodes d' !! ref) as [n'|]; cbn in Hm; [|discriminate].
  exists n'. split; [reflexivity | congruence].
Qed.

(** [CheckStdObjectAfterUpdate] assigns nothing but the session and the
    owner of the node it is given. *)
Lemma CheckStdObjectAfterUpdate_only_nodes d ref new r d' :
  CheckStdObjectAfterUpdate d ref new = Done (r, d') ->
  d' = set_nodes (nodes d') d
  /\ map node_static (nodes d') = map node_static (nodes d).
Proof.
  unfold CheckStdObjectAfterUpdate. destruct ref as [ref|]; intros H.
  - inv_bind H. destruct new as [new|]; inversion H; subst; clear H.
    + destruct (m_updateSequenceCount a =? 0); split; try reflexivity;
        rewrite ?update_node_static; try reflexivity; intros []; reflexivity.
    + split; [reflexivity|].
      rewrite !update_node_static; try reflexivity; intros []; reflexivity.
  - inversion H; subst. now rewrite set_nodes_eta.
Qed.

Lemma CheckStdObjectAfterUpdate_keeps d ref new r d' :
  CheckStdObjectAfterUpdate d ref new = Done (r, d') -> keeps_graph d d'.
Proof.
  intros H. apply CheckStdObjectAfterUpdate_only_nodes in H as [-> Hs].
  split; [reflexivity | split; [reflexivity | exact Hs]].
Qed.

(** Creating or updating the compiled object assigns nothing but the
    statics, the arena of objects and the current object. *)
Lemma create_or_update_only_objects P d b vps sps pps r d' :
  create_or_update P d b vps sps pps = Done (r, d') ->
  d' = set_m_currentPictureParameters (m_currentPictureParameters d')
         (set_objects (objects d') (set_statics (statics d') d)).
Proof.
  unfold create_or_update. destruct b; intros H.
  - inv_bind H. inv_bind H. destruct a0 as [[o|] st]; inversion H; reflexivity.
  - destruct (m_currentPictureParameters d) as [cur|] eqn:Hcur; [|discriminate].
    inv_bind H. inv_bind H. destruct a0 as [[res this'] st].
    inversion H; subst; clear H. destruct d; cbn in *. now subst.
Qed.

Lemma create_or_update_keeps P d b vps sps pps r d' :
  create_or_update P d b vps sps pps = Done (r, d') -> keeps_graph d d'.
Proof.
  intros H. apply create_or_update_only_objects in H. rewrite H.
  now repeat split.
Qed.

Lemma AddPictureParameters_present_keeps P d vps sps pps r d' :
  AddPictureParameters_present P d vps sps pps = Done (r, d') -> keeps_graph d d'.
Proof.
  unfold AddPictureParameters_present. intros H.
  inv_bind H. inv_bind H. inv_bind H. inv_bind H.
  destruct a2 as [pObj d1]. inv_bind H. destruct a2 as [r2 d2].
  inv_bind H. destruct a2 as [r3 d3]. inv_bind H. destruct a2 as [r4 d4].
  inversion H; subst; clear H.
  repeat match goal with
         | H : create_or_update _ _ _ _ _ _ = Done _ |- _ =>
             apply create_or_update_keeps in H
         | H : CheckStdObjectAfterUpdate _ _ _ = Done _ |- _ =>
             apply CheckStdObjectAfterUpdate_keeps in H
         end.
  eauto 8 using keeps_graph_trans.
Qed.

Lemma AddPictureParameters_keeps P d vps sps pps r d' :
  AddPictureParameters P d vps sps pps = Done (r, d') -> keeps_graph d d'.
Proof.
  unfold AddPictureParameters. intros H.
  destruct pps, sps, vps;
    try (now apply AddPictureParameters_present_keeps in H).
  inversion H; subst. apply keeps_graph_refl.
Qed.

Lemma flush_front_keeps P d ppItem d' :
  flush_front P d ppItem = Done d' -> keeps_graph d d'.
Proof.
  unfold flush_front. intros H. inv_bind H.
  destruct (m_itemType a).
  - inv_bind H. destruct a0. inversion H; subst.
    eauto using AddPictureParameters_keeps.
  - inv_bind H. destruct a0. inversion H; subst.
    eauto using AddPictureParameters_keeps.
  - inv_bind H. destruct a0. inversion H; subst.
    eauto using AddPictureParameters_keeps.
  - inversion H; subst. apply keeps_graph_refl.
Qed.

(** Flushing empties the queue and otherwise keeps the graph. *)
Lemma flush_loop_keeps P queue :
  forall d num r d',
    flush_loop P queue d num = Done (r, d') ->
    outside_parameters d' = outside_parameters d
    /\ map node_static (nodes d') = map node_static (nodes d)
    /\ (m_pictureParametersQueue d = queue -> m_pictureParametersQueue d' = []).
Proof.
  induction queue as [|ppItem rest IH]; intros d num r d' H; cbn in H.
  - inversion H; subst. now repeat split.
  - inv_bind H. apply flush_front_keeps in Ha as (A & B & C).
    apply IH in H as (A' & C' & Q').
    change (outside_parameters (set_m_pictureParametersQueue rest a))
      with (outside_parameters a) in A'.
    change (nodes (set_m_pictureParametersQueue rest a)) with (nodes a) in C'.
    split; [congruence|]. split; [congruence|].
    intros _. now apply Q'.
Qed.

Lemma FlushPictureParametersQueue_keeps P d r d' :
  FlushPictureParametersQueue P d = Done (r, d') ->
  outside_parameters d' = outside_parameters d
  /\ map node_static (nodes d') = map node_static (nodes d)
  /\ m_pictureParametersQueue d' = [].
Proof.
  unfold FlushPictureParametersQueue. intros H.
  apply flush_loop_keeps in H as (A & B & C). auto.
Qed.

(** Flushing an empty queue does nothing and reports zero items. *)
Lemma FlushPictureParametersQueue_empty P d :
  m_pictureParametersQueue d = [] ->
  FlushPictureParametersQueue P d = Done (0, d).
Proof. unfold FlushPictureParametersQueue. now intros ->. Qed.

Lemma link_to_parent_outside ty id ref d :
  outside_parameters (link_to_parent ty id ref d) = outside_parameters d
  /\ m_pictureParametersQueue (link_to_parent ty id ref d) = m_pictureParametersQueue d.
Proof.
  unfold link_to_parent.
  destruct (m_lastPictParamsQueue d ty); [|easy].
  now destruct (id =? m_lastIdInQueue d ty).
Qed.

Lemma link_child_outside ty get id ref d d' :
  link_child ty get id ref d = Done d' ->
  outside_parameters d' = outside_parameters d
  /\ m_pictureParametersQueue d' = m_pictureParametersQueue d.
Proof.
  unfold link_child. destruct (m_lastPictParamsQueue d ty); intros H.
  - inv_bind H. destruct (fst (get a) =? id); now inversion H.
  - now inversion H.
Qed.

(** [UpdatePictureParameters] assigns none of the members outside the
    parameter-set code: in particular not the session, not the reset flag
    and not the last-seen tables [m_lastPictParamsQueue] and
    [m_lastIdInQueue]. *)
Lemma UpdatePictureParameters_outside P d payload count ok ref d' :
  UpdatePictureParameters P d payload count = Done (ok, ref, d') ->
  outside_parameters d' = outside_parameters d.
Proof.
  unfold UpdatePictureParameters. destruct payload as [[ty data]|]; intros H;
    [|now inversion H].
  inv_bind H. destruct a as [d1|]; [|now inversion H].
  assert (Hd1 : outside_parameters d1 = outside_parameters d).
  { destruct ty; cbn in Ha.
    - inv_bind Ha. inversion Ha; subst.
      apply link_child_outside in Ha0 as [E _].
      now rewrite (proj1 (link_to_parent_outside _ _ _ _)), E.
    - inversion Ha; subst. now rewrite (proj1 (link_to_parent_outside _ _ _ _)).
    - inv_bind Ha. inversion Ha; subst.
      now apply link_child_outside in Ha0 as [E _].
    - discriminate. }
  unfold AddPictureParametersToQueue in H. cbn in H.
  inv_bind H. inversion H; subst; clear H.
  destruct (m_videoSession d1) eqn:Hs; cbn in Ha0.
  - destruct (negb _) in Ha0.
    + inv_bind Ha0. destruct a. inversion Ha0; subst.
      apply flush_loop_keeps in Ha1 as (A & _).
      change (outside_parameters (set_m_pictureParametersQueue
                (m_pictureParametersQueue d1 ++ [length (nodes d)]) d1))
        with (outside_parameters d1) in A.
      congruence.
    + inversion Ha0; subst. exact Hd1.
  - inversion Ha0; subst. exact Hd1.
Qed.

End ParameterFacts.

(** ** The hardware reset *)

Module ResetFacts.

Import StdVideoPictureParametersSet VkVideoDecoder ParameterFacts.









End ResetFacts.

(** ** Linking parameter sets: UpdatePictureParameters *)

Module LinkFacts.

Import StdVideoPictureParametersSet VkVideoDecoder ParameterFacts.

Lemma node_static_lookup (l l' : list StdVideoPictureParametersSet.t) i n :
  map node_static l' = map node_static l ->
  l !! i = Some n ->
  exists n', l' !! i = Some n' /\ node_static n' = node_static n.
Proof.
  intros H Hn.
  assert (Hm : map node_static l' !! i = Some (node_static n)).
  { rewrite H. change map with (@fmap list _). now rewrite list_lookup_fmap, Hn. }
  change map with (@fmap list _) in Hm. rewrite list_lookup_fmap in Hm.
  destruct (l' !! i) as [n'|]; cbn in Hm; [|discriminate].
  exists n'. split; [reflexivity | congruence].
Qed.

Lemma node_static_parent n n' : node_static n' = node_static n -> m_parent n' = m_parent n.
Proof. unfold node_static. intros H. now inversion H. Qed.

Lemma outside_last_seen d d' :
  outside_parameters d' = outside_parameters d ->
  m_lastPictParamsQueue d' = m_lastPictParamsQueue d.
Proof. unfold outside_parameters. intros H. now inversion H. Qed.

Lemma relinked_append d node :
  m_parent node = None ->
  relinked d (set_nodes (nodes d ++ [node]) d).
Proof.
  intros Hnode. unfold relinked. cbn [nodes set_nodes]. split; [|split].
  - rewrite length_app. cbn. lia.
  - intros i n Hi. exists n. split; [|now left]. now apply lookup_app_l_Some.
  - exists node. split; [|now left].
    rewrite lookup_app_r by lia. now rewrite Nat.sub_diag.
Qed.

Lemma relinked_link_child ty get id d d0 d' :
  relinked d d0 ->
  outside_parameters d0 = outside_parameters d ->
  last_seen_wf d ->
  link_child ty get id (length (nodes d)) d0 = Done d' ->
  relinked d d' /\ outside_parameters d' = outside_parameters d.
Proof.
  intros (Hlen & Hold & Hnew) Hout Hwf H.
  unfold link_child in H. rewrite (outside_last_seen _ _ Hout) in H.
  destruct (m_lastPictParamsQueue d ty) as [c|] eqn:Hc;
    [|inversion H; subst; now repeat split].
  inv_bind H.
  destruct (fst (get a) =? id); inversion H; subst; clear H;
    [|now repeat split].
  pose proof (Hwf _ _ Hc) as Hlt.
  split; [|exact Hout]. unfold relinked, update_node. cbn [nodes set_nodes].
  split; [|split].
  - now rewrite length_alter.
  - intros i n Hi. destruct (Hold i n Hi) as (n' & Hn' & Hp).
    destruct (decide (i = c)) as [->|Hne].
    + exists (set_m_parent (Some (length (nodes d))) n'). split.
      * now rewrite list_lookup_alter_eq, Hn'.
      * right. split; [reflexivity|]. now exists ty.
    + exists n'. split; [|exact Hp]. now rewrite list_lookup_alter_ne by congruence.
  - destruct Hnew as (n' & Hn' & Hp). exists n'. split; [|exact Hp].
    rewrite list_lookup_alter_ne by lia. exact Hn'.
Qed.

Lemma relinked_link_to_parent ty id d d0 :
  relinked d d0 ->
  outside_parameters d0 = outside_parameters d ->
  relinked d (link_to_parent ty id (length (nodes d)) d0)
  /\ outside_parameters (link_to_parent ty id (length (nodes d)) d0)
     = outside_parameters d.
Proof.
  intros (Hlen & Hold & Hnew) Hout.
  unfold link_to_parent. rewrite (outside_last_seen _ _ Hout).
  destruct (m_lastPictParamsQueue d ty) as [r|] eqn:Hr; [|now repeat split].
  destruct (id =? m_lastIdInQueue d0 ty); [|now repeat split].
  split; [|exact Hout]. unfold relinked, update_node. cbn [nodes set_nodes].
  split; [|split].
  - now rewrite length_alter.
  - intros i n Hi. destruct (Hold i n Hi) as (n' & Hn' & Hp).
    exists n'. split; [|exact Hp].
    apply lookup_lt_Some in Hi. now rewrite list_lookup_alter_ne by lia.
  - destruct Hnew as (n' & Hn' & _).
    exists (set_m_parent (Some r) n'). split.
    + now rewrite list_lookup_alter_eq, Hn'.
    + right. now exists ty, r.
Qed.

Lemma relinked_keeps d d0 d' :
  relinked d d0 ->
  map node_static (nodes d') = map node_static (nodes d0) ->
  relinked d d'.
Proof.
  intros (Hlen & Hold & Hnew) Hs. split; [|split].
  - apply (f_equal (@length _)) in Hs. rewrite !length_map in Hs. congruence.
  - intros i n Hi. destruct (Hold i n Hi) as (n0 & Hn0 & Hp).
    destruct (node_static_lookup _ _ _ _ Hs Hn0) as (n' & Hn' & Hst).
    exists n'. split; [exact Hn'|]. now rewrite (node_static_parent _ _ Hst).
  - destruct Hnew as (n0 & Hn0 & Hp).
    destruct (node_static_lookup _ _ _ _ Hs Hn0) as (n' & Hn' & Hst).
    exists n'. split; [exact Hn'|]. now rewrite (node_static_parent _ _ Hst).
Qed.

(** Every arrival of a valid kind adds one node and relinks as described;
    the last-seen tables are left as they were. *)
Lemma UpdatePictureParameters_relinked P d ty payload count ok ref d' :
  ty <> INVALID_TYPE ->
  last_seen_wf d ->
  UpdatePictureParameters P d (Some (ty, payload)) count = Done (ok, ref, d') ->
  ok = true /\ ref = Some (length (nodes d)) /\ relinked d d'
  /\ outside_parameters d' = outside_parameters d.
Proof.
  intros Hty Hwf H. unfold UpdatePictureParameters in H.
  set (node := Create ty payload count) in *.
  assert (Happ := relinked_append d node eq_refl).
  assert (Hout0 : outside_parameters (set_nodes (nodes d ++ [node]) d)
                  = outside_parameters d) by reflexivity.
  inv_bind H.
  assert (Hlinked : exists d1, a = Some d1 /\ relinked d d1
                               /\ outside_parameters d1 = outside_parameters d).
  { destruct ty; [| | |congruence].
    - inv_bind Ha. inversion Ha; subst; clear Ha.
      destruct (relinked_link_child _ _ _ _ _ _ Happ Hout0 Hwf Ha0) as [R O].
      eexists. split; [reflexivity|]. now apply relinked_link_to_parent.
    - inversion Ha; subst; clear Ha.
      eexists. split; [reflexivity|]. now apply relinked_link_to_parent.
    - inv_bind Ha. inversion Ha; subst; clear Ha.
      destruct (relinked_link_child _ _ _ _ _ _ Happ Hout0 Hwf Ha0) as [R O].
      eexists. split; [reflexivity|]. now split. }
  destruct Hlinked as (d1 & -> & R1 & O1).
  unfold AddPictureParametersToQueue in H. cbv beta iota zeta in H.
  inv_bind_as H d3 Hflush. inversion H; subst; clear H.
  split; [reflexivity|]. split; [reflexivity|].
  set (d2 := set_m_pictureParametersQueue _ d1) in *.
  assert (R2 : relinked d d2) by (apply (relinked_keeps d d1); [exact R1 | reflexivity]).
  assert (O2 : outside_parameters d2 = outside_parameters d) by exact O1.
  destruct (m_videoSession d2); [destruct (negb _)|].
  - inv_bind_as Hflush r Hr. destruct r as [num d4]. inversion Hflush; subst; clear Hflush.
    apply FlushPictureParametersQueue_keeps in Hr as (A & B & _).
    split; [now apply (relinked_keeps d d2)|congruence].
  - inversion Hflush; subst. now split.
  - inversion Hflush; subst. now split.
Qed.

Lemma link_to_parent_nodes ty id ref d :
  link_to_parent ty id ref d = d
  \/ exists r, m_lastPictParamsQueue d ty = Some r
       /\ link_to_parent ty id ref d
          = set_nodes (alter (set_m_parent (Some r)) ref (nodes d)) d.
Proof.
  unfold link_to_parent. destruct (m_lastPictParamsQueue d ty) as [r|]; [|now left].
  destruct (id =? m_lastIdInQueue d ty); [|now left].
  right. now exists r.
Qed.

(** What does hold of the retroactive link: when the last-seen slot of the
    child kind is occupied and that child refers to the id of the arriving
    node, the child's parent becomes the arriving node. *)
Lemma UpdatePictureParameters_backfills P d ty childTy get payload count
    c child ok ref d' :
  (ty = SPS_TYPE /\ childTy = PPS_TYPE /\ get = GetSpsId)
  \/ (ty = VPS_TYPE /\ childTy = SPS_TYPE /\ get = GetVpsId) ->
  m_lastPictParamsQueue d childTy = Some c ->
  nodes d !! c = Some child ->
  fst (get child) = fst (get (Create ty payload count)) ->
  UpdatePictureParameters P d (Some (ty, payload)) count = Done (ok, ref, d') ->
  ref = Some (length (nodes d))
  /\ exists child', nodes d' !! c = Some child'
       /\ m_parent child' = Some (length (nodes d)).
Proof.
  intros Hkind Hc Hchild Hid H. unfold UpdatePictureParameters in H.
  set (node := Create ty payload count) in *.
  pose proof (lookup_lt_Some _ _ _ Hchild) as Hlt.
  inv_bind_as H linked Hlinked.
  assert (Hd1 : exists d1, linked = Some d1
                  /\ exists child', nodes d1 !! c = Some child'
                       /\ m_parent child' = Some (length (nodes d))).
  { assert (Hlink : forall d1,
              link_child childTy get (fst (get node)) (length (nodes d))
                (set_nodes (nodes d ++ [node]) d) = Done d1 ->
              exists child', nodes d1 !! c = Some child'
                /\ m_parent child' = Some (length (nodes d))).
    { intros d1 Hl. unfold link_child in Hl.
      cbn [m_lastPictParamsQueue set_nodes] in Hl. rewrite Hc in Hl.
      unfold deref in Hl. cbn [nodes set_nodes] in Hl.
      rewrite (lookup_app_l_Some _ _ _ _ Hchild) in Hl. cbn in Hl.
      rewrite Hid, Z.eqb_refl in Hl. inversion Hl; subst; clear Hl.
      unfold update_node. cbn [nodes set_nodes].
      exists (set_m_parent (Some (length (nodes d))) child). split; [|reflexivity].
      rewrite list_lookup_alter_eq.
      now rewrite (lookup_app_l_Some _ _ _ _ Hchild). }
    destruct Hkind as [(-> & -> & ->)|(-> & -> & ->)].
    - inv_bind_as Hlinked d1 Hl. inversion Hlinked; subst; clear Hlinked.
      destruct (Hlink d1 Hl) as (child' & Hc' & Hp).
      eexists. split; [reflexivity|]. exists child'. split; [|exact Hp].
      destruct (link_to_parent_nodes VPS_TYPE (fst (GetVpsId node))
                  (length (nodes d)) d1) as [->|(r & _ & ->)]; [exact Hc'|].
      cbn [nodes set_nodes]. now rewrite list_lookup_alter_ne by lia.
    - inv_bind_as Hlinked d1 Hl. inversion Hlinked; subst; clear Hlinked.
      eexists. split; [reflexivity|]. now apply Hlink. }
  destruct Hd1 as (d1 & -> & child' & Hc' & Hp).
  unfold AddPictureParametersToQueue in H. cbv beta iota zeta in H.
  inv_bind_as H d3 Hflush. inversion H; subst; clear H.
  split; [reflexivity|].
  destruct (m_videoSession _); [destruct (negb _)|].
  - inv_bind_as Hflush r Hr. destruct r as [num d4].
    inversion Hflush; subst; clear Hflush.
    apply flush_loop_keeps in Hr as (_ & B & _).
    cbn [nodes set_m_pictureParametersQueue] in B.
    destruct (node_static_lookup _ _ _ _ B Hc') as (n' & Hn' & Hst).
    exists n'. split; [exact Hn'|]. now rewrite (node_static_parent _ _ Hst).
  - inversion Hflush; subst. now exists child'.
  - inversion Hflush; subst. now exists child'.
Qed.

(** But no arrival ever fills a last-seen slot: after a PPS has arrived and
    then an SPS, the last-seen table is what it was before both, and the
    parent of the PPS node is not the SPS node. *)
Lemma pps_before_sps_is_not_relinked P d pps count1 sps count2 ok1 r1 d1 ok2 r2 d2 :
  last_seen_wf d ->
  UpdatePictureParameters P d (Some (PPS_TYPE, pps)) count1 = Done (ok1, r1, d1) ->
  UpdatePictureParameters P d1 (Some (SPS_TYPE, sps)) count2 = Done (ok2, r2, d2) ->
  m_lastPictParamsQueue d2 = m_lastPictParamsQueue d
  /\ exists ppsRef spsRef n,
       r1 = Some ppsRef /\ r2 = Some spsRef
       /\ nodes d2 !! ppsRef = Some n
       /\ m_parent n <> Some spsRef.
Proof.
  intros Hwf H1 H2.
  assert (Hpps : PPS_TYPE <> INVALID_TYPE) by discriminate.
  assert (Hsps : SPS_TYPE <> INVALID_TYPE) by discriminate.
  destruct (UpdatePictureParameters_relinked _ _ _ _ _ _ _ _ Hpps Hwf H1)
    as (_ & -> & (Hlen1 & _ & (n1 & Hn1 & Hp1)) & O1).
  assert (Hwf1 : last_seen_wf d1).
  { intros ty r Hr. rewrite (outside_last_seen _ _ O1) in Hr.
    apply Hwf in Hr. lia. }
  destruct (UpdatePictureParameters_relinked _ _ _ _ _ _ _ _ Hsps Hwf1 H2)
    as (_ & -> & (Hlen2 & Hold2 & _) & O2).
  split; [now rewrite (outside_last_seen _ _ O2), (outside_last_seen _ _ O1)|].
  destruct (Hold2 _ _ Hn1) as (n2 & Hn2 & Hp2).
  exists (length (nodes d)), (length (nodes d1)), n2.
  split; [reflexivity|]. split; [reflexivity|]. split; [exact Hn2|].
  destruct Hp2 as [Hsame|(_ & ty & Hty)].
  - rewrite Hsame. destruct Hp1 as [->|(ty & r & Hr & ->)]; [discriminate|].
    apply Hwf in Hr. intros E. inversion E. lia.
  - rewrite (outside_last_seen _ _ O1) in Hty. apply Hwf in Hty. lia.
Qed.

(** C4 (code defect).  Scenario C on a decoder that has not been used, once
    without a session and once after a sequence start: a PPS that refers to
    SPS 0 arrives, then SPS 0.  Both calls succeed and return the nodes 0
    and 1; afterwards the PPS slot of m_lastPictParamsQueue is still empty
    and the parent of the PPS node is still null, not the SPS node. *)
Theorem scenario_C_parent_is_not_linked :
  (forall resetDecoder,
     match run Examples.platform (fresh false resetDecoder) Examples.pps_then_sps with
     | Done (d, evs) =>
         evs = [EvParameters true; EvParameters true]
         /\ map m_itemType (nodes d) = [PPS_TYPE; SPS_TYPE]
         /\ map m_parent (nodes d) = [None; None]
         /\ m_lastPictParamsQueue d PPS_TYPE = None
     | Raised _ => False
     end)
  /\ (forall resetDecoder,
       match run Examples.platform (fresh false resetDecoder)
               (OpStartVideoSequence Examples.h264_1080p (Examples.answers true false)
                  :: Examples.pps_then_sps) with
       | Done (d, evs) =>
           map m_itemType (nodes d) = [PPS_TYPE; SPS_TYPE]
           /\ map m_parent (nodes d) = [None; None]
           /\ m_lastPictParamsQueue d PPS_TYPE = None
       | Raised _ => False
       end).
Proof. split; intros []; vm_compute; repeat split; reflexivity. Qed.

End LinkFacts.

(** ** Compiled session-parameters objects *)

Module ObjectFacts.

Import StdVideoPictureParametersSet.
Import VkParserVideoPictureParameters.

Lemma mark_id_Done N (bits : gset Z) id bits' :
  mark_id N bits id = Done bits' ->
  bits ⊆ bits' /\ (0 <= id -> id ∈ bits' /\ id < N).
Proof.
  unfold mark_id, bitset_set, bitset.
  destruct (Z.leb_spec 0 id).
  - destruct (Z.ltb_spec id N); intros E; inversion E; subst.
    split; [set_solver|]. intros _. split; [set_solver | lia].
  - intros E; inversion E; subst. split; [set_solver | lia].
Qed.


Lemma mark_ids_Done P ids (v s p v' s' p' : gset Z) :
  mark_ids P ids v s p = Done (v', s', p') ->
  v ⊆ v' /\ s ⊆ s' /\ p ⊆ p'
  /\ (0 <= ids.1.1 -> ids.1.1 ∈ v')
  /\ (0 <= ids.1.2 -> ids.1.2 ∈ s')
  /\ (0 <= ids.2 -> ids.2 ∈ p').
Proof.
  destruct ids as [[iv is_] ip]. unfold mark_ids. intros H.
  inv_bind_as H v1 Hv. inv_bind_as H s1 Hs. inv_bind_as H p1 Hp.
  inversion H; subst; clear H.
  apply mark_id_Done in Hv as [? ?], Hs as [? ?], Hp as [? ?].
  cbn. repeat split; try assumption; intros; tauto.
Qed.


(** A successful [Create]: the driver accepted the call, the new object
    carries the incremented counter, and its id sets extend those of the
    template by the ids of the nodes given. *)
Lemma Create_Done_Some P st sess vps sps pps tmpl o st' :
  Create P st sess vps sps pps tmpl = Done (Some o, st') ->
  vkResultOf P (length (driverCalls st)) = VK_SUCCESS
  /\ m_currentId st < INT32_MAX
  /\ m_Id o = m_currentId st + 1
  /\ m_currentId st' = m_Id o
  /\ length (driverCalls st') = S (length (driverCalls st))
  /\ VkParserVideoPictureParameters.m_videoSession o = sess
  /\ (forall tm, tmpl = Some tm ->
      m_vpsIdsUsed tm ⊆ m_vpsIdsUsed o
      /\ m_spsIdsUsed tm ⊆ m_spsIdsUsed o
      /\ m_ppsIdsUsed tm ⊆ m_ppsIdsUsed o)
  /\ (0 <= (ids_of vps sps pps).1.1 -> (ids_of vps sps pps).1.1 ∈ m_vpsIdsUsed o)
  /\ (0 <= (ids_of vps sps pps).1.2 -> (ids_of vps sps pps).1.2 ∈ m_spsIdsUsed o)
  /\ (0 <= (ids_of vps sps pps).2 -> (ids_of vps sps pps).2 ∈ m_ppsIdsUsed o).
Proof.
  unfold Create, ids_of. intros H.
  inv_bind_as H ut Hut. rewrite Hut. inv_bind_as H u Hu.
  destruct (Z.eqb_spec (vkResultOf P (length (driverCalls st))) VK_SUCCESS)
    as [Hres|Hres]; cbn [negb] in H; [|discriminate].
  destruct tmpl as [tm|].
  - inv_bind_as H sets Hsets. destruct sets as [[v s] p].
    inv_bind_as H newId Hid. inversion H; subst; clear H. cbn.
    unfold next_id in Hid. cbn in Hid.
    destruct (Z.ltb_spec (m_currentId st) INT32_MAX); inversion Hid; subst.
    apply mark_ids_Done in Hsets as (? & ? & ? & ? & ? & ?).
    rewrite length_app. cbn.
    repeat split; try assumption; try lia; try reflexivity.
    all: match goal with E : Some _ = Some _ |- _ => inversion E; subst end;
      assumption.
  - inv_bind_as H sets Hsets. destruct sets as [[v s] p].
    inv_bind_as H newId Hid. inversion H; subst; clear H. cbn.
    unfold next_id in Hid. cbn in Hid.
    destruct (Z.ltb_spec (m_currentId st) INT32_MAX); inversion Hid; subst.
    apply mark_ids_Done in Hsets as (? & ? & ? & ? & ? & ?).
    rewrite length_app. cbn.
    repeat split; try assumption; try lia; try reflexivity; try discriminate.
Qed.

(** A null result of [Create] means that the driver refused the call; the
    counter is not advanced. *)
Lemma Create_Done_None P st sess vps sps pps tmpl st' :
  Create P st sess vps sps pps tmpl = Done (None, st') ->
  vkResultOf P (length (driverCalls st)) <> VK_SUCCESS
  /\ m_currentId st' = m_currentId st.
Proof.
  unfold Create. intros H.
  inv_bind_as H ut Hut. inv_bind_as H u Hu.
  destruct (Z.eqb_spec (vkResultOf P (length (driverCalls st))) VK_SUCCESS)
    as [Hres|Hres]; cbn [negb] in H.
  - destruct (match tmpl with Some _ => _ | None => _ end) as [[v0 s0] p0].
    inv_bind_as H sets Hsets. destruct sets as [[v s] p].
    inv_bind_as H newId Hid. discriminate.
  - inversion H; subst. now split.
Qed.

Lemma Update_Done P st this vps sps pps res this' st' :
  Update P st this vps sps pps = Done (res, this', st') ->
  res = vkResultOf P (length (driverCalls st))
  /\ m_Id this' = m_Id this
  /\ m_currentId st' = m_currentId st
  /\ m_vpsIdsUsed this ⊆ m_vpsIdsUsed this'
  /\ m_spsIdsUsed this ⊆ m_spsIdsUsed this'
  /\ m_ppsIdsUsed this ⊆ m_ppsIdsUsed this'
  /\ (res = VK_SUCCESS ->
      (0 <= (ids_of vps sps pps).1.1 -> (ids_of vps sps pps).1.1 ∈ m_vpsIdsUsed this')
      /\ (0 <= (ids_of vps sps pps).1.2 -> (ids_of vps sps pps).1.2 ∈ m_spsIdsUsed this')
      /\ (0 <= (ids_of vps sps pps).2 -> (ids_of vps sps pps).2 ∈ m_ppsIdsUsed this')).
Proof.
  unfold Update, ids_of. intros H.
  inv_bind_as H ut Hut. rewrite Hut.
  destruct (Z.eqb_spec (vkResultOf P (length (driverCalls st))) VK_SUCCESS)
    as [Hres|Hres].
  - inv_bind_as H sets Hsets. destruct sets as [[v s] p].
    inversion H; subst; clear H. cbn.
    apply mark_ids_Done in Hsets as (? & ? & ? & ? & ? & ?).
    repeat split; try assumption; reflexivity.
  - inversion H; subst; clear H.
    repeat split; try reflexivity; try congruence; set_solver.
Qed.

End ObjectFacts.

(** ** AddPictureParameters: create or update *)

Module AddFacts.

Import StdVideoPictureParametersSet VkVideoDecoder ParameterFacts ObjectFacts.
Module PP := VkParserVideoPictureParameters.

Lemma deref_opt_node_of d ref o :
  deref_opt (nodes d) ref = Done o -> o = node_of d ref.
Proof.
  intros H. apply deref_opt_Done in H. destruct ref as [r|]; cbn.
  - destruct H as (a & -> & Ha). now rewrite Ha.
  - exact H.
Qed.



(** The create path. *)
Lemma create_or_update_create P d nv ns np r d1 :
  create_or_update P d true nv ns np = Done (r, d1) ->
  nodes d1 = nodes d
  /\ ((vkResultOf P (length (PP.driverCalls (statics d))) = VK_SUCCESS
       /\ exists o,
            r = Some (length (objects d))
            /\ objects d1 = objects d ++ [o]
            /\ m_currentPictureParameters d1 = Some (length (objects d))
            /\ PP.m_Id o = PP.m_currentId (statics d) + 1
            /\ PP.m_currentId (statics d1) = PP.m_Id o
            /\ PP.m_videoSession o = m_videoSession d
            /\ (forall c tm, m_currentPictureParameters d = Some c ->
                  objects d !! c = Some tm -> ids_subset tm o)
            /\ (0 <= (PP.ids_of nv ns np).1.1 -> (PP.ids_of nv ns np).1.1 ∈ PP.m_vpsIdsUsed o)
            /\ (0 <= (PP.ids_of nv ns np).1.2 -> (PP.ids_of nv ns np).1.2 ∈ PP.m_spsIdsUsed o)
            /\ (0 <= (PP.ids_of nv ns np).2 -> (PP.ids_of nv ns np).2 ∈ PP.m_ppsIdsUsed o))
      \/ (vkResultOf P (length (PP.driverCalls (statics d))) <> VK_SUCCESS
          /\ r = None /\ objects d1 = objects d
          /\ m_currentPictureParameters d1 = None
          /\ PP.m_currentId (statics d1) = PP.m_currentId (statics d))).
Proof.
  unfold create_or_update. intros H.
  inv_bind_as H tmpl Htmpl. inv_bind_as H res Hres. destruct res as [[o|] st'].
  - inversion H; subst; clear H. split; [reflexivity|]. left.
    apply Create_Done_Some in Hres
      as (Hok & _ & Hid & Hcur & _ & Hsess & Htm & Hv & Hs & Hp).
    split; [exact Hok|]. exists o. cbn.
    repeat split; try assumption; try reflexivity.
    all: apply deref_opt_Done in Htmpl;
      match goal with Hc : m_currentPictureParameters _ = Some _ |- _ =>
        rewrite Hc in Htmpl end;
      destruct Htmpl as (a & -> & Ha);
      assert (a = tm) as -> by congruence;
      now destruct (Htm tm eq_refl) as (? & ? & ?).
  - inversion H; subst; clear H. split; [reflexivity|]. right.
    apply Create_Done_None in Hres as [Hfail Hcur]. cbn. now repeat split.
Qed.

(** The update path. *)
Lemma create_or_update_update P d nv ns np r d1 :
  create_or_update P d false nv ns np = Done (r, d1) ->
  nodes d1 = nodes d /\ r = None
  /\ m_currentPictureParameters d1 = m_currentPictureParameters d
  /\ PP.m_currentId (statics d1) = PP.m_currentId (statics d)
  /\ exists c this this',
       m_currentPictureParameters d = Some c
       /\ objects d !! c = Some this
       /\ objects d1 = <[c := this']> (objects d)
       /\ PP.m_Id this' = PP.m_Id this
       /\ ids_subset this this'
       /\ (vkResultOf P (length (PP.driverCalls (statics d))) = VK_SUCCESS ->
           (0 <= (PP.ids_of nv ns np).1.1 -> (PP.ids_of nv ns np).1.1 ∈ PP.m_vpsIdsUsed this')
           /\ (0 <= (PP.ids_of nv ns np).1.2 -> (PP.ids_of nv ns np).1.2 ∈ PP.m_spsIdsUsed this')
           /\ (0 <= (PP.ids_of nv ns np).2 -> (PP.ids_of nv ns np).2 ∈ PP.m_ppsIdsUsed this')).
Proof.
  unfold create_or_update. intros H.
  destruct (m_currentPictureParameters d) as [c|] eqn:Hc; [|discriminate].
  inv_bind_as H this Hthis. apply deref_Done in Hthis.
  inv_bind_as H res Hres. destruct res as [[code this'] st'].
  inversion H; subst; clear H. cbn.
  apply Update_Done in Hres as (Hcode & Hid & Hcur & Hv & Hs & Hp & Hmarked).
  split; [reflexivity|]. split; [reflexivity|]. split; [cbn; congruence|].
  split; [exact Hcur|].
  exists c, this, this'.
  split; [reflexivity|]. split; [exact Hthis|]. split; [reflexivity|].
  split; [exact Hid|]. split; [now repeat split|].
  intros Hok. apply Hmarked. congruence.
Qed.

(** [CheckStdObjectAfterUpdate] leaves all but the nodes alone and, given a
    new object, makes it the owner of the node. *)
Lemma CheckStdObjectAfterUpdate_owner d ref new r d' :
  CheckStdObjectAfterUpdate d ref (Some new) = Done (r, d') ->
  forall i n, nodes d !! i = Some n ->
    exists n', nodes d' !! i = Some n'
      /\ m_vkObjectOwner n'
         = (if decide (ref = Some i) then Some new else m_vkObjectOwner n).
Proof.
  unfold CheckStdObjectAfterUpdate. destruct ref as [ref|]; intros H i n Hi.
  - inv_bind_as H x Hx. inversion H; subst; clear H.
    unfold update_node. cbn [nodes set_nodes].
    destruct (decide (Some ref = Some i)) as [E|E].
    + inversion E; subst.
      destruct (m_updateSequenceCount x =? 0); cbn [nodes set_nodes];
        rewrite ?list_lookup_alter_eq, Hi; cbn; eauto.
    + assert (ref <> i) by congruence.
      destruct (m_updateSequenceCount x =? 0); cbn [nodes set_nodes];
        rewrite ?list_lookup_alter_ne by assumption; eauto.
  - inversion H; subst. exists n. split; [exact Hi|].
    destruct (decide (None = Some i)); [discriminate | reflexivity].
Qed.

Lemma AddPictureParameters_present_Done P d vps sps pps r d' :
  AddPictureParameters_present P d vps sps pps = Done (r, d') ->
  exists d1,
    create_or_update P d (createNewObject d vps sps pps)
      (node_of d vps) (node_of d sps) (node_of d pps) = Done (r, d1)
    /\ objects d' = objects d1
    /\ statics d' = statics d1
    /\ m_currentPictureParameters d' = m_currentPictureParameters d1
    /\ (forall new, r = Some new ->
        forall i n, nodes d !! i = Some n ->
          (vps = Some i \/ sps = Some i \/ pps = Some i) ->
          exists n', nodes d' !! i = Some n' /\ m_vkObjectOwner n' = Some new).
Proof.
  unfold AddPictureParameters_present. intros H.
  inv_bind_as H nv Hv. inv_bind_as H ns Hs. inv_bind_as H np Hp.
  apply deref_opt_node_of in Hv, Hs, Hp. subst nv ns np.
  fold (createNewObject d vps sps pps) in H.
  inv_bind_as H c1 H1. destruct c1 as [pObj d1].
  inv_bind_as H c2 H2. destruct c2 as [r2 d2].
  inv_bind_as H c3 H3. destruct c3 as [r3 d3].
  inv_bind_as H c4 H4. destruct c4 as [r4 d4].
  inversion H; subst; clear H.
  exists d1. split; [exact H1|].
  pose proof (CheckStdObjectAfterUpdate_only_nodes _ _ _ _ _ H2) as [E2 _].
  pose proof (CheckStdObjectAfterUpdate_only_nodes _ _ _ _ _ H3) as [E3 _].
  pose proof (CheckStdObjectAfterUpdate_only_nodes _ _ _ _ _ H4) as [E4 _].
  split; [rewrite E4, E3, E2; reflexivity|].
  split; [rewrite E4, E3, E2; reflexivity|].
  split; [rewrite E4, E3, E2; reflexivity|].
  intros new -> i n Hi Href.
  assert (Hn1 : nodes d1 !! i = Some n).
  { destruct (createNewObject d vps sps pps).
    - apply create_or_update_create in H1 as [-> _]. exact Hi.
    - apply create_or_update_update in H1 as [-> _]. exact Hi. }
  destruct (CheckStdObjectAfterUpdate_owner _ _ _ _ _ H2 i n Hn1) as (n2 & Hn2 & O2).
  destruct (CheckStdObjectAfterUpdate_owner _ _ _ _ _ H3 i n2 Hn2) as (n3 & Hn3 & O3).
  destruct (CheckStdObjectAfterUpdate_owner _ _ _ _ _ H4 i n3 Hn3) as (n4 & Hn4 & O4).
  exists n4. split; [exact Hn4|].
  rewrite O4, O3, O2.
  destruct (decide (pps = Some i)); [reflexivity|].
  destruct (decide (sps = Some i)); [reflexivity|].
  destruct (decide (vps = Some i)); [reflexivity|]. tauto.
Qed.

Lemma AddPictureParameters_cases P d vps sps pps :
  (vps = None /\ sps = None /\ pps = None
   /\ AddPictureParameters P d vps sps pps = Done (None, d))
  \/ (~ (vps = None /\ sps = None /\ pps = None)
      /\ AddPictureParameters P d vps sps pps
         = AddPictureParameters_present P d vps sps pps).
Proof.
  unfold AddPictureParameters.
  destruct pps, sps, vps; try (right; split; [intros (?&?&?); discriminate | reflexivity]).
  left. now repeat split.
Qed.









Lemma ids_increasing_insert d c this this' :
  ids_increasing d ->
  objects d !! c = Some this ->
  PP.m_Id this' = PP.m_Id this ->
  forall d', objects d' = <[c := this']> (objects d) ->
    PP.m_currentId (statics d') = PP.m_currentId (statics d) ->
    ids_increasing d'.
Proof.
  intros [Hle Hlt] Hthis Hid d' Ho Hc.
  assert (Hget : forall i o, objects d' !! i = Some o ->
                   exists o0, objects d !! i = Some o0 /\ PP.m_Id o = PP.m_Id o0).
  { intros i o Hi. rewrite Ho in Hi.
    destruct (decide (c = i)) as [->|Hne].
    - rewrite list_lookup_insert_eq in Hi by (now apply lookup_lt_Some in Hthis).
      inversion Hi; subst. eauto.
    - rewrite list_lookup_insert_ne in Hi by assumption. eauto. }
  split.
  - intros i o Hi. destruct (Hget i o Hi) as (o0 & H0 & ->). rewrite Hc. eauto.
  - intros i j oi oj Hi Hj Hij.
    destruct (Hget i oi Hi) as (oi0 & Hi0 & ->).
    destruct (Hget j oj Hj) as (oj0 & Hj0 & ->). eauto.
Qed.

Lemma ids_increasing_append d o :
  ids_increasing d ->
  PP.m_Id o = PP.m_currentId (statics d) + 1 ->
  forall d', objects d' = objects d ++ [o] ->
    PP.m_currentId (statics d') = PP.m_Id o ->
    ids_increasing d'.
Proof.
  intros [Hle Hlt] Hid d' Ho Hc.
  assert (Hget : forall i x, objects d' !! i = Some x ->
                   (objects d !! i = Some x /\ (i < length (objects d))%nat)
                   \/ (i = length (objects d) /\ x = o)).
  { intros i x Hi. rewrite Ho in Hi. apply lookup_app_Some in Hi as [Hi|[Hge Hi]].
    - left. split; [exact Hi|]. now apply lookup_lt_Some in Hi.
    - right. destruct (i - length (objects d))%nat as [|k] eqn:Hk; cbn in Hi;
        [|discriminate]. inversion Hi; subst. split; [lia | reflexivity]. }
  split.
  - intros i x Hi. rewrite Hc, Hid.
    destruct (Hget i x Hi) as [[H0 _]|[_ ->]]; [apply Hle in H0; lia | lia].
  - intros i j oi oj Hi Hj Hij.
    destruct (Hget i oi Hi) as [[Hi0 Hil]|[-> ->]];
      destruct (Hget j oj Hj) as [[Hj0 Hjl]|[-> ->]]; try lia.
    + eauto.
    + apply Hle in Hi0. lia.
Qed.

(** What one call does to the identities. *)
Lemma AddPictureParameters_identities P d vps sps pps r d' :
  ids_increasing d ->
  AddPictureParameters P d vps sps pps = Done (r, d') ->
  ids_increasing d'
  /\ forall new, r = Some new ->
       exists o,
         objects d' = objects d ++ [o]
         /\ new = length (objects d)
         /\ PP.m_Id o = PP.m_currentId (statics d) + 1
         /\ (forall i old, objects d !! i = Some old -> PP.m_Id old < PP.m_Id o)
         /\ (forall ref n owner prev,
               vps = Some ref \/ sps = Some ref \/ pps = Some ref ->
               nodes d !! ref = Some n ->
               m_updateSequenceCount n <> 0 ->
               m_vkObjectOwner n = Some owner ->
               objects d !! owner = Some prev ->
               PP.m_Id prev < PP.m_Id o
               /\ exists n', nodes d' !! ref = Some n'
                    /\ m_vkObjectOwner n' = Some new)
         /\ (forall c tm, m_currentPictureParameters d = Some c ->
               objects d !! c = Some tm -> ids_subset tm o).
Proof.
  intros Hwf Hdone.
  destruct (AddPictureParameters_cases P d vps sps pps)
    as [(Ev & Es & Ep & E)|(Hsome & E)]; rewrite E in Hdone.
  - inversion Hdone; subst. split; [exact Hwf | discriminate].
  - apply AddPictureParameters_present_Done in Hdone
      as (d1 & H1 & Hobj & Hst & _ & Hown).
    destruct (createNewObject d vps sps pps).
    + apply create_or_update_create in H1 as (_ & Hcase).
      destruct Hcase as [(_ & o & -> & Ho & _ & Hid & Hc & _ & Htm & _)
                        |(_ & -> & Ho & _ & Hc)].
      * assert (Hwf' : ids_increasing d').
        { apply (ids_increasing_append d o Hwf Hid); congruence. }
        split; [exact Hwf'|]. intros new Hnew. inversion Hnew; subst new.
        exists o. split; [congruence|]. split; [reflexivity|]. split; [exact Hid|].
        assert (Hold : forall i old, objects d !! i = Some old -> PP.m_Id old < PP.m_Id o).
        { intros i old Hi. destruct Hwf as [Hle _]. apply Hle in Hi. lia. }
        split; [exact Hold|]. split; [|exact Htm].
        intros ref n owner prev Href Hn _ _ Hprev.
        split; [now apply (Hold owner)|]. now apply (Hown _ eq_refl ref n).
      * split; [|discriminate].
        destruct Hwf as [Hle Hlt]. split.
        -- intros i o Hi. rewrite Hobj, Ho in Hi. rewrite Hst, Hc. eauto.
        -- intros i j oi oj Hi Hj. rewrite Hobj, Ho in Hi, Hj. eauto.
    + apply create_or_update_update in H1
        as (_ & -> & _ & Hc & c & this & this' & _ & Hthis & Ho & Hid & _).
      split; [|discriminate].
      apply (ids_increasing_insert d c this this' Hwf Hthis Hid); congruence.
Qed.

(** C6.  Let the identities of the objects created so far be at most the
    counter m_currentId and strictly increasing in creation order.  After
    AddPictureParameters they still are; and when the call created an
    object, that object is the last created, its identity is the
    incremented counter and greater than that of every earlier object, so
    identities are never reused; a revised node given to the call is now
    owned by the new object, and the object that owned it before has a
    strictly smaller identity; and the id sets of the template -- the
    previous current object -- are subsets of those of the new object. *)
Theorem identities_strictly_increase P d vps sps pps r d' :
  ids_increasing d ->
  AddPictureParameters P d vps sps pps = Done (r, d') ->
  ids_increasing d'
  /\ forall new, r = Some new ->
       exists o,
         objects d' = objects d ++ [o]
         /\ new = length (objects d)
         /\ PP.m_Id o = PP.m_currentId (statics d) + 1
         /\ (forall i old, objects d !! i = Some old -> PP.m_Id old < PP.m_Id o)
         /\ (forall ref n owner prev,
               vps = Some ref \/ sps = Some ref \/ pps = Some ref ->
               nodes d !! ref = Some n ->
               m_updateSequenceCount n <> 0 ->
               m_vkObjectOwner n = Some owner ->
               objects d !! owner = Some prev ->
               PP.m_Id prev < PP.m_Id o
               /\ exists n', nodes d' !! ref = Some n'
                    /\ m_vkObjectOwner n' = Some new)
         /\ (forall c tm, m_currentPictureParameters d = Some c ->
               objects d !! c = Some tm -> ids_subset tm o).
Proof. apply AddPictureParameters_identities. Qed.


Lemma identities_strictly_increase_witness :
  exists d' o,
    AddPictureParameters Examples.platform Examples.decoder_with_object
      None (Some 0%nat) None = Done (Some 1%nat, d')
    /\ objects d' !! 1%nat = Some o
    /\ PP.m_Id o = 2
    /\ ids_increasing d'.
Proof.
  destruct (AddPictureParameters Examples.platform Examples.decoder_with_object
              None (Some 0%nat) None) as [[r d']|f] eqn:Hdone;
    [|vm_compute in Hdone; discriminate Hdone].
  assert (Hwf : ids_increasing Examples.decoder_with_object).
  { split.
    - intros [|i] o E; cbn in E; inversion E; subst; cbn; lia.
    - intros [|i] [|j] oi oj Ei Ej Hij; cbn in Ei, Ej; try lia; discriminate. }
  destruct (identities_strictly_increase Examples.platform
              Examples.decoder_with_object None (Some 0%nat) None r d' Hwf Hdone)
    as (Hwf' & Hnew).
  assert (Hr : r = Some 1%nat).
  { vm_compute in Hdone. now inversion Hdone. }
  destruct (Hnew 1%nat Hr) as (o & Ho & _ & Hid & _).
  exists d', o. subst r. split; [reflexivity|].
  split; [rewrite Ho; reflexivity|]. split; [exact Hid | exact Hwf'].
Defined.

(** The invariant of C6 holds in every state the decoder reaches. *)
Lemma ids_increasing_same d d' :
  objects d' = objects d -> statics d' = statics d ->
  ids_increasing d -> ids_increasing d'.
Proof. unfold ids_increasing. intros -> ->. tauto. Qed.

Lemma flush_front_ids P d ppItem d' :
  flush_front P d ppItem = Done d' -> ids_increasing d -> ids_increasing d'.
Proof.
  unfold flush_front. intros H Hwf. inv_bind_as H n Hn.
  destruct (m_itemType n).
  - inv_bind_as H res Hres. destruct res. inversion H; subst.
    now apply (AddPictureParameters_identities _ _ _ _ _ _ _ Hwf) in Hres.
  - inv_bind_as H res Hres. destruct res. inversion H; subst.
    now apply (AddPictureParameters_identities _ _ _ _ _ _ _ Hwf) in Hres.
  - inv_bind_as H res Hres. destruct res. inversion H; subst.
    now apply (AddPictureParameters_identities _ _ _ _ _ _ _ Hwf) in Hres.
  - now inversion H; subst.
Qed.

Lemma flush_loop_ids P queue :
  forall d num r d',
    flush_loop P queue d num = Done (r, d') -> ids_increasing d -> ids_increasing d'.
Proof.
  induction queue as [|ppItem rest IH]; intros d num r d' H Hwf; cbn in H.
  - now inversion H; subst.
  - inv_bind_as H d1 H1. apply flush_front_ids in H1; [|exact Hwf].
    eapply IH; [exact H|]. now apply (ids_increasing_same d1).
Qed.

Lemma link_to_parent_objects ty id ref d :
  objects (link_to_parent ty id ref d) = objects d
  /\ statics (link_to_parent ty id ref d) = statics d.
Proof.
  unfold link_to_parent. destruct (m_lastPictParamsQueue d ty); [|easy].
  now destruct (id =? m_lastIdInQueue d ty).
Qed.

Lemma link_child_objects ty get id ref d d' :
  link_child ty get id ref d = Done d' ->
  objects d' = objects d /\ statics d' = statics d.
Proof.
  unfold link_child. destruct (m_lastPictParamsQueue d ty); intros H.
  - inv_bind_as H c Hc. destruct (fst (get c) =? id); now inversion H.
  - now inversion H.
Qed.

Lemma UpdatePictureParameters_ids P d payload count ok ref d' :
  UpdatePictureParameters P d payload count = Done (ok, ref, d') ->
  ids_increasing d -> ids_increasing d'.
Proof.
  unfold UpdatePictureParameters. destruct payload as [[ty data]|]; intros H Hwf;
    [|now inversion H; subst].
  inv_bind_as H linked Hlinked.
  destruct linked as [d1|]; [|inversion H; subst; now apply (ids_increasing_same d)].
  assert (Hd1 : objects d1 = objects d /\ statics d1 = statics d).
  { destruct ty; cbn in Hlinked.
    - inv_bind_as Hlinked x Hx. inversion Hlinked; subst.
      apply link_child_objects in Hx as [E1 E2].
      destruct (link_to_parent_objects VPS_TYPE
                  (fst (GetVpsId (Create SPS_TYPE data count))) (length (nodes d)) x)
        as [E3 E4].
      rewrite E3, E4, E1, E2. now split.
    - inversion Hlinked; subst.
      destruct (link_to_parent_objects SPS_TYPE
                  (fst (GetSpsId (Create PPS_TYPE data count))) (length (nodes d))
                  (set_nodes (nodes d ++ [Create PPS_TYPE data count]) d))
        as [E3 E4].
      rewrite E3, E4. now split.
    - inv_bind_as Hlinked x Hx. inversion Hlinked; subst.
      apply link_child_objects in Hx as [E1 E2]. rewrite E1, E2. now split.
    - discriminate. }
  destruct Hd1 as [E1 E2].
  assert (Hwf1 : ids_increasing d1) by now apply (ids_increasing_same d).
  unfold AddPictureParametersToQueue in H. cbv beta iota zeta in H.
  inv_bind_as H d3 Hflush. inversion H; subst; clear H.
  destruct (m_videoSession _); [destruct (negb _)|].
  - inv_bind_as Hflush res Hres. destruct res. inversion Hflush; subst.
    eapply flush_loop_ids; [exact Hres|]. now apply (ids_increasing_same d1).
  - inversion Hflush; subst. now apply (ids_increasing_same d1).
  - inversion Hflush; subst. now apply (ids_increasing_same d1).
Qed.

Lemma step_ids P d op d' ev :
  step P d op = Done (d', ev) -> ids_increasing d -> ids_increasing d'.
Proof.
  intros H Hwf. destruct op as [fmt env|payload count|params env|size mem len env];
    cbn in H.
  - assert (Hsame : objects (snd (fst (StartVideoSequence P d fmt env))) = objects d
                    /\ statics (snd (fst (StartVideoSequence P d fmt env))) = statics d).
    { SequenceFacts.start_cases; now split. }
    destruct (StartVideoSequence P d fmt env) as [[ret d1] effects].
    inversion H; subst. destruct Hsame. now apply (ids_increasing_same d).
  - inv_bind_as H res Hres. destruct res as [[ok ref] d1]. inversion H; subst.
    now apply UpdatePictureParameters_ids in Hres.
  - inv_bind_as H res Hres. destruct res as [[ret d1] commands]. inversion H; subst.
    unfold DecodePictureWithParameters in Hres.
    destruct (m_videoSession d); [|now inversion Hres; subst].
    inv_bind_as Hres fl Hfl. destruct fl as [num d2].
    inv_bind_as Hres node Hnode. inv_bind_as Hres owner Howner.
    apply flush_loop_ids in Hfl; [|now apply (ids_increasing_same d)].
    destruct (m_resetDecoder d2); inversion Hres; subst;
      [now apply (ids_increasing_same d2) | exact Hfl].
  - inv_bind_as H res Hres. destruct res as [[ret ref] d1]. inversion H; subst.
    unfold GetBitstreamBuffer in Hres.
    destruct (negb (0 <=? GetAvailableNodeFromPool env)).
    + destruct (negb (VulkanBitstreamBufferImpl_Create env =? VK_SUCCESS)).
      * now inversion Hres; subst.
      * inv_bind_as Hres b Hb. inv_bind_as Hres b' Hb'. inversion Hres; subst.
        destruct (_ <? _); now apply (ids_increasing_same d).
    + inv_bind_as Hres b Hb. inv_bind_as Hres b' Hb'. inv_bind_as Hres b2 Hb2.
      inversion Hres; subst. destruct (_ <? _); now apply (ids_increasing_same d).
Qed.

Lemma run_ids P ops :
  forall d d' evs,
    run P d ops = Done (d', evs) -> ids_increasing d -> ids_increasing d'.
Proof.
  induction ops as [|op rest IH]; intros d d' evs H Hwf; cbn in H.
  - now inversion H; subst.
  - inv_bind_as H s1 H1. destruct s1 as [d1 ev].
    inv_bind_as H s2 H2. destruct s2 as [d2 evs']. inversion H; subst.
    eapply IH; [exact H2|]. now apply (step_ids _ _ _ _ _ H1).
Qed.

Lemma fresh_ids useLinearOutput resetDecoder :
  ids_increasing (fresh useLinearOutput resetDecoder).
Proof. split; intros *; cbn; intros E; discriminate E. Qed.

End AddFacts.

(** ** The bitstream buffer pool *)

Module BitstreamFacts.

Import VkVideoDecoder ParameterFacts.

Lemma write_at_prefix (mem data : list Byte.byte) :
  (length data <= length mem)%nat ->
  write_at mem 0 data = data ++ drop (length data) mem.
Proof. intros _. unfold write_at. now rewrite take_0. Qed.

Lemma write_at_fill (mem data : list Byte.byte) (offset : nat) :
  (offset + length data = length mem)%nat ->
  write_at mem offset data = take offset mem ++ data.
Proof.
  intros Hlen. unfold write_at.
  rewrite (drop_ge mem (offset + length data)) by lia. now rewrite app_nil_r.
Qed.

(** Copying the first [copySize] bytes of the caller's memory and zeroing
    the rest of a buffer of maximum size [cap]. *)
Lemma copy_then_clear b (pData : list Byte.byte) (copySize : Z) :
  0 <= copySize <= GetMaxSize b ->
  copySize <= Z.of_nat (length pData) ->
  exists copied,
    CopyDataFromBuffer b pData 0 0 copySize = Done copied
    /\ bufferMemory (MemsetData copied Byte.x00 copySize (GetMaxSize b - copySize))
       = take (Z.to_nat copySize) pData
         ++ replicate (Z.to_nat (GetMaxSize b - copySize)) Byte.x00.
Proof.
  unfold GetMaxSize. intros [H0 Hcap] Hsrc.
  unfold CopyDataFromBuffer, GetMaxSize.
  destruct (Z.ltb_spec (Z.of_nat (length pData)) (0 + copySize)); [lia|].
  destruct (Z.ltb_spec (Z.of_nat (length (bufferMemory b))) (0 + copySize)); [lia|].
  eexists. split; [reflexivity|].
  change (Z.to_nat 0) with 0%nat. rewrite drop_0.
  assert (Hlen : length (take (Z.to_nat copySize) pData) = Z.to_nat copySize)
    by (rewrite length_take; lia).
  rewrite write_at_prefix by (rewrite Hlen; lia). rewrite Hlen.
  unfold MemsetData, GetMaxSize. cbn [bufferMemory].
  assert (Hlen1 : length (take (Z.to_nat copySize) pData
                          ++ drop (Z.to_nat copySize) (bufferMemory b))
                  = length (bufferMemory b)).
  { rewrite length_app, Hlen, length_drop. lia. }
  rewrite Hlen1.
  destruct (Z.ltb_spec (Z.of_nat (length (bufferMemory b)))
              (copySize + (Z.of_nat (length (bufferMemory b)) - copySize))); [lia|].
  cbn [bufferMemory].
  rewrite write_at_fill by (rewrite length_replicate, Hlen1; lia).
  now rewrite take_app_length' by (now rewrite Hlen).
Qed.

(** C7.  When GetBitstreamBuffer is given a free entry of the pool -- and
    the caller's pointer designates at least initializeBufferMemorySize
    bytes -- it returns that entry with its maximum size unchanged, and every
    byte of the entry is the payload byte of the same position where the
    position is below initializeBufferMemorySize, and zero from there up to
    the entry's maximum size: the entry holds the payload followed by zeros,
    and nothing of its previous contents. *)
Theorem GetBitstreamBuffer_reuse_is_zero_padded d size pData initSize env ref b :
  0 <= GetAvailableNodeFromPool env ->
  ref = Z.to_nat (GetAvailableNodeFromPool env) ->
  bitstreamBuffersQueue d !! ref = Some b ->
  0 <= initSize <= Z.of_nat (length pData) ->
  exists d' b',
    GetBitstreamBuffer d size pData initSize env = Done (GetMaxSize b, Some ref, d')
    /\ bitstreamBuffersQueue d' !! ref = Some b'
    /\ GetMaxSize b' = GetMaxSize b
    /\ (initSize <= GetMaxSize b ->
        bufferMemory b'
        = take (Z.to_nat initSize) pData
          ++ replicate (Z.to_nat (GetMaxSize b - initSize)) Byte.x00)
    /\ (forall i, (i < length (bufferMemory b))%nat ->
        bufferMemory b' !! i
        = if decide (Z.of_nat i < initSize) then pData !! i else Some Byte.x00).
Proof.
  intros Havail -> Hb [Hi0 Hi1].
  set (cap := GetMaxSize b). set (copySize := Z.min initSize cap).
  assert (Hcap0 : 0 <= cap) by (unfold cap, GetMaxSize; lia).
  destruct (copy_then_clear b pData copySize) as (copied & Hcopy & Hmem);
    [unfold copySize; fold cap; lia | unfold copySize; lia |].
  fold cap in Hmem.
  set (cleared := MemsetData copied Byte.x00 copySize (cap - copySize)) in *.
  assert (Hlen : length (bufferMemory cleared) = length (bufferMemory b)).
  { rewrite Hmem, length_app, length_take, length_replicate.
    unfold cap, GetMaxSize in *. lia. }
  exists (let d1 := set_bitstreamBuffersQueue
                      (<[Z.to_nat (GetAvailableNodeFromPool env) := cleared]>
                         (bitstreamBuffersQueue d)) d in
          if m_maxStreamBufferSize d1 <? cap
          then set_m_maxStreamBufferSize cap d1 else d1), cleared.
  assert (Hlook : <[Z.to_nat (GetAvailableNodeFromPool env) := cleared]>
                    (bitstreamBuffersQueue d)
                  !! Z.to_nat (GetAvailableNodeFromPool env) = Some cleared).
  { apply list_lookup_insert_eq. now apply lookup_lt_Some in Hb. }
  split; [|split; [|split; [|split]]].
  - assert (Hderef : forall A (arena : list A) r a,
               arena !! r = Some a -> deref arena r = Done a).
    { intros A arena r a E. unfold deref. now rewrite E. }
    unfold GetBitstreamBuffer. cbv zeta.
    destruct (Z.leb_spec 0 (GetAvailableNodeFromPool env)); [|lia].
    cbn [negb]. rewrite (Hderef _ _ _ _ Hb). cbn [mbind outcome_bind].
    fold cap. fold copySize. rewrite Hcopy. cbn [mbind outcome_bind].
    fold cleared. cbn [bitstreamBuffersQueue set_bitstreamBuffersQueue].
    rewrite (Hderef _ _ _ _ Hlook). cbn [mbind outcome_bind].
    f_equal. f_equal. f_equal. unfold GetMaxSize. now rewrite Hlen.
  - cbv zeta. destruct (m_maxStreamBufferSize _ <? cap); exact Hlook.
  - unfold GetMaxSize. now rewrite Hlen.
  - intros Hfit. rewrite Hmem. unfold copySize. now rewrite Z.min_l by lia.
  - intros i Hi. rewrite Hmem.
    assert (Htake : length (take (Z.to_nat copySize) pData) = Z.to_nat copySize)
      by (rewrite length_take; unfold copySize; lia).
    destruct (decide (Z.of_nat i < initSize)) as [Hlt|Hge].
    + rewrite lookup_app_l by (rewrite Htake; unfold copySize, cap, GetMaxSize; lia).
      apply lookup_take_lt. unfold copySize, cap, GetMaxSize. lia.
    + rewrite lookup_app_r by (rewrite Htake; unfold copySize; lia).
      apply lookup_replicate_2. rewrite Htake.
      unfold copySize, cap, GetMaxSize. lia.
Qed.

Lemma GetBitstreamBuffer_reuse_is_zero_padded_witness :
  exists d' b',
    GetBitstreamBuffer Examples.decoder_with_stale_buffer 3 Examples.payload 3
      Examples.pool_offers_entry_0 = Done (8, Some 0%nat, d')
    /\ bitstreamBuffersQueue d' !! 0%nat = Some b'
    /\ bufferMemory b'
       = [Byte.x01; Byte.x02; Byte.x03; Byte.x00; Byte.x00; Byte.x00; Byte.x00;
          Byte.x00].
Proof.
  destruct (GetBitstreamBuffer_reuse_is_zero_padded
              Examples.decoder_with_stale_buffer 3 Examples.payload 3
              Examples.pool_offers_entry_0 0%nat
              {| bufferMemory := replicate 8 Byte.xff |})
    as (d' & b' & Hdone & Hlook & _ & Hmem & _).
  - cbn. lia.
  - reflexivity.
  - reflexivity.
  - cbn. lia.
  - exists d', b'. split; [exact Hdone|]. split; [exact Hlook|].
    rewrite Hmem; [reflexivity | vm_compute; intros E; discriminate E].
Defined.

End BitstreamFacts.

(** ** GetVideoCodecString and GetVideoChromaFormatString: the names *)

Module NameFacts.

Import CodecString ChromaFormatString.

Lemma find_codec_from_unmatched entries i codec :
  Forall (fun e => eCodec e <> codec) entries ->
  find_codec_from entries i codec = None.
Proof.
  intros H. revert i. induction H as [|e rest He _ IH]; intros i; cbn; [reflexivity|].
  destruct (Z.eqb_spec codec (eCodec e)); [congruence | apply IH].
Qed.

Lemma guarded_entry_unmatched guarded n codec :
  is_guarded_codec guarded codec = false ->
  Forall (fun e => eCodec e <> codec) (guarded_entry guarded n).
Proof.
  unfold is_guarded_codec, guarded_entry. destruct guarded as [v|]; intros H.
  - constructor; [|constructor]. cbn. apply Z.eqb_neq in H. congruence.
  - constructor.
Qed.

Lemma array_read_lookup {A} (arr : list A) (i : nat) a :
  arr !! i = Some a -> array_read arr (Z.of_nat i) = InBounds a.
Proof.
  intros Hi. unfold array_read. pose proof (lookup_lt_Some _ _ _ Hi) as Hlt.
  destruct (Z.leb_spec 0 (Z.of_nat i)); [|lia].
  destruct (Z.ltb_spec (Z.of_nat i) (Z.of_nat (length arr))); [|lia].
  cbn [andb]. now rewrite Nat2Z.id, Hi.
Qed.

(** X1.  In every build, whatever values the guarded enumerants have, a
    codec that is none of them is answered correctly: the three entries
    that are always compiled in sit at the indices 0, 1 and 2 that are their
    own codec values, so NONE, H.264 and H.265 get their names, and a codec
    that matches no entry gets "Unknown"; the table is never read outside
    its bounds. *)
Theorem GetVideoCodecString_unguarded cfg codec :
  is_guarded_codec (VK_VIDEO_CODEC_OPERATION_DECODE_VP9_BIT_KHR cfg) codec = false ->
  is_guarded_codec (VK_VIDEO_CODEC_OPERATION_DECODE_AV1_BIT_KHR cfg) codec = false ->
  GetVideoCodecString cfg codec = matched_entry_name cfg codec
  /\ GetVideoCodecString cfg codec
     = InBounds (if codec =? VK_VIDEO_CODEC_OPERATION_NONE_KHR then "None"
                 else if codec =? VK_VIDEO_CODEC_OPERATION_DECODE_H264_BIT_KHR
                      then "AVC/H.264"
                 else if codec =? VK_VIDEO_CODEC_OPERATION_DECODE_H265_BIT_KHR
                      then "H.265/HEVC"
                 else "Unknown").
Proof.
  intros Hvp9 Hav1.
  unfold GetVideoCodecString, matched_entry_name, find_codec, aCodecName.
  cbn [app find_codec_from eCodec].
  destruct (Z.eqb_spec codec VK_VIDEO_CODEC_OPERATION_NONE_KHR) as [->|H0].
  { change VK_VIDEO_CODEC_OPERATION_NONE_KHR with (Z.of_nat 0).
    erewrite array_read_lookup by reflexivity. split; reflexivity. }
  destruct (Z.eqb_spec codec VK_VIDEO_CODEC_OPERATION_DECODE_H264_BIT_KHR) as [->|H1].
  { change VK_VIDEO_CODEC_OPERATION_DECODE_H264_BIT_KHR with (Z.of_nat 1).
    erewrite array_read_lookup by reflexivity. split; reflexivity. }
  destruct (Z.eqb_spec codec VK_VIDEO_CODEC_OPERATION_DECODE_H265_BIT_KHR) as [->|H2].
  { change VK_VIDEO_CODEC_OPERATION_DECODE_H265_BIT_KHR with (Z.of_nat 2).
    erewrite array_read_lookup by reflexivity. split; reflexivity. }
  rewrite find_codec_from_unmatched; [split; reflexivity|].
  apply Forall_app. split; now apply guarded_entry_unmatched.
Qed.

Lemma GetVideoCodecString_unguarded_witness :
  GetVideoCodecString build_all VK_VIDEO_CODEC_OPERATION_DECODE_H265_BIT_KHR
  = InBounds "H.265/HEVC"
  /\ GetVideoCodecString build_all 16 = InBounds "Unknown".
Proof.
  split.
  - exact (proj2 (GetVideoCodecString_unguarded build_all
                    VK_VIDEO_CODEC_OPERATION_DECODE_H265_BIT_KHR eq_refl eq_refl)).
  - exact (proj2 (GetVideoCodecString_unguarded build_all 16 eq_refl eq_refl)).
Defined.

(** X2.  GetVideoChromaFormatString answers every value: exactly the four
    values with a case label get a name other than "Unknown", and these four
    names tell the four formats apart; zero, a combination of two format
    bits, or any other value gets "Unknown". *)
Theorem GetVideoChromaFormatString_names chromaFormat :
  (GetVideoChromaFormatString chromaFormat = "Unknown" <-> ~ has_case_label chromaFormat)
  /\ (forall other,
        has_case_label chromaFormat ->
        GetVideoChromaFormatString other = GetVideoChromaFormatString chromaFormat ->
        other = chromaFormat).
Proof.
  unfold GetVideoChromaFormatString, has_case_label,
    VK_VIDEO_CHROMA_SUBSAMPLING_MONOCHROME_BIT_KHR,
    VK_VIDEO_CHROMA_SUBSAMPLING_420_BIT_KHR,
    VK_VIDEO_CHROMA_SUBSAMPLING_422_BIT_KHR,
    VK_VIDEO_CHROMA_SUBSAMPLING_444_BIT_KHR.
  split.
  - destruct (Z.eqb_spec chromaFormat 1); [split; [discriminate | lia]|].
    destruct (Z.eqb_spec chromaFormat 2); [split; [discriminate | lia]|].
    destruct (Z.eqb_spec chromaFormat 4); [split; [discriminate | lia]|].
    destruct (Z.eqb_spec chromaFormat 8); [split; [discriminate | lia]|].
    split; [lia | reflexivity].
  - intros other Hknown.
    destruct (Z.eqb_spec other 1), (Z.eqb_spec other 2), (Z.eqb_spec other 4),
      (Z.eqb_spec other 8);
      destruct Hknown as [-> | [-> | [-> | ->]]]; cbn; intros E;
      try discriminate E; lia.
Qed.

Lemma GetVideoChromaFormatString_names_witness :
  GetVideoChromaFormatString (Z.lor 2 4) = "Unknown"
  /\ forall other, GetVideoChromaFormatString other = "YCbCr 420" -> other = 2.
Proof.
  split.
  - apply (proj1 (GetVideoChromaFormatString_names (Z.lor 2 4))).
    unfold has_case_label. vm_compute. intros [E | [E | [E | E]]]; discriminate E.
  - intros other.
    apply (proj2 (GetVideoChromaFormatString_names 2) other).
    right. left. reflexivity.
Defined.

End NameFacts.

(** ** GetNumDecodeSurfaces for H.265, and the alignment of the image extent *)

Module ExtentFacts.

Import SurfaceCount MachineIntFacts SurfaceCountFacts.
Import VkVideoDecoder.

Lemma maxDpbSize_antitone a b : a <= b -> maxDpbSize b <= maxDpbSize a.
Proof.
  intros Hab. unfold maxDpbSize, maxLumaPS, maxDpbPicBuf.
  change (Z.shiftr 35651584 2) with 8912896.
  change (Z.shiftr 35651584 1) with 17825792.
  change (Z.shiftr (3 * 35651584) 2) with 26738688.
  change (Z.quot (6 * 4) 3) with 8.
  repeat match goal with
         | |- context [?x <=? ?y] => destruct (Z.leb_spec x y)
         end; lia.
Qed.

(** X3.  For H.265 the surface count does not depend on the minimum the
    stream asks for, takes one of the four values 20, 16, 12 and 10, and
    never grows with the picture: of two pictures whose areas fit a signed
    32-bit integer, the larger one gets at most as many surfaces as the
    smaller one. *)
Theorem GetNumDecodeSurfaces_h265_shrinks cfg minNum w h :
  is_guarded_codec (VK_VIDEO_CODEC_OPERATION_DECODE_VP9_BIT_KHR cfg)
    VK_VIDEO_CODEC_OPERATION_DECODE_H265_BIT_KHR = false ->
  let count := GetNumDecodeSurfaces cfg VK_VIDEO_CODEC_OPERATION_DECODE_H265_BIT_KHR in
  (forall minNum', count minNum' w h = count minNum w h)
  /\ (count minNum w h = 20 \/ count minNum w h = 16
      \/ count minNum w h = 12 \/ count minNum w h = 10)
  /\ (forall w' h',
        0 <= w -> 0 <= h -> 0 <= w' -> 0 <= h' ->
        w * h <= w' * h' -> w' * h' < 2 ^ 31 ->
        count minNum w' h' <= count minNum w h).
Proof.
  intros Hg count. subst count. split; [|split].
  - intros minNum'. now rewrite !GetNumDecodeSurfaces_h265 by exact Hg.
  - rewrite GetNumDecodeSurfaces_h265 by exact Hg.
    destruct (maxDpbSize_values (picSizeInSamplesY w h)) as [E|[E|[E|E]]];
      rewrite E; cbn; tauto.
  - intros w' h' Hw Hh Hw' Hh' Hle Hfit.
    rewrite !GetNumDecodeSurfaces_h265 by exact Hg.
    rewrite (picSizeInSamplesY_exact w h) by (try assumption; lia).
    rewrite (picSizeInSamplesY_exact w' h') by assumption.
    pose proof (maxDpbSize_antitone (w * h) (w' * h') Hle). lia.
Qed.

Lemma GetNumDecodeSurfaces_h265_shrinks_witness :
  GetNumDecodeSurfaces build_h26x VK_VIDEO_CODEC_OPERATION_DECODE_H265_BIT_KHR
    4 7680 4320
  <= GetNumDecodeSurfaces build_h26x VK_VIDEO_CODEC_OPERATION_DECODE_H265_BIT_KHR
       4 1920 1080.
Proof.
  destruct (GetNumDecodeSurfaces_h265_shrinks build_h26x 4 1920 1080 eq_refl)
    as (_ & _ & H).
  apply H; lia.
Defined.

(** The mask [~align] of a power of two, as a [uint32_t]. *)
Lemma land_uint32_lnot_ones y k :
  0 <= k -> 0 <= y < 2 ^ 32 ->
  Z.land y (to_uint32 (Z.lnot (Z.ones k))) = 2 ^ k * (y / 2 ^ k).
Proof.
  intros Hk Hy. unfold to_uint32, UINT32_MOD.
  rewrite <- (Z.land_ones (Z.lnot (Z.ones k)) 32) by lia.
  rewrite (Z.land_comm (Z.lnot (Z.ones k))), Z.land_assoc.
  rewrite (Z.land_ones y 32) by lia. rewrite (Z.mod_small y) by lia.
  rewrite <- Z.ldiff_land, Z.ldiff_ones_r by lia.
  rewrite Z.shiftl_mul_pow2, Z.shiftr_div_pow2 by lia. lia.
Qed.

Lemma align_up_power_of_two x k :
  0 <= k < 32 -> 0 <= x -> x + 2 ^ k - 1 < 2 ^ 32 ->
  align_up x (2 ^ k) = 2 ^ k * ((x + 2 ^ k - 1) / 2 ^ k).
Proof.
  intros Hk Hx Hfit. unfold align_up. cbv zeta.
  assert (Hpow : 0 < 2 ^ k) by (apply Z.pow_pos_nonneg; lia).
  assert (Hle : 2 ^ k < 2 ^ 32) by (apply Z.pow_lt_mono_r; lia).
  rewrite (to_uint32_small (2 ^ k - 1)) by (unfold is_uint32, UINT32_MOD; lia).
  rewrite (to_uint32_small (x + (2 ^ k - 1))) by (unfold is_uint32, UINT32_MOD; lia).
  replace (2 ^ k - 1) with (Z.ones k) by (rewrite Z.ones_equiv; lia).
  rewrite land_uint32_lnot_ones by (rewrite ?Z.ones_equiv; lia).
  rewrite Z.ones_equiv. do 2 f_equal. lia.
Qed.

Lemma align_up_multiple x k :
  0 <= k < 32 -> 0 <= x -> x + 2 ^ k - 1 < 2 ^ 32 ->
  (align_up x (2 ^ k)) mod 2 ^ k = 0
  /\ x <= align_up x (2 ^ k) < x + 2 ^ k.
Proof.
  intros Hk Hx Hfit.
  assert (Hpow : 0 < 2 ^ k) by (apply Z.pow_pos_nonneg; lia).
  rewrite align_up_power_of_two by assumption.
  pose proof (Z.div_mod (x + 2 ^ k - 1) (2 ^ k) ltac:(lia)) as Hdm.
  pose proof (Z.mod_pos_bound (x + 2 ^ k - 1) (2 ^ k) Hpow) as Hmod.
  split; [rewrite Z.mul_comm; apply Z.mod_mul; lia | lia].
Qed.

(** X4.  The image extent is aligned with [(x + align) & ~align].  For a
    granularity that is a power of two, and as long as the sum fits 32 bits,
    this is the least multiple of the granularity that is not below [x].  A
    granularity of zero, which makes [align] all ones, yields zero whatever
    [x] is. *)
Theorem align_up_rounds_up x k :
  0 <= k < 32 -> 0 <= x -> x + 2 ^ k - 1 < 2 ^ 32 ->
  (align_up x (2 ^ k)) mod 2 ^ k = 0
  /\ x <= align_up x (2 ^ k) < x + 2 ^ k
  /\ (forall m, m mod 2 ^ k = 0 -> x <= m -> align_up x (2 ^ k) <= m)
  /\ align_up x 0 = 0.
Proof.
  intros Hk Hx Hfit.
  assert (Hpow : 0 < 2 ^ k) by (apply Z.pow_pos_nonneg; lia).
  destruct (align_up_multiple x k Hk Hx Hfit) as [Hmultiple Hrange].
  split; [exact Hmultiple|]. split; [exact Hrange|]. split.
  - intros m Hm Hxm. rewrite align_up_power_of_two by assumption.
    apply Z.mod_divide in Hm; [|lia]. destruct Hm as (a & ->).
    assert ((x + 2 ^ k - 1) / 2 ^ k < a + 1); [|nia].
    apply Z.div_lt_upper_bound; [lia|]. nia.
  - unfold align_up. cbv zeta.
    change (to_uint32 (0 - 1)) with 4294967295.
    change (to_uint32 (Z.lnot 4294967295)) with 0. apply Z.land_0_r.
Qed.

Lemma align_up_rounds_up_witness :
  align_up 1080 (2 ^ 4) = 1088.
Proof.
  destruct (align_up_rounds_up 1080 4) as (Hmod & Hrange & _); [lia | lia | lia |].
  assert (H16 : 2 ^ 4 = 16) by reflexivity. rewrite H16 in *.
  apply Z.mod_divide in Hmod; [|lia]. destruct Hmod as (a & Ha).
  rewrite Ha in *. lia.
Defined.

End ExtentFacts.

(** ** StartVideoSequence when the three checks pass *)

Module StartFacts.

Import SurfaceCount MachineIntFacts SurfaceCountFacts ExtentFacts.
Import StdVideoPictureParametersSet VkVideoDecoder.











End StartFacts.

(** ** The parameter-set graph: owners, identities and the queue *)

Module GraphFacts.

Import StdVideoPictureParametersSet VkVideoDecoder.
Import ParameterFacts ObjectFacts AddFacts Invariant.

Lemma node_static_queued_ids n n' :
  node_static n' = node_static n -> queued_ids n' = queued_ids n.
Proof.
  unfold node_static. intros E. injection E as Ety Edata _ _.
  unfold queued_ids, PP.ids_of, PP.select_updateType, PP.current_ids, m_updateType,
    PP.PopulateH264UpdateFields, PP.PopulateH265UpdateFields.
  now rewrite Ety, Edata.
Qed.

(** [CheckStdObjectAfterUpdate] makes the new object, or else the current
    one, the owner of the node it is given, and leaves the owners of all other
    nodes alone. *)
Lemma CheckStdObjectAfterUpdate_owner_any d ref new r d' :
  CheckStdObjectAfterUpdate d ref new = Done (r, d') ->
  forall i n, nodes d !! i = Some n ->
    exists n', nodes d' !! i = Some n'
      /\ m_vkObjectOwner n'
         = (if decide (ref = Some i)
            then match new with
                 | Some x => Some x
                 | None => m_currentPictureParameters d
                 end
            else m_vkObjectOwner n).
Proof.
  unfold CheckStdObjectAfterUpdate. destruct ref as [ref|]; intros H i n Hi.
  - inv_bind_as H x Hx.
    destruct (decide (Some ref = Some i)) as [E|E].
    + inversion E; subst.
      destruct new as [new|]; inversion H; subst; clear H;
        unfold update_node; cbn [nodes set_nodes];
        [destruct (m_updateSequenceCount x =? 0); cbn [nodes set_nodes]|];
        rewrite ?list_lookup_alter_eq, Hi; cbn; eauto.
    + assert (ref <> i) by congruence.
      destruct new as [new|]; inversion H; subst; clear H;
        unfold update_node; cbn [nodes set_nodes];
        [destruct (m_updateSequenceCount x =? 0); cbn [nodes set_nodes]|];
        rewrite ?list_lookup_alter_ne by assumption; eauto.
  - inversion H; subst. exists n. split; [exact Hi|].
    destruct (decide (None = Some i)); [discriminate | reflexivity].
Qed.

Lemma CheckStdObjectAfterUpdate_current d ref new r d' :
  CheckStdObjectAfterUpdate d ref new = Done (r, d') ->
  m_currentPictureParameters d' = m_currentPictureParameters d.
Proof.
  intros H. apply CheckStdObjectAfterUpdate_only_nodes in H as [-> _]. reflexivity.
Qed.

(** Whether it created, was refused or updated, [create_or_update] leaves
    the object it returns, or else the current one, as the current object. *)
Lemma create_or_update_current P d b nv ns np r d1 :
  create_or_update P d b nv ns np = Done (r, d1) ->
  match r with
  | Some x => Some x
  | None => m_currentPictureParameters d1
  end = m_currentPictureParameters d1.
Proof.
  intros H. destruct b.
  - apply create_or_update_create in H as (_ & [(_ & o & -> & _ & -> & _)|(_ & -> & _)]);
      reflexivity.
  - apply create_or_update_update in H as (_ & -> & _). reflexivity.
Qed.

(** After [AddPictureParameters] every node given is owned by the current
    object -- by none if a creation was refused -- and no other node has
    changed its owner. *)
Lemma AddPictureParameters_owners P d vps sps pps r d' :
  AddPictureParameters P d vps sps pps = Done (r, d') ->
  forall i n, nodes d !! i = Some n ->
    exists n', nodes d' !! i = Some n'
      /\ node_static n' = node_static n
      /\ m_vkObjectOwner n'
         = (if decide (vps = Some i \/ sps = Some i \/ pps = Some i)
            then m_currentPictureParameters d'
            else m_vkObjectOwner n).
Proof.
  intros Hdone i n Hi.
  pose proof (AddPictureParameters_keeps _ _ _ _ _ _ _ Hdone) as Hkeep.
  destruct (keeps_graph_parent _ _ _ _ Hkeep Hi) as (n' & Hn' & Hstatic).
  exists n'. split; [exact Hn'|]. split; [exact Hstatic|].
  destruct (AddPictureParameters_cases P d vps sps pps)
    as [(-> & -> & -> & E)|(Hsome & E)]; rewrite E in Hdone.
  { inversion Hdone; subst. rewrite Hi in Hn'. inversion Hn'; subst.
    destruct (decide _) as [[H|[H|H]]|_]; [discriminate H.. | reflexivity]. }
  unfold AddPictureParameters_present in Hdone.
  inv_bind_as Hdone nv Hv. inv_bind_as Hdone ns Hs. inv_bind_as Hdone np Hp.
  inv_bind_as Hdone c1 H1. destruct c1 as [pObj d1].
  inv_bind_as Hdone c2 H2. destruct c2 as [r2 d2].
  inv_bind_as Hdone c3 H3. destruct c3 as [r3 d3].
  inv_bind_as Hdone c4 H4. destruct c4 as [r4 d4].
  injection Hdone as <- <-.
  pose proof (create_or_update_current _ _ _ _ _ _ _ _ H1) as Hcur1.
  assert (Hn1 : nodes d1 !! i = Some n).
  { apply create_or_update_only_objects in H1. rewrite H1. exact Hi. }
  pose proof (CheckStdObjectAfterUpdate_current _ _ _ _ _ H2) as C2.
  pose proof (CheckStdObjectAfterUpdate_current _ _ _ _ _ H3) as C3.
  pose proof (CheckStdObjectAfterUpdate_current _ _ _ _ _ H4) as C4.
  destruct (CheckStdObjectAfterUpdate_owner_any _ _ _ _ _ H2 i n Hn1) as (n2 & Hn2 & O2).
  destruct (CheckStdObjectAfterUpdate_owner_any _ _ _ _ _ H3 i n2 Hn2) as (n3 & Hn3 & O3).
  destruct (CheckStdObjectAfterUpdate_owner_any _ _ _ _ _ H4 i n3 Hn3) as (n4 & Hn4 & O4).
  rewrite Hn' in Hn4. inversion Hn4; subst n4.
  rewrite O4, O3, O2. rewrite C3, C2, C4, C3, C2.
  assert (Hown : match pObj with
                 | Some x => Some x
                 | None => m_currentPictureParameters d1
                 end = m_currentPictureParameters d1) by exact Hcur1.
  destruct pObj as [x|];
    repeat match goal with
           | |- context [decide ?p] => destruct (decide p)
           end; try reflexivity; try tauto; try congruence.
Qed.

Lemma Create_calls P st sess vps sps pps tmpl r st' :
  PP.Create P st sess vps sps pps tmpl = Done (r, st') ->
  length (PP.driverCalls st') = S (length (PP.driverCalls st)).
Proof.
  destruct r as [o|]; intros H.
  - now apply Create_Done_Some in H as (_ & _ & _ & _ & E & _).
  - unfold PP.Create in H.
    inv_bind_as H ut Hut. inv_bind_as H u Hu.
    destruct (negb _).
    + inversion H; subst. cbn. rewrite length_app. cbn. lia.
    + destruct (match tmpl with Some _ => _ | None => _ end) as [[v0 s0] p0].
      inv_bind_as H sets Hsets. destruct sets as [[v s] p].
      inv_bind_as H newId Hid. discriminate.
Qed.

Lemma Update_calls P st this vps sps pps r st' :
  PP.Update P st this vps sps pps = Done (r, st') ->
  length (PP.driverCalls st') = S (length (PP.driverCalls st)).
Proof.
  unfold PP.Update. intros H. inv_bind_as H ut Hut.
  destruct (_ =? _).
  - inv_bind_as H sets Hsets. destruct sets as [[v s] p].
    inversion H; subst. cbn. rewrite length_app. cbn. lia.
  - inversion H; subst. cbn. rewrite length_app. cbn. lia.
Qed.

Lemma create_or_update_calls P d b nv ns np r d1 :
  create_or_update P d b nv ns np = Done (r, d1) ->
  length (PP.driverCalls (statics d1)) = S (length (PP.driverCalls (statics d))).
Proof.
  unfold create_or_update. destruct b; intros H.
  - inv_bind_as H tmpl Htmpl. inv_bind_as H res Hres. destruct res as [created st'].
    apply Create_calls in Hres. destruct created; inversion H; subst; exact Hres.
  - destruct (m_currentPictureParameters d) as [cur|]; [|discriminate].
    inv_bind_as H this Hthis. inv_bind_as H res Hres. destruct res as [[code this'] st'].
    apply Update_calls in Hres. inversion H; subst. exact Hres.
Qed.

(** What one call of [AddPictureParameters] does to the objects: nothing
    when no node is given; otherwise it makes one call to the driver and
    either appends a new object that becomes current, or is refused and
    leaves no current object, or updates the current object in place. *)
Lemma AddPictureParameters_objects P d vps sps pps r d' :
  AddPictureParameters P d vps sps pps = Done (r, d') ->
  let accepted := vkResultOf P (length (PP.driverCalls (statics d))) = VK_SUCCESS in
  let ids := PP.ids_of (node_of d vps) (node_of d sps) (node_of d pps) in
  (vps = None /\ sps = None /\ pps = None /\ r = None /\ d' = d)
  \/ (~ (vps = None /\ sps = None /\ pps = None)
      /\ length (PP.driverCalls (statics d')) = S (length (PP.driverCalls (statics d)))
      /\ ((accepted
           /\ exists o,
                r = Some (length (objects d))
                /\ objects d' = objects d ++ [o]
                /\ m_currentPictureParameters d' = Some (length (objects d))
                /\ PP.m_Id o = PP.m_currentId (statics d) + 1
                /\ PP.m_currentId (statics d') = PP.m_Id o
                /\ holds_ids o ids)
          \/ (~ accepted
              /\ r = None /\ objects d' = objects d
              /\ m_currentPictureParameters d' = None
              /\ PP.m_currentId (statics d') = PP.m_currentId (statics d))
          \/ (r = None
              /\ exists c this this',
                   m_currentPictureParameters d = Some c
                   /\ m_currentPictureParameters d' = Some c
                   /\ objects d !! c = Some this
                   /\ objects d' = <[c := this']> (objects d)
                   /\ PP.m_Id this' = PP.m_Id this
                   /\ ids_subset this this'
                   /\ PP.m_currentId (statics d') = PP.m_currentId (statics d)
                   /\ (accepted -> holds_ids this' ids)))).
Proof.
  intros Hdone accepted ids.
  destruct (AddPictureParameters_cases P d vps sps pps)
    as [(Ev & Es & Ep & E)|(Hsome & E)]; rewrite E in Hdone.
  { left. inversion Hdone; subst. now repeat split. }
  right. split; [exact Hsome|].
  apply AddPictureParameters_present_Done in Hdone
    as (d1 & H1 & Hobj & Hst & Hcur & _).
  pose proof (create_or_update_calls _ _ _ _ _ _ _ _ H1) as Hcalls.
  rewrite Hst. split; [exact Hcalls|]. rewrite Hobj, Hcur.
  destruct (createNewObject d vps sps pps).
  - apply create_or_update_create in H1 as (_ & Hcase).
    destruct Hcase as [(Hok & o & -> & Ho & Hc & Hid & Hctr & _ & _ & Hv & Hs & Hp)
                      |(Hno & -> & Ho & Hc & Hctr)].
    + left. split; [exact Hok|]. exists o. now repeat split.
    + right. left. now repeat split.
  - apply create_or_update_update in H1
      as (_ & -> & Hc' & Hctr & c & this & this' & Hc & Hthis & Ho & Hid & Hsub & Hmark).
    right. right. split; [reflexivity|]. exists c, this, this'.
    split; [exact Hc|]. split; [congruence|]. split; [exact Hthis|].
    split; [exact Ho|]. split; [exact Hid|]. split; [exact Hsub|].
    split; [exact Hctr|]. exact Hmark.
Qed.

End GraphFacts.

(** ** Invariants of the runs of the decoder *)

Module ReachFacts.

Import StdVideoPictureParametersSet VkVideoDecoder.
Import ParameterFacts ObjectFacts AddFacts Invariant GraphFacts.

Lemma map_eq_lookup {A B} (g : A -> B) (l l' : list A) i a :
  map g l' = map g l -> l !! i = Some a ->
  exists a', l' !! i = Some a' /\ g a' = g a.
Proof.
  intros H Ha.
  assert (Hm : map g l' !! i = Some (g a)).
  { rewrite H. change map with (@fmap list _). now rewrite list_lookup_fmap, Ha. }
  change map with (@fmap list _) in Hm. rewrite list_lookup_fmap in Hm.
  destruct (l' !! i) as [a'|]; cbn in Hm; [|discriminate].
  exists a'. split; [reflexivity | congruence].
Qed.

Lemma map_eq_length {A B} (g : A -> B) (l l' : list A) :
  map g l' = map g l -> length l' = length l.
Proof. intros H. apply (f_equal (@length _)) in H. now rewrite !length_map in H. Qed.

Lemma alter_map_invariant {A B} (g : A -> B) (f : A -> A) i (l : list A) :
  (forall a, g (f a) = g a) -> map g (alter f i l) = map g l.
Proof.
  intros Hf. revert i. induction l as [|x l IH]; intros [|i]; cbn; try reflexivity.
  - now rewrite Hf.
  - now rewrite IH.
Qed.

(** Linking assigns parents only. *)
Lemma link_to_parent_sans_parent ty id ref d :
  exists ns, link_to_parent ty id ref d = set_nodes ns d
    /\ map node_sans_parent ns = map node_sans_parent (nodes d).
Proof.
  unfold link_to_parent.
  destruct (m_lastPictParamsQueue d ty);
    [destruct (id =? m_lastIdInQueue d ty)|].
  - eexists. split; [reflexivity|]. now apply alter_map_invariant.
  - exists (nodes d). now rewrite set_nodes_eta.
  - exists (nodes d). now rewrite set_nodes_eta.
Qed.

Lemma link_child_sans_parent ty get id ref d d' :
  link_child ty get id ref d = Done d' ->
  exists ns, d' = set_nodes ns d
    /\ map node_sans_parent ns = map node_sans_parent (nodes d).
Proof.
  unfold link_child. destruct (m_lastPictParamsQueue d ty); intros H.
  - inv_bind_as H c Hc. destruct (fst (get c) =? id); injection H as <-.
    + eexists. split; [reflexivity|]. now apply alter_map_invariant.
    + exists (nodes d). now rewrite set_nodes_eta.
  - injection H as <-. exists (nodes d). now rewrite set_nodes_eta.
Qed.

(** The stages of [UpdatePictureParameters]: the new node is appended and
    parents are assigned; a node of a valid kind is then queued, and the
    queue is flushed if the decoder has a session. *)
Lemma UpdatePictureParameters_stages P d ty data count ok ref d' :
  UpdatePictureParameters P d (Some (ty, data)) count = Done (ok, ref, d') ->
  exists ns,
    map node_sans_parent ns
    = map node_sans_parent (nodes d ++ [Create ty data count])
    /\ ((ty = INVALID_TYPE /\ ok = false /\ ref = None /\ d' = set_nodes ns d)
        \/ (ty <> INVALID_TYPE /\ ok = true /\ ref = Some (length (nodes d))
            /\ let d2 := set_m_pictureParametersQueue
                           (m_pictureParametersQueue d ++ [length (nodes d)])
                           (set_nodes ns d) in
               match m_videoSession d with
               | Some _ => exists num, FlushPictureParametersQueue P d2 = Done (num, d')
               | None => d' = d2
               end)).
Proof.
  unfold UpdatePictureParameters. intros H.
  set (d0 := set_nodes (nodes d ++ [Create ty data count]) d) in *.
  inv_bind_as H linked Hlinked.
  assert (Hd1 : match linked with
                | Some d1 => ty <> INVALID_TYPE
                             /\ exists ns, d1 = set_nodes ns d
                                  /\ map node_sans_parent ns
                                     = map node_sans_parent (nodes d ++ [Create ty data count])
                | None => ty = INVALID_TYPE
                end).
  { destruct ty; cbn in Hlinked.
    - inv_bind_as Hlinked x Hx. inversion Hlinked; subst. split; [discriminate|].
      apply link_child_sans_parent in Hx as (ns1 & -> & E1).
      destruct (link_to_parent_sans_parent VPS_TYPE
                  (fst (GetVpsId (Create SPS_TYPE data count))) (length (nodes d))
                  (set_nodes ns1 d0)) as (ns2 & -> & E2).
      exists ns2. split; [reflexivity|].
      rewrite E2. cbn [nodes set_nodes]. rewrite E1. reflexivity.
    - inversion Hlinked; subst. split; [discriminate|].
      destruct (link_to_parent_sans_parent SPS_TYPE
                  (fst (GetSpsId (Create PPS_TYPE data count))) (length (nodes d)) d0)
        as (ns2 & -> & E2).
      exists ns2. split; [reflexivity|]. exact E2.
    - inv_bind_as Hlinked x Hx. inversion Hlinked; subst. split; [discriminate|].
      apply link_child_sans_parent in Hx as (ns1 & -> & E1).
      exists ns1. split; [reflexivity|]. exact E1.
    - inversion Hlinked; subst. reflexivity. }
  destruct linked as [d1|].
  - destruct Hd1 as (Hty & ns & -> & Ens). exists ns. split; [exact Ens|]. right.
    unfold AddPictureParametersToQueue in H. cbv beta iota zeta in H.
    inv_bind_as H d3 Hflush. inversion H; subst; clear H.
    split; [exact Hty|]. split; [reflexivity|]. split; [reflexivity|].
    cbv zeta. cbn [m_videoSession set_m_pictureParametersQueue set_nodes] in Hflush.
    destruct (m_videoSession d) as [s|].
    + assert (Hmask : negb (Z.shiftl 1 (ItemType_value ty) =? 0) = true)
        by (destruct ty; [reflexivity.. | contradiction]).
      rewrite Hmask in Hflush.
      inv_bind_as Hflush res Hres. destruct res as [num d4].
      inversion Hflush; subst. exists num. exact Hres.
    + now inversion Hflush.
  - subst ty. inversion H; subst. exists (nodes d ++ [Create INVALID_TYPE data count]).
    split; [reflexivity|]. left. now repeat split.
Qed.

(** The call that [FlushPictureParametersQueue] makes for the front item. *)
Lemma flush_front_call P d ppItem d' :
  flush_front P d ppItem = Done d' ->
  exists n,
    nodes d !! ppItem = Some n
    /\ ((m_itemType n = INVALID_TYPE /\ d' = d)
        \/ exists vps sps pps r,
             AddPictureParameters P d vps sps pps = Done (r, d')
             /\ (forall i, vps = Some i \/ sps = Some i \/ pps = Some i <-> i = ppItem)
             /\ PP.ids_of (node_of d vps) (node_of d sps) (node_of d pps) = queued_ids n
             /\ m_itemType n <> INVALID_TYPE).
Proof.
  unfold flush_front. intros H. inv_bind_as H n Hn. apply deref_Done in Hn.
  exists n. split; [exact Hn|].
  assert (Hone : forall i : nat,
             (None = Some i \/ None = Some i \/ Some ppItem = Some i <-> i = ppItem)
             /\ (None = Some i \/ Some ppItem = Some i \/ None = Some i <-> i = ppItem)
             /\ (Some ppItem = Some i \/ None = Some i \/ None = Some i <-> i = ppItem)).
  { intros i. repeat split; intros; subst;
      repeat match goal with H : _ \/ _ |- _ => destruct H end;
      try discriminate; try congruence; tauto. }
  unfold queued_ids. destruct (m_itemType n) eqn:Hty.
  - inv_bind_as H res Hres. destruct res as [r d1]. inversion H; subst.
    right. exists None, (Some ppItem), None, r. split; [exact Hres|].
    split; [intros i; apply Hone|]. cbn. rewrite Hn. now split.
  - inv_bind_as H res Hres. destruct res as [r d1]. inversion H; subst.
    right. exists None, None, (Some ppItem), r. split; [exact Hres|].
    split; [intros i; apply Hone|]. cbn. rewrite Hn. now split.
  - inv_bind_as H res Hres. destruct res as [r d1]. inversion H; subst.
    right. exists (Some ppItem), None, None, r. split; [exact Hres|].
    split; [intros i; apply Hone|]. cbn. rewrite Hn. now split.
  - inversion H; subst. left. now split.
Qed.

(** *** Preservation along runs

    A property of the graph that survives the arrival of a node whose payload
    satisfies [Ok], and the compilation of a queued node, holds after every
    run whose payloads satisfy [Ok]. *)
Section Preservation.

Variable P : Platform.
Variable I : VkVideoDecoder.t -> Prop.
Variable Ok : ItemType -> StdData -> Z -> Prop.

Hypothesis I_frame : forall d d', same_graph d d' -> I d -> I d'.

Hypothesis I_arrive : forall d ty data count ns,
  map node_sans_parent ns = map node_sans_parent (nodes d ++ [Create ty data count]) ->
  Ok ty data count -> I d -> I (set_nodes ns d).

Hypothesis I_compile : forall d ppItem d',
  flush_front P d ppItem = Done d' -> I d -> I d'.

Lemma flush_loop_preserves queue :
  forall d num r d', flush_loop P queue d num = Done (r, d') -> I d -> I d'.
Proof.
  induction queue as [|ppItem rest IH]; intros d num r d' H Hd; cbn in H.
  - now inversion H; subst.
  - inv_bind_as H d1 H1. apply I_compile in H1; [|exact Hd].
    eapply IH; [exact H|]. apply (I_frame d1); [now repeat split | exact H1].
Qed.

Lemma UpdatePictureParameters_preserves d payload count ok ref d' :
  UpdatePictureParameters P d payload count = Done (ok, ref, d') ->
  op_ok Ok (OpUpdatePictureParameters payload count) ->
  I d -> I d'.
Proof.
  destruct payload as [[ty data]|]; intros H Hok Hd.
  2:{ cbn in H. now inversion H; subst. }
  cbn in Hok.
  apply UpdatePictureParameters_stages in H as (ns & Ens & Hcase).
  pose proof (I_arrive d ty data count ns Ens Hok Hd) as H1.
  destruct Hcase as [(_ & _ & _ & ->)|(_ & _ & _ & Hd')]; [exact H1|].
  cbv zeta in Hd'.
  assert (H2 : I (set_m_pictureParametersQueue
                    (m_pictureParametersQueue d ++ [length (nodes d)]) (set_nodes ns d))).
  { apply (I_frame (set_nodes ns d)); [now repeat split | exact H1]. }
  destruct (m_videoSession d).
  - destruct Hd' as (num & Hflush). unfold FlushPictureParametersQueue in Hflush.
    eapply flush_loop_preserves; [exact Hflush | exact H2].
  - now subst d'.
Qed.

Lemma DecodePictureWithParameters_preserves d params env ret d' commands :
  DecodePictureWithParameters P d params env = Done (ret, d', commands) ->
  I d -> I d'.
Proof.
  unfold DecodePictureWithParameters. intros H Hd.
  destruct (m_videoSession d); [|now inversion H; subst].
  inv_bind_as H fl Hfl. destruct fl as [num d2].
  inv_bind_as H node Hnode. inv_bind_as H owner Howner.
  unfold FlushPictureParametersQueue in Hfl.
  apply flush_loop_preserves in Hfl;
    [|apply (I_frame d); [now repeat split | exact Hd]].
  destruct (m_resetDecoder d2); inversion H; subst; [|exact Hfl].
  apply (I_frame d2); [now repeat split | exact Hfl].
Qed.

Lemma step_preserves d op d' ev :
  step P d op = Done (d', ev) -> op_ok Ok op -> I d -> I d'.
Proof.
  intros H Hok Hd. destruct op as [fmt env|payload count|params env|size mem len env];
    cbn in H.
  - assert (Hsame : same_graph d (snd (fst (StartVideoSequence P d fmt env)))).
    { SequenceFacts.start_cases; now repeat split. }
    destruct (StartVideoSequence P d fmt env) as [[ret d1] effects].
    inversion H; subst. exact (I_frame _ _ Hsame Hd).
  - inv_bind_as H res Hres. destruct res as [[ok ref] d1]. inversion H; subst.
    eapply UpdatePictureParameters_preserves; eassumption.
  - inv_bind_as H res Hres. destruct res as [[ret d1] commands]. inversion H; subst.
    eapply DecodePictureWithParameters_preserves; eassumption.
  - inv_bind_as H res Hres. destruct res as [[ret ref] d1]. inversion H; subst.
    unfold GetBitstreamBuffer in Hres.
    destruct (negb (0 <=? GetAvailableNodeFromPool env)).
    + destruct (negb (VulkanBitstreamBufferImpl_Create env =? VK_SUCCESS)).
      * now inversion Hres; subst.
      * inv_bind_as Hres b Hb. inv_bind_as Hres b' Hb'. inversion Hres; subst.
        destruct (_ <? _); (apply (I_frame d); [now repeat split | exact Hd]).
    + inv_bind_as Hres b Hb. inv_bind_as Hres b' Hb'. inv_bind_as Hres b2 Hb2.
      inversion Hres; subst.
      destruct (_ <? _); (apply (I_frame d); [now repeat split | exact Hd]).
Qed.

Lemma run_preserves ops :
  forall d d' evs,
    run P d ops = Done (d', evs) -> Forall (op_ok Ok) ops -> I d -> I d'.
Proof.
  induction ops as [|op rest IH]; intros d d' evs H Hok Hd; cbn in H.
  - now inversion H; subst.
  - inv_bind_as H s1 H1. destruct s1 as [d1 ev].
    inv_bind_as H s2 H2. destruct s2 as [d2 evs']. inversion H; subst.
    apply Forall_cons in Hok as [Hop Hrest].
    eapply IH; [exact H2 | exact Hrest|]. eapply step_preserves; eassumption.
Qed.

End Preservation.

(** *** The shape of the graph *)

Lemma graph_wf_frame d d' : same_graph d d' -> graph_wf d -> graph_wf d'.
Proof.
  intros (En & Eo & Es & Ec & El) (Hc & Ho & Hl & Hi).
  unfold graph_wf, current_is_last, owners_exist, last_seen_wf, ids_increasing.
  rewrite En, Eo, Es, Ec, El.
  split; [exact Hc|]. split; [exact Ho|]. split; [exact Hl | exact Hi].
Qed.

Lemma arrive_lookup d ty data count ns i n' :
  map node_sans_parent ns = map node_sans_parent (nodes d ++ [Create ty data count]) ->
  ns !! i = Some n' ->
  (exists n, nodes d !! i = Some n /\ node_sans_parent n' = node_sans_parent n)
  \/ (i = length (nodes d)
      /\ node_sans_parent n' = node_sans_parent (Create ty data count)).
Proof.
  intros Ens Hi. symmetry in Ens.
  destruct (map_eq_lookup _ _ _ _ _ Ens Hi) as (a & Ha & Ea).
  apply lookup_app_Some in Ha as [Ha|[Hge Ha]].
  - left. exists a. split; [exact Ha | congruence].
  - right. destruct (i - length (nodes d))%nat as [|k] eqn:Hk; cbn in Ha; [|discriminate].
    inversion Ha; subst. split; [lia | congruence].
Qed.

Lemma arrive_length d ty data count ns :
  map node_sans_parent ns = map node_sans_parent (nodes d ++ [Create ty data count]) ->
  length ns = S (length (nodes d)).
Proof. intros E. apply map_eq_length in E. rewrite E, length_app. cbn. lia. Qed.

Lemma graph_wf_arrive d ty data count ns :
  map node_sans_parent ns = map node_sans_parent (nodes d ++ [Create ty data count]) ->
  True -> graph_wf d -> graph_wf (set_nodes ns d).
Proof.
  intros Ens _ (Hc & Ho & Hl & Hi). split; [|split; [|split]].
  - exact Hc.
  - intros i n' o Hn' Hown. cbn [nodes set_nodes objects] in *.
    destruct (arrive_lookup _ _ _ _ _ _ _ Ens Hn') as [(n & Hn & E)|(_ & E)].
    + apply (Ho i n o Hn). unfold node_sans_parent in E. congruence.
    + unfold node_sans_parent in E. cbn in E. congruence.
  - intros ty' r Hr. cbn [nodes set_nodes m_lastPictParamsQueue] in *.
    rewrite (arrive_length _ _ _ _ _ Ens). specialize (Hl ty' r Hr). lia.
  - exact Hi.
Qed.

Lemma AddPictureParameters_graph_wf P d vps sps pps r d' :
  AddPictureParameters P d vps sps pps = Done (r, d') -> graph_wf d -> graph_wf d'.
Proof.
  intros Hdone (Hc & Ho & Hl & Hi).
  pose proof (AddPictureParameters_keeps _ _ _ _ _ _ _ Hdone) as Hkeep.
  pose proof (AddPictureParameters_objects _ _ _ _ _ _ _ Hdone) as Hobj.
  cbv zeta in Hobj.
  assert (Hlast : current_is_last d').
  { destruct Hobj as [(_ & _ & _ & _ & ->)|(_ & _ & Hcase)]; [exact Hc|].
    destruct Hcase as [(_ & o & _ & Eo & Ec & _)|[(_ & _ & _ & Ec & _)
                      |(_ & c & this & this' & Ec & Ec' & _ & Eo & _)]];
      intros c0 Hc0; rewrite Hc0 in *.
    - inversion Ec; subst. rewrite Eo, length_app. cbn. lia.
    - discriminate.
    - inversion Ec'; subst. rewrite Eo, length_insert. now apply Hc. }
  assert (Hgrow : (length (objects d) <= length (objects d'))%nat).
  { destruct Hobj as [(_ & _ & _ & _ & ->)|(_ & _ & Hcase)]; [lia|].
    destruct Hcase as [(_ & o & _ & Eo & _)|[(_ & _ & Eo & _)
                      |(_ & c & this & this' & _ & _ & _ & Eo & _)]]; rewrite Eo.
    - rewrite length_app. lia.
    - lia.
    - rewrite length_insert. lia. }
  split; [exact Hlast|]. split; [|split].
  - intros i n' o Hn' Hown.
    assert (Hlen : length (nodes d') = length (nodes d))
      by now apply keeps_graph_length.
    assert (Hin : is_Some (nodes d !! i)).
    { apply lookup_lt_is_Some. rewrite <- Hlen. now apply lookup_lt_Some in Hn'. }
    destruct Hin as (n & Hn).
    destruct (AddPictureParameters_owners _ _ _ _ _ _ _ Hdone i n Hn)
      as (n'' & Hn'' & _ & Hown'').
    rewrite Hn' in Hn''. inversion Hn''; subst n''.
    destruct (decide _).
    + rewrite Hown in Hown''. symmetry in Hown''. apply Hlast in Hown''. lia.
    + rewrite Hown in Hown''. symmetry in Hown''.
      specialize (Ho i n o Hn Hown''). lia.
  - intros ty seen Hseen.
    rewrite (keeps_graph_length d d' Hkeep).
    destruct Hkeep as (Hout & _ & _).
    rewrite (LinkFacts.outside_last_seen _ _ Hout) in Hseen.
    now apply (Hl ty).
  - now apply (AddPictureParameters_identities _ _ _ _ _ _ _ Hi) in Hdone.
Qed.

Lemma flush_front_graph_wf P d ppItem d' :
  flush_front P d ppItem = Done d' -> graph_wf d -> graph_wf d'.
Proof.
  intros H Hd. apply flush_front_call in H as (n & _ & [(_ & ->)|Hcall]); [exact Hd|].
  destruct Hcall as (vps & sps & pps & r & Hadd & _).
  eapply AddPictureParameters_graph_wf; eassumption.
Qed.


Lemma fresh_graph_wf useLinearOutput resetDecoder :
  graph_wf (fresh useLinearOutput resetDecoder).
Proof.
  split; [|split; [|split]].
  - intros c Hc. discriminate Hc.
  - intros i n o Hn. discriminate Hn.
  - intros ty r Hr. discriminate Hr.
  - apply fresh_ids.
Qed.



(** *** Consecutive identities *)





Lemma all_ops_ok ops : Forall (op_ok (fun _ _ _ => True)) ops.
Proof.
  apply Forall_forall. intros op _. destruct op as [| [[ty data]|] count | |]; exact I.
Qed.



End ReachFacts.

(** ** UpdatePictureParameters returns *)

Module SafetyFacts.

Import StdVideoPictureParametersSet VkVideoDecoder.
Import ParameterFacts ObjectFacts AddFacts Invariant GraphFacts ReachFacts.

Lemma node_sans_parent_queued_ids n n' :
  node_sans_parent n' = node_sans_parent n -> queued_ids n' = queued_ids n.
Proof.
  unfold node_sans_parent. intros E. injection E as Ety Edata _ _ _.
  unfold queued_ids, PP.ids_of, PP.select_updateType, PP.current_ids, m_updateType,
    PP.PopulateH264UpdateFields, PP.PopulateH265UpdateFields.
  now rewrite Ety, Edata.
Qed.












End SafetyFacts.

(** ** The owner of a node holds the ids of the node *)

Module OwnerFacts.

Import StdVideoPictureParametersSet VkVideoDecoder.
Import ParameterFacts ObjectFacts AddFacts Invariant GraphFacts ReachFacts SafetyFacts.

Lemma holds_ids_subset o o' ids :
  ids_subset o o' -> holds_ids o ids -> holds_ids o' ids.
Proof.
  intros (Sv & Ss & Sp) (Hv & Hs & Hp).
  split; [|split]; intros H0; [apply Sv, Hv | apply Ss, Hs | apply Sp, Hp]; exact H0.
Qed.

(** For a node whose kind agrees with its payload, holding the ids of the
    node means having its own id in the set of its kind. *)
Lemma holds_ids_own_id o n :
  kind_matches (m_itemType n) (m_data n) ->
  holds_ids o (queued_ids n) -> 0 <= own_id n -> HasOwnId o n = true.
Proof.
  unfold kind_matches, holds_ids, queued_ids, HasOwnId, own_id,
    PP.HasVpsId, PP.HasSpsId, PP.HasPpsId.
  intros Hkind (Hv & Hs & Hp) H0.
  destruct (m_itemType n), (m_data n) eqn:Hdata; try contradiction;
    unfold PP.ids_of, PP.select_updateType, PP.current_ids, m_updateType,
      PP.PopulateH264UpdateFields, PP.PopulateH265UpdateFields in Hv, Hs, Hp;
    rewrite Hdata in Hv, Hs, Hp; cbn in Hv, Hs, Hp;
    apply bool_decide_eq_true; auto.
Qed.

Section Accepting.

Variable P : Platform.
Hypothesis accepts : driver_accepts P.

Lemma owned_wf_frame d d' : same_graph d d' -> owned_wf d -> owned_wf d'.
Proof.
  intros Hsame [Hwf Hhold]. split; [now apply (graph_wf_frame d)|].
  destruct Hsame as (En & Eo & _). unfold owners_hold_ids. now rewrite En, Eo.
Qed.

Lemma owned_wf_arrive d ty data count ns :
  map node_sans_parent ns = map node_sans_parent (nodes d ++ [Create ty data count]) ->
  True -> owned_wf d -> owned_wf (set_nodes ns d).
Proof.
  intros Ens _ [Hwf Hhold]. split; [now apply (graph_wf_arrive d ty data count)|].
  intros i n' o obj Hn' Hown Hobj. cbn [nodes set_nodes objects] in *.
  destruct (arrive_lookup _ _ _ _ _ _ _ Ens Hn') as [(n & Hn & E)|(_ & E)].
  - rewrite (node_sans_parent_queued_ids _ _ E).
    apply (Hhold i n o obj Hn); [|exact Hobj].
    unfold node_sans_parent in E. congruence.
  - unfold node_sans_parent in E. cbn in E. congruence.
Qed.

Lemma flush_front_owned_wf d ppItem d' :
  flush_front P d ppItem = Done d' -> owned_wf d -> owned_wf d'.
Proof.
  intros H [Hwf Hhold]. split; [now apply (flush_front_graph_wf P d ppItem)|].
  pose proof (flush_front_keeps _ _ _ _ H) as Hkeep.
  apply flush_front_call in H as (n & Hn & [(_ & ->)|Hcall]); [exact Hhold|].
  destruct Hcall as (vps & sps & pps & r & Hadd & Hone & Hids & _).
  pose proof (AddPictureParameters_objects _ _ _ _ _ _ _ Hadd) as Hobj.
  cbv zeta in Hobj. rewrite Hids in Hobj.
  destruct Hwf as (Hlast & Howners & _).
  intros i n' o obj Hn' Hown Ho.
  assert (Hin : is_Some (nodes d !! i)).
  { apply lookup_lt_is_Some. rewrite <- (keeps_graph_length _ _ Hkeep).
    now apply lookup_lt_Some in Hn'. }
  destruct Hin as (n0 & Hn0).
  destruct (AddPictureParameters_owners _ _ _ _ _ _ _ Hadd i n0 Hn0)
    as (n'' & Hn'' & Hstatic & Hown'').
  rewrite Hn' in Hn''. inversion Hn''; subst n''. clear Hn''.
  rewrite (node_static_queued_ids _ _ Hstatic).
  rewrite Hown in Hown''.
  destruct (decide (vps = Some i \/ sps = Some i \/ pps = Some i)) as [Hgiven|Hother].
  - apply Hone in Hgiven. subst i. rewrite Hn in Hn0. inversion Hn0; subst n0.
    destruct Hobj as [(Ev & Es & Ep & _)|(_ & _ & Hcase)].
    { exfalso. destruct (proj2 (Hone ppItem) eq_refl) as [E|[E|E]]; congruence. }
    destruct Hcase as [(_ & onew & _ & Eo & Ec & _ & _ & Hheld)
                      |[(_ & _ & _ & Ec & _)
                      |(_ & c & this & this' & _ & Ec & Hthis & Eo & _ & _ & _ & Hheld)]].
    + rewrite Ec in Hown''. inversion Hown''; subst o.
      rewrite Eo, lookup_app_r, Nat.sub_diag in Ho by lia.
      inversion Ho; subst. exact Hheld.
    + rewrite Ec in Hown''. discriminate.
    + rewrite Ec in Hown''. inversion Hown''; subst o.
      rewrite Eo, list_lookup_insert_eq in Ho by (now apply lookup_lt_Some in Hthis).
      inversion Ho; subst. apply Hheld. apply accepts.
  - symmetry in Hown''. pose proof (Howners i n0 o Hn0 Hown'') as Hvalid.
    destruct (lookup_lt_is_Some_2 _ _ Hvalid) as (obj0 & Hobj0).
    pose proof (Hhold i n0 o obj0 Hn0 Hown'' Hobj0) as Hheld0.
    destruct Hobj as [(_ & _ & _ & _ & ->)|(_ & _ & Hcase)].
    { rewrite Hobj0 in Ho. now inversion Ho; subst. }
    destruct Hcase as [(_ & onew & _ & Eo & _)
                      |[(_ & _ & Eo & _)
                      |(_ & c & this & this' & _ & _ & Hthis & Eo & _ & Hsub & _)]].
    + rewrite Eo, lookup_app_l, Hobj0 in Ho by exact Hvalid. now inversion Ho; subst.
    + rewrite Eo, Hobj0 in Ho. now inversion Ho; subst.
    + rewrite Eo in Ho. destruct (decide (c = o)) as [->|Hne].
      * rewrite list_lookup_insert_eq in Ho by exact Hvalid. inversion Ho; subst.
        rewrite Hthis in Hobj0. inversion Hobj0; subst.
        now apply (holds_ids_subset obj0).
      * rewrite list_lookup_insert_ne, Hobj0 in Ho by exact Hne. now inversion Ho; subst.
Qed.

Lemma run_owned_wf ops d d' evs :
  run P d ops = Done (d', evs) -> owned_wf d -> owned_wf d'.
Proof.
  intros Hrun Hd.
  exact (run_preserves P owned_wf (fun _ _ _ => True) owned_wf_frame owned_wf_arrive
           flush_front_owned_wf ops d d' evs Hrun (all_ops_ok ops) Hd).
Qed.

End Accepting.

(** X12.  Every owner has the id of its node: the assertion of line 745.
    With a driver that accepts every call, start from a state of the shape
    that runs keep in which every owner holds the ids of its nodes -- a
    decoder that has not been used is such a state.  After any run, the owner
    of a node whose kind agrees with its payload has the id of the node in the
    id set of that kind: the object that a decode binds for a PPS node
    answers HasPpsId for the id of that PPS. *)
Theorem owner_holds_the_id_of_its_node P d ops d' evs :
  driver_accepts P ->
  graph_wf d ->
  owners_hold_ids d ->
  run P d ops = Done (d', evs) ->
  forall i n o,
    nodes d' !! i = Some n -> m_vkObjectOwner n = Some o ->
    kind_matches (m_itemType n) (m_data n) -> 0 <= own_id n ->
    exists owner, objects d' !! o = Some owner /\ HasOwnId owner n = true.
Proof.
  intros Hacc Hwf Hhold Hrun i n o Hn Hown Hkind H0.
  destruct (run_owned_wf P Hacc ops d d' evs Hrun (conj Hwf Hhold)) as [Hwf' Hhold'].
  destruct Hwf' as (_ & Howners & _).
  destruct (lookup_lt_is_Some_2 _ _ (Howners i n o Hn Hown)) as (owner & Howner).
  exists owner. split; [exact Howner|].
  apply holds_ids_own_id; [exact Hkind | | exact H0].
  exact (Hhold' i n o owner Hn Hown Howner).
Qed.

Lemma owner_holds_the_id_of_its_node_witness :
  exists d' evs n owner,
    run Examples.platform (fresh false false) Examples.two_decodes = Done (d', evs)
    /\ nodes d' !! 1%nat = Some n
    /\ m_itemType n = PPS_TYPE
    /\ objects d' !! 0%nat = Some owner
    /\ PP.HasPpsId owner 0 = true.
Proof.
  destruct (run Examples.platform (fresh false false) Examples.two_decodes)
    as [[d' evs]|f] eqn:Hrun; [|vm_compute in Hrun; discriminate Hrun].
  assert (Hacc : driver_accepts Examples.platform) by (intros k; reflexivity).
  assert (Hhold : owners_hold_ids (fresh false false))
    by (intros i n o obj Hn; discriminate Hn).
  pose proof (owner_holds_the_id_of_its_node Examples.platform (fresh false false)
                Examples.two_decodes d' evs Hacc (fresh_graph_wf false false) Hhold Hrun)
    as T.
  vm_compute in Hrun. injection Hrun as Hd Hevs. subst d'.
  match type of T with
  | context [nodes ?d] =>
      match eval vm_compute in (nodes d !! 1%nat) with
      | Some ?n =>
          destruct (T 1%nat n 0%nat eq_refl eq_refl I ltac:(cbn; lia))
            as (owner & Howner & Hhas);
          eexists _, _, n, owner
      end
  end.
  split; [reflexivity|]. split; [reflexivity|]. split; [reflexivity|].
  split; [exact Howner | exact Hhas].
Defined.

(** *** A decode binds the owner of the picture's parameters *)

Section Binding.

Variable P : Platform.
Hypothesis accepts : driver_accepts P.



End Binding.




End OwnerFacts.

(** ** The queue of parameter sets *)

Module QueueFacts.

Import StdVideoPictureParametersSet VkVideoDecoder MachineIntFacts.
Import ParameterFacts ObjectFacts AddFacts Invariant GraphFacts ReachFacts.

Lemma flush_loop_count P queue :
  forall d num r d',
    flush_loop P queue d num = Done (r, d') ->
    0 <= num < 2 ^ 32 ->
    r = (num + Z.of_nat (length queue)) mod 2 ^ 32.
Proof.
  induction queue as [|ppItem rest IH]; intros d num r d' H Hnum; cbn in H.
  - inversion H; subst. cbn. rewrite Z.add_0_r, Z.mod_small; lia.
  - inv_bind_as H d1 H1.
    apply IH in H; [|apply to_uint32_range]. subst r.
    cbn [length]. unfold to_uint32, UINT32_MOD.
    rewrite Zplus_mod_idemp_l. f_equal. lia.
Qed.

Lemma flush_front_calls P d ppItem d' :
  flush_front P d ppItem = Done d' ->
  exists n,
    nodes d !! ppItem = Some n
    /\ length (PP.driverCalls (statics d'))
       = ((match m_itemType n with INVALID_TYPE => 0 | _ => 1 end)
          + length (PP.driverCalls (statics d)))%nat.
Proof.
  intros H. apply flush_front_call in H as (n & Hn & Hcase).
  exists n. split; [exact Hn|].
  destruct Hcase as [(Hty & ->)|(vps & sps & pps & r & Hadd & Hone & _ & Hvalid)].
  - now rewrite Hty.
  - pose proof (AddPictureParameters_objects _ _ _ _ _ _ _ Hadd) as Hobj.
    cbv zeta in Hobj.
    destruct Hobj as [(Ev & Es & Ep & _)|(_ & Hcalls & _)].
    { exfalso. destruct (proj2 (Hone ppItem) eq_refl) as [E|[E|E]]; congruence. }
    destruct (m_itemType n); [lia.. | contradiction].
Qed.

(** The queued nodes are of a valid kind. *)
Lemma flush_loop_calls P queue :
  forall d num r d',
    flush_loop P queue d num = Done (r, d') ->
    (forall i n, i ∈ queue -> nodes d !! i = Some n -> m_itemType n <> INVALID_TYPE) ->
    length (PP.driverCalls (statics d'))
    = (length queue + length (PP.driverCalls (statics d)))%nat.
Proof.
  induction queue as [|ppItem rest IH]; intros d num r d' H Hvalid; cbn in H.
  - now inversion H; subst.
  - inv_bind_as H d1 H1.
    pose proof (flush_front_keeps _ _ _ _ H1) as Hkeep.
    destruct (flush_front_calls _ _ _ _ H1) as (n & Hn & Hcalls).
    apply IH in H.
    + cbn [statics set_m_pictureParametersQueue length] in *. rewrite H, Hcalls.
      destruct (m_itemType n) eqn:Hty; [lia.. |].
      exfalso. apply (Hvalid ppItem n); [now left | exact Hn | exact Hty].
    + intros i n1 Hi Hn1. cbn [nodes set_m_pictureParametersQueue] in Hn1.
      destruct Hkeep as (_ & _ & Hs). symmetry in Hs.
      destruct (map_eq_lookup _ _ _ _ _ Hs Hn1) as (n0 & Hn0 & E).
      unfold node_static in E.
      assert (Hty : m_itemType n1 = m_itemType n0) by congruence.
      rewrite Hty. apply (Hvalid i n0); [now right | exact Hn0].
Qed.

(** X14.  FlushPictureParametersQueue drains the queue.  When it returns it
    has made one driver call for each queued node (all of a valid kind, as
    UpdatePictureParameters queues them), whether or not the driver accepts
    it; it reports the number of nodes it took, as a 32-bit
    unsigned number; it leaves the queue empty and every member outside the
    parameter-set code as it was; and flushing again does nothing and reports
    zero. *)
Theorem FlushPictureParametersQueue_drains P d numQueueItems d' :
  FlushPictureParametersQueue P d = Done (numQueueItems, d') ->
  (forall i n, i ∈ m_pictureParametersQueue d -> nodes d !! i = Some n ->
     m_itemType n <> INVALID_TYPE) ->
  numQueueItems = Z.of_nat (length (m_pictureParametersQueue d)) mod 2 ^ 32
  /\ length (PP.driverCalls (statics d'))
     = (length (m_pictureParametersQueue d) + length (PP.driverCalls (statics d)))%nat
  /\ m_pictureParametersQueue d' = []
  /\ outside_parameters d' = outside_parameters d
  /\ length (nodes d') = length (nodes d)
  /\ FlushPictureParametersQueue P d' = Done (0, d').
Proof.
  intros H Hvalid.
  pose proof (FlushPictureParametersQueue_keeps _ _ _ _ H) as (Hout & Hstatic & Hempty).
  unfold FlushPictureParametersQueue in H.
  split; [apply (flush_loop_count _ _ _ _ _ _ H); lia|].
  split; [now apply (flush_loop_calls _ _ _ _ _ _ H)|].
  split; [exact Hempty|]. split; [exact Hout|].
  split; [now apply map_eq_length in Hstatic|].
  now apply FlushPictureParametersQueue_empty.
Qed.

Lemma FlushPictureParametersQueue_drains_witness :
  exists d',
    FlushPictureParametersQueue Examples.platform
      (set_m_videoSession (Some Examples.session_1080p)
         (set_m_pictureParametersQueue [0%nat]
            (set_nodes [Create SPS_TYPE (h264Sps 0) 0] (fresh false false))))
    = Done (1, d')
    /\ length (PP.driverCalls (statics d')) = 1%nat
    /\ m_pictureParametersQueue d' = [].
Proof.
  destruct (FlushPictureParametersQueue Examples.platform
              (set_m_videoSession (Some Examples.session_1080p)
                 (set_m_pictureParametersQueue [0%nat]
                    (set_nodes [Create SPS_TYPE (h264Sps 0) 0] (fresh false false)))))
    as [[num d']|f] eqn:Hflush; [|vm_compute in Hflush; discriminate Hflush].
  destruct (FlushPictureParametersQueue_drains _ _ _ _ Hflush)
    as (Hnum & Hcalls & Hempty & _).
  - intros i n Hi Hn. apply list_elem_of_singleton in Hi. subst i.
    cbn in Hn. inversion Hn; subst. discriminate.
  - exists d'. cbn in Hnum. change (1 mod 2 ^ 32) with 1 in Hnum. subst num.
    split; [reflexivity|]. split; [exact Hcalls | exact Hempty].
Defined.




(** X16.  Compilation is deferred until the decoder has a session.
    Without a session, UpdatePictureParameters only queues the new node: no
    driver call is made, no object is created or updated, the current object
    stays, and the node has no owner yet.  With a session the call compiles
    the whole queue, the new node included, with one driver call per node,
    and leaves the queue empty. *)
Theorem UpdatePictureParameters_defers P d ty data count ok ref d' :
  ty <> INVALID_TYPE ->
  UpdatePictureParameters P d (Some (ty, data)) count = Done (ok, ref, d') ->
  (m_videoSession d = None ->
   m_pictureParametersQueue d' = m_pictureParametersQueue d ++ [length (nodes d)]
   /\ objects d' = objects d /\ statics d' = statics d
   /\ m_currentPictureParameters d' = m_currentPictureParameters d
   /\ exists n, nodes d' !! length (nodes d) = Some n /\ m_vkObjectOwner n = None)
  /\ (is_Some (m_videoSession d) ->
      m_pictureParametersQueue d' = []
      /\ ((forall i n, i ∈ m_pictureParametersQueue d -> nodes d !! i = Some n ->
            m_itemType n <> INVALID_TYPE) ->
          length (PP.driverCalls (statics d'))
          = S (length (m_pictureParametersQueue d)
               + length (PP.driverCalls (statics d))))).
Proof.
  intros Hty H.
  apply UpdatePictureParameters_stages in H as (ns & Ens & Hcase).
  destruct Hcase as [(E & _)|(_ & _ & _ & Hd')]; [contradiction|].
  cbv zeta in Hd'.
  assert (Hnew : exists n, ns !! length (nodes d) = Some n
                   /\ m_vkObjectOwner n = None /\ m_itemType n = ty).
  { destruct (map_eq_lookup node_sans_parent (nodes d ++ [Create ty data count]) ns
                (length (nodes d)) (Create ty data count) Ens) as (n & Hn & E).
    - rewrite lookup_app_r by lia. now rewrite Nat.sub_diag.
    - exists n. split; [exact Hn|]. unfold node_sans_parent in E. cbn in E.
      split; congruence. }
  split.
  - intros Hnone. rewrite Hnone in Hd'. subst d'. cbn.
    repeat split. destruct Hnew as (n & Hn & Hown & _). eauto.
  - intros (s & Hs). rewrite Hs in Hd'. destruct Hd' as (num & Hflush).
    split; [now apply FlushPictureParametersQueue_keeps in Hflush|].
    intros Hvalid. unfold FlushPictureParametersQueue in Hflush.
    apply flush_loop_calls in Hflush.
    + cbn [m_pictureParametersQueue set_m_pictureParametersQueue statics set_nodes]
        in Hflush.
      rewrite Hflush, length_app. cbn [length]. lia.
    + intros i n Hi Hn.
      cbn [m_pictureParametersQueue set_m_pictureParametersQueue nodes set_nodes]
        in Hi, Hn.
      destruct (arrive_lookup _ _ _ _ _ _ _ Ens Hn) as [(n0 & Hn0 & E)|(Ei & E)].
      * unfold node_sans_parent in E.
        assert (Et : m_itemType n = m_itemType n0) by congruence. rewrite Et.
        apply elem_of_app in Hi as [Hi|Hi]; [now apply (Hvalid i n0)|].
        apply list_elem_of_singleton in Hi. apply lookup_lt_Some in Hn0. lia.
      * unfold node_sans_parent in E. cbn in E.
        assert (Et : m_itemType n = ty) by congruence. now rewrite Et.
Qed.

Lemma UpdatePictureParameters_defers_witness :
  exists ok ref d',
    UpdatePictureParameters Examples.platform (fresh false false)
      (Some (SPS_TYPE, h264Sps 0)) 0 = Done (ok, ref, d')
    /\ m_pictureParametersQueue d' = [0%nat]
    /\ objects d' = [].
Proof.
  destruct (UpdatePictureParameters Examples.platform (fresh false false)
              (Some (SPS_TYPE, h264Sps 0)) 0) as [[[ok ref] d']|f] eqn:Hdone;
    [|vm_compute in Hdone; discriminate Hdone].
  destruct (UpdatePictureParameters_defers Examples.platform (fresh false false)
              SPS_TYPE (h264Sps 0) 0 ok ref d' ltac:(discriminate) Hdone)
    as (Hdefer & _).
  destruct (Hdefer eq_refl) as (Hq & Ho & _).
  exists ok, ref, d'. split; [reflexivity|]. split; [exact Hq | exact Ho].
Defined.

End QueueFacts.

(** ** What runs never assign *)

Module FrameFacts.

Import StdVideoPictureParametersSet VkVideoDecoder.
Import ParameterFacts ObjectFacts AddFacts Invariant GraphFacts ReachFacts.

Lemma outside_configuration d d' :
  outside_parameters d' = outside_parameters d -> configuration d' = configuration d.
Proof. unfold outside_parameters, configuration. intros H. inversion H. reflexivity. Qed.

Lemma DecodePictureWithParameters_configuration P d params env ret d' commands :
  DecodePictureWithParameters P d params env = Done (ret, d', commands) ->
  configuration d' = configuration d.
Proof.
  unfold DecodePictureWithParameters. intros H.
  destruct (m_videoSession d); [|now inversion H; subst].
  inv_bind_as H fl Hfl. destruct fl as [num d2].
  inv_bind_as H node Hnode. inv_bind_as H owner Howner.
  apply FlushPictureParametersQueue_keeps in Hfl as (Hout & _).
  apply outside_configuration in Hout.
  destruct (m_resetDecoder d2); inversion H; subst; exact Hout.
Qed.

Lemma GetBitstreamBuffer_configuration d size mem len env ret ref d' :
  GetBitstreamBuffer d size mem len env = Done (ret, ref, d') ->
  configuration d' = configuration d.
Proof.
  unfold GetBitstreamBuffer. intros H.
  destruct (negb (0 <=? GetAvailableNodeFromPool env)).
  - destruct (negb (VulkanBitstreamBufferImpl_Create env =? VK_SUCCESS)).
    + now inversion H.
    + inv_bind H. inv_bind H. inversion H; subst. now destruct (_ <? _).
  - inv_bind H. inv_bind H. inv_bind H. inversion H; subst. now destruct (_ <? _).
Qed.

(** X17.  Only StartVideoSequence configures the decoder.  In a run without
    a sequence start -- parameter updates, decodes and buffer requests in any
    number and order -- the surface count, the frame count, the session, the
    saved format and the two output flags are at the end what they were at
    the start. *)
Theorem only_StartVideoSequence_configures P ops d d' evs :
  run P d ops = Done (d', evs) ->
  Forall (fun op => is_sequence_start op = false) ops ->
  configuration d' = configuration d.
Proof.
  revert d d' evs. induction ops as [|op rest IH]; intros d d' evs H Hops; cbn in H.
  - now inversion H; subst.
  - inv_bind_as H s1 H1. destruct s1 as [d1 ev].
    inv_bind_as H s2 H2. destruct s2 as [d2 evs']. inversion H; subst; clear H.
    apply Forall_cons in Hops as [Hop Hrest].
    rewrite (IH _ _ _ H2 Hrest).
    destruct op as [fmt env|payload count|params env|size mem len env]; cbn in H1.
    + discriminate Hop.
    + inv_bind_as H1 res Hres. destruct res as [[ok ref] dx]. inversion H1; subst.
      now apply UpdatePictureParameters_outside, outside_configuration in Hres.
    + inv_bind_as H1 res Hres. destruct res as [[ret dx] commands]. inversion H1; subst.
      now apply DecodePictureWithParameters_configuration in Hres.
    + inv_bind_as H1 res Hres. destruct res as [[ret ref] dx]. inversion H1; subst.
      now apply GetBitstreamBuffer_configuration in Hres.
Qed.

Lemma only_StartVideoSequence_configures_witness :
  exists d' evs,
    run Examples.platform (fresh true false) Examples.pps_then_sps = Done (d', evs)
    /\ m_useLinearOutput d' = true /\ m_videoSession d' = None.
Proof.
  destruct (run Examples.platform (fresh true false) Examples.pps_then_sps)
    as [[d' evs]|f] eqn:Hrun; [|vm_compute in Hrun; discriminate Hrun].
  pose proof (only_StartVideoSequence_configures Examples.platform
                Examples.pps_then_sps (fresh true false) d' evs Hrun) as T.
  assert (Hc : configuration d' = configuration (fresh true false)).
  { apply T. repeat constructor. }
  exists d', evs. split; [reflexivity|].
  unfold configuration in Hc. inversion Hc. now split.
Defined.

(** *** Parents *)

Lemma no_parent_assigned_refl d : no_parent_assigned d d.
Proof.
  split; [reflexivity|]. split; [reflexivity|]. split; [lia|]. split; [eauto|].
  intros i n' Hi Hge. apply lookup_lt_Some in Hi. lia.
Qed.

Lemma no_parent_assigned_trans d1 d2 d3 :
  no_parent_assigned d1 d2 -> no_parent_assigned d2 d3 -> no_parent_assigned d1 d3.
Proof.
  intros (T1 & I1 & L1 & O1 & N1) (T2 & I2 & L2 & O2 & N2).
  split; [congruence|]. split; [congruence|]. split; [lia|]. split.
  - intros i n Hi. destruct (O1 i n Hi) as (n2 & Hn2 & E2).
    destruct (O2 i n2 Hn2) as (n3 & Hn3 & E3). exists n3. split; [exact Hn3 | congruence].
  - intros i n3 Hi Hge.
    destruct (decide (length (nodes d2) <= i)%nat) as [Hnew|Hold]; [now apply (N2 i)|].
    assert (Hin : is_Some (nodes d2 !! i)) by (apply lookup_lt_is_Some; lia).
    destruct Hin as (n2 & Hn2). destruct (O2 i n2 Hn2) as (n3' & Hn3' & E).
    rewrite Hi in Hn3'. inversion Hn3'; subst n3'. rewrite E. now apply (N1 i).
Qed.

(** States that differ in none of the nodes and tables. *)
Lemma no_parent_assigned_same d d' :
  nodes d' = nodes d -> m_lastPictParamsQueue d' = m_lastPictParamsQueue d ->
  m_lastIdInQueue d' = m_lastIdInQueue d -> no_parent_assigned d d'.
Proof.
  intros En Et Ei. split; [exact Et|]. split; [exact Ei|]. rewrite En.
  split; [lia|]. split; [eauto|].
  intros i n' Hi Hge. apply lookup_lt_Some in Hi. lia.
Qed.

(** Compiling keeps every parent. *)
Lemma no_parent_assigned_static d d' :
  outside_parameters d' = outside_parameters d ->
  map node_static (nodes d') = map node_static (nodes d) ->
  no_parent_assigned d d'.
Proof.
  intros Hout Hs.
  split; [now apply LinkFacts.outside_last_seen|].
  split; [unfold outside_parameters in Hout; now inversion Hout|].
  pose proof (map_eq_length _ _ _ Hs) as Hlen. split; [lia|]. split.
  - intros i n Hi. destruct (map_eq_lookup _ _ _ _ _ Hs Hi) as (n' & Hn' & E).
    exists n'. split; [exact Hn'|]. now apply LinkFacts.node_static_parent.
  - intros i n' Hi Hge. apply lookup_lt_Some in Hi. lia.
Qed.

Lemma UpdatePictureParameters_no_parent P d payload count ok ref d' :
  (forall ty, m_lastPictParamsQueue d ty = None) ->
  UpdatePictureParameters P d payload count = Done (ok, ref, d') ->
  no_parent_assigned d d'.
Proof.
  intros Hnone H.
  pose proof (UpdatePictureParameters_outside _ _ _ _ _ _ _ H) as Hout.
  destruct payload as [[ty data]|];
    [|cbn in H; inversion H; subst; apply no_parent_assigned_refl].
  assert (Hty : ty = INVALID_TYPE \/ ty <> INVALID_TYPE)
    by (destruct ty; (now left) || (right; discriminate)).
  destruct Hty as [->|Hty].
  - cbn in H. inversion H; subst; clear H.
    split; [reflexivity|]. split; [reflexivity|]. cbn [nodes set_nodes].
    rewrite length_app. split; [lia|]. split.
    + intros i n Hi. exists n. split; [now apply lookup_app_l_Some | reflexivity].
    + intros i n' Hi Hge. rewrite lookup_app_r in Hi by exact Hge.
      destruct (i - length (nodes d))%nat; cbn in Hi; [|discriminate].
      now inversion Hi.
  - assert (Hwf : last_seen_wf d) by (intros ty' r Hr; rewrite Hnone in Hr; discriminate).
    destruct (LinkFacts.UpdatePictureParameters_relinked _ _ _ _ _ _ _ _ Hty Hwf H)
      as (_ & _ & (Hlen & Hold & Hnew) & _).
    split; [now apply LinkFacts.outside_last_seen|].
    split; [unfold outside_parameters in Hout; now inversion Hout|].
    split; [lia|]. split.
    + intros i n Hi. destruct (Hold i n Hi) as (n' & Hn' & [Hp|(_ & ty' & Hseen)]).
      * eauto.
      * rewrite Hnone in Hseen. discriminate.
    + intros i n' Hi Hge.
      assert (i = length (nodes d)) as -> by (apply lookup_lt_Some in Hi; lia).
      destruct Hnew as (n0 & Hn0 & [Hp|(ty' & r & Hseen & _)]).
      * congruence.
      * rewrite Hnone in Hseen. discriminate.
Qed.

Lemma step_no_parent P d op d' ev :
  (forall ty, m_lastPictParamsQueue d ty = None) ->
  step P d op = Done (d', ev) -> no_parent_assigned d d'.
Proof.
  intros Hnone H. destruct op as [fmt env|payload count|params env|size mem len env];
    cbn in H.
  - assert (Hsame : same_graph d (snd (fst (StartVideoSequence P d fmt env)))
                    /\ m_lastIdInQueue (snd (fst (StartVideoSequence P d fmt env)))
                       = m_lastIdInQueue d).
    { SequenceFacts.start_cases; now repeat split. }
    destruct (StartVideoSequence P d fmt env) as [[ret d1] effects].
    inversion H; subst. destruct Hsame as ((En & _ & _ & _ & Et) & Ei).
    now apply no_parent_assigned_same.
  - inv_bind_as H res Hres. destruct res as [[ok ref] d1]. inversion H; subst.
    now apply (UpdatePictureParameters_no_parent P d payload count ok ref).
  - inv_bind_as H res Hres. destruct res as [[ret d1] commands]. inversion H; subst.
    unfold DecodePictureWithParameters in Hres.
    destruct (m_videoSession d); [|inversion Hres; subst; apply no_parent_assigned_refl].
    inv_bind_as Hres fl Hfl. destruct fl as [num d2].
    inv_bind_as Hres node Hnode. inv_bind_as Hres owner Howner.
    apply FlushPictureParametersQueue_keeps in Hfl as (Hout & Hs & _).
    assert (H2 : no_parent_assigned d d2).
    { apply (no_parent_assigned_trans d
               (set_m_decodePicCount (m_decodePicCount d + 1) d));
        [now apply no_parent_assigned_same | now apply no_parent_assigned_static]. }
    destruct (m_resetDecoder d2); inversion Hres; subst; [|exact H2].
    apply (no_parent_assigned_trans d d2); [exact H2|].
    now apply no_parent_assigned_same.
  - inv_bind_as H res Hres. destruct res as [[ret ref] d1]. inversion H; subst.
    unfold GetBitstreamBuffer in Hres.
    destruct (negb (0 <=? GetAvailableNodeFromPool env)).
    + destruct (negb (VulkanBitstreamBufferImpl_Create env =? VK_SUCCESS)).
      * inversion Hres; subst. apply no_parent_assigned_refl.
      * inv_bind_as Hres b Hb. inv_bind_as Hres b' Hb'. inversion Hres; subst.
        destruct (_ <? _); now apply no_parent_assigned_same.
    + inv_bind_as Hres b Hb. inv_bind_as Hres b' Hb'. inv_bind_as Hres b2 Hb2.
      inversion Hres; subst. destruct (_ <? _); now apply no_parent_assigned_same.
Qed.

(** X18.  No member function of VkVideoDecoder.cpp assigns the last-seen
    tables m_lastPictParamsQueue and m_lastIdInQueue.  So in any run that
    starts with empty tables -- as a decoder has them before its first call --
    the tables stay empty, every node keeps the parent it had, and every node
    that arrives during the run has no parent at the end, in whatever order
    VPS, SPS and PPS arrive. *)
Theorem parents_are_never_assigned P ops d d' evs :
  (forall ty, m_lastPictParamsQueue d ty = None) ->
  run P d ops = Done (d', evs) ->
  (forall ty, m_lastPictParamsQueue d' ty = None)
  /\ m_lastIdInQueue d' = m_lastIdInQueue d
  /\ (forall i n, nodes d !! i = Some n ->
      exists n', nodes d' !! i = Some n' /\ m_parent n' = m_parent n)
  /\ (forall i n', nodes d' !! i = Some n' -> (length (nodes d) <= i)%nat ->
      m_parent n' = None).
Proof.
  intros Hnone Hrun.
  assert (Hall : no_parent_assigned d d').
  { revert d d' evs Hnone Hrun.
    induction ops as [|op rest IH]; intros d d' evs Hnone H; cbn in H.
    - inversion H; subst. apply no_parent_assigned_refl.
    - inv_bind_as H s1 H1. destruct s1 as [d1 ev].
      inv_bind_as H s2 H2. destruct s2 as [d2 evs']. inversion H; subst; clear H.
      pose proof (step_no_parent _ _ _ _ _ Hnone H1) as Hstep.
      apply (no_parent_assigned_trans d d1); [exact Hstep|].
      apply (IH d1 d' evs'); [|exact H2].
      intros ty. destruct Hstep as (Et & _). now rewrite Et. }
  destruct Hall as (Et & Ei & _ & Hold & Hnew).
  split; [intros ty; now rewrite Et|]. split; [exact Ei|]. split; assumption.
Qed.

Lemma parents_are_never_assigned_witness :
  exists d' evs,
    run Examples.platform (fresh false false) Examples.two_decodes = Done (d', evs)
    /\ forall i n', nodes d' !! i = Some n' -> m_parent n' = None.
Proof.
  destruct (run Examples.platform (fresh false false) Examples.two_decodes)
    as [[d' evs]|f] eqn:Hrun; [|vm_compute in Hrun; discriminate Hrun].
  destruct (parents_are_never_assigned Examples.platform Examples.two_decodes
              (fresh false false) d' evs (fun _ => eq_refl) Hrun)
    as (_ & _ & _ & Hnew).
  exists d', evs. split; [reflexivity|].
  intros i n' Hi. apply (Hnew i n' Hi). cbn. lia.
Defined.

End FrameFacts.

(** ** Decoding one picture: the command buffer *)

Module CommandFacts.

Import StdVideoPictureParametersSet VkVideoDecoder.
Import ParameterFacts ObjectFacts AddFacts Invariant GraphFacts ReachFacts.




End CommandFacts.

(** ** The bitstream buffer sizes *)

Module PoolFacts.

Import StdVideoPictureParametersSet VkVideoDecoder.
Import ParameterFacts.

Lemma DecodePictureWithParameters_maxStreamBufferSize P d params env ret d' commands :
  DecodePictureWithParameters P d params env = Done (ret, d', commands) ->
  m_maxStreamBufferSize d' = m_maxStreamBufferSize d.
Proof.
  unfold DecodePictureWithParameters. intros H.
  destruct (m_videoSession d); [|now inversion H; subst].
  inv_bind_as H fl Hfl. destruct fl as [num d2].
  inv_bind_as H node Hnode. inv_bind_as H owner Howner.
  apply FlushPictureParametersQueue_keeps in Hfl as (Hout & _).
  assert (Hmax : m_maxStreamBufferSize d2 = m_maxStreamBufferSize d).
  { unfold outside_parameters in Hout. cbn in Hout. now injection Hout. }
  destruct (m_resetDecoder d2); inversion H; subst; exact Hmax.
Qed.

(** The steps other than a buffer request leave the recorded size alone. *)
Lemma step_keeps_maxStreamBufferSize P d op d' ev :
  step P d op = Done (d', ev) ->
  match op with
  | OpGetBitstreamBuffer _ _ _ _ => True
  | _ => m_maxStreamBufferSize d' = m_maxStreamBufferSize d
  end.
Proof.
  intros H. destruct op as [fmt env|payload count|params env|size mem len env];
    cbn in H; [| | |exact I].
  - assert (Hsame : m_maxStreamBufferSize (snd (fst (StartVideoSequence P d fmt env)))
                    = m_maxStreamBufferSize d)
      by (SequenceFacts.start_cases; reflexivity).
    destruct (StartVideoSequence P d fmt env) as [[ret d1] effects].
    inversion H; subst. exact Hsame.
  - inv_bind_as H res Hres. destruct res as [[ok ref] d1]. inversion H; subst.
    apply UpdatePictureParameters_outside in Hres. unfold outside_parameters in Hres.
    now injection Hres.
  - inv_bind_as H res Hres. destruct res as [[ret d1] commands]. inversion H; subst.
    exact (DecodePictureWithParameters_maxStreamBufferSize _ _ _ _ _ _ _ Hres).
Qed.

(** What a buffer request does to the recorded size. *)
Lemma GetBitstreamBuffer_maxStreamBufferSize d size mem len env ret ref d' :
  GetBitstreamBuffer d size mem len env = Done (ret, ref, d') ->
  m_maxStreamBufferSize d <= m_maxStreamBufferSize d'
  /\ (GetAvailableNodeFromPool env < 0 ->
      VulkanBitstreamBufferImpl_Create env = VK_SUCCESS ->
      size <= m_maxStreamBufferSize d').
Proof.
  intros H. unfold GetBitstreamBuffer in H.
  destruct (Z.leb_spec 0 (GetAvailableNodeFromPool env)) as [Hge|Hlt]; cbn [negb] in H.
  - inv_bind_as H b Hb. inv_bind_as H copied Hcopy. inv_bind_as H b2 Hb2.
    injection H as _ _ <-.
      destruct (Z.ltb_spec (m_maxStreamBufferSize d) (GetMaxSize b)); cbn; split; lia.
  - destruct (Z.eqb_spec (VulkanBitstreamBufferImpl_Create env) VK_SUCCESS) as [Hok|Hko];
      cbn [negb] in H.
    + inv_bind_as H created Hcopy. inv_bind_as H b2 Hb2.
      injection H as _ _ <-.
      destruct (Z.ltb_spec (m_maxStreamBufferSize d) size); cbn; split; lia.
    + injection H as _ _ <-. split; [lia | intros _ Hok; contradiction].
Qed.

Lemma run_maxStreamBufferSize_grows P ops d d' evs :
  run P d ops = Done (d', evs) ->
  m_maxStreamBufferSize d <= m_maxStreamBufferSize d'.
Proof.
  revert d d' evs. induction ops as [|op rest IH]; intros d d' evs H; cbn in H.
  - inversion H; subst. lia.
  - inv_bind_as H s1 H1. destruct s1 as [d1 ev].
    inv_bind_as H s2 H2. destruct s2 as [d2 evs']. inversion H; subst; clear H.
    apply IH in H2. etransitivity; [|exact H2].
    pose proof (step_keeps_maxStreamBufferSize _ _ _ _ _ H1) as Hstep.
    destruct op; try (rewrite Hstep; reflexivity).
    cbn in H1. inv_bind_as H1 res Hres. destruct res as [[ret ref] d3].
    inversion H1; subst. now apply GetBitstreamBuffer_maxStreamBufferSize in Hres.
Qed.

(** X20.  m_maxStreamBufferSize bounds every buffer allocated.  Over any run
    of calls the member never decreases, and at the end it is at least the
    size asked for in every request of the run that found no free pool entry
    and whose buffer creation succeeded. *)
Theorem maxStreamBufferSize_bounds_allocations P ops d d' evs :
  run P d ops = Done (d', evs) ->
  m_maxStreamBufferSize d <= m_maxStreamBufferSize d'
  /\ forall size mem len env,
       OpGetBitstreamBuffer size mem len env ∈ ops ->
       GetAvailableNodeFromPool env < 0 ->
       VulkanBitstreamBufferImpl_Create env = VK_SUCCESS ->
       size <= m_maxStreamBufferSize d'.
Proof.
  intros Hrun. split; [exact (run_maxStreamBufferSize_grows _ _ _ _ _ Hrun)|].
  revert d d' evs Hrun. induction ops as [|op rest IH]; intros d d' evs H;
    intros size mem len env Hin Hlt Hok.
  - now apply elem_of_nil in Hin.
  - cbn in H. inv_bind_as H s1 H1. destruct s1 as [d1 ev].
    inv_bind_as H s2 H2. destruct s2 as [d2 evs']. inversion H; subst; clear H.
    apply elem_of_cons in Hin as [<-|Hin].
    + cbn in H1. inv_bind_as H1 res Hres. destruct res as [[ret ref] d3].
      inversion H1; subst.
      apply GetBitstreamBuffer_maxStreamBufferSize in Hres as [_ Hsize].
      apply run_maxStreamBufferSize_grows in H2. specialize (Hsize Hlt Hok). lia.
    + exact (IH _ _ _ H2 _ _ _ _ Hin Hlt Hok).
Qed.

Lemma maxStreamBufferSize_bounds_allocations_witness :
  exists d' evs,
    run Examples.platform (fresh false false)
      [OpGetBitstreamBuffer 4096 Examples.payload 3
         {| GetAvailableNodeFromPool := -1;
            VulkanBitstreamBufferImpl_Create := VK_SUCCESS;
            newBufferMemory := replicate 4096 Byte.x00 |};
       OpGetBitstreamBuffer 16 Examples.payload 3
         {| GetAvailableNodeFromPool := -1;
            VulkanBitstreamBufferImpl_Create := VK_SUCCESS;
            newBufferMemory := replicate 16 Byte.x00 |}]
    = Done (d', evs)
    /\ 4096 <= m_maxStreamBufferSize d'.
Proof.
  set (ops := [OpGetBitstreamBuffer 4096 Examples.payload 3
                 {| GetAvailableNodeFromPool := -1;
                    VulkanBitstreamBufferImpl_Create := VK_SUCCESS;
                    newBufferMemory := replicate 4096 Byte.x00 |};
               OpGetBitstreamBuffer 16 Examples.payload 3
                 {| GetAvailableNodeFromPool := -1;
                    VulkanBitstreamBufferImpl_Create := VK_SUCCESS;
                    newBufferMemory := replicate 16 Byte.x00 |}]).
  destruct (run Examples.platform (fresh false false) ops) as [[d' evs]|f] eqn:Hrun;
    [|vm_compute in Hrun; discriminate Hrun].
  exists d', evs. split; [reflexivity|].
  destruct (maxStreamBufferSize_bounds_allocations _ _ _ _ _ Hrun) as [_ Hbound].
  eapply Hbound; [apply elem_of_cons; now left | cbn; lia | reflexivity].
Defined.

(** X21.  A buffer taken from the pool is not checked against the size asked
    for.  When the pool offers a free entry, the result of GetBitstreamBuffer,
    the buffer handed back and the decoder afterwards are the same whatever
    [size] is passed: the size asked for is not compared with the size of the
    entry. *)
Theorem GetBitstreamBuffer_reuse_ignores_size d size size' mem len env :
  0 <= GetAvailableNodeFromPool env ->
  GetBitstreamBuffer d size mem len env = GetBitstreamBuffer d size' mem len env.
Proof.
  intros Hge. unfold GetBitstreamBuffer.
  destruct (Z.leb_spec 0 (GetAvailableNodeFromPool env)) as [_|Hlt]; [|lia].
  cbn [negb]. reflexivity.
Qed.

Lemma GetBitstreamBuffer_reuse_ignores_size_witness :
  exists ref d',
    GetBitstreamBuffer Examples.decoder_with_stale_buffer 4096 Examples.payload 3
      Examples.pool_offers_entry_0 = Done (8, ref, d').
Proof.
  eexists _, _.
  rewrite (GetBitstreamBuffer_reuse_ignores_size Examples.decoder_with_stale_buffer
             4096 3 Examples.payload 3 Examples.pool_offers_entry_0
             ltac:(cbn; lia)).
  vm_compute. reflexivity.
Defined.

End PoolFacts.

(** ** The parameter objects as a class *)

Module ClassFacts.

Import StdVideoPictureParametersSet.
Import VkParserVideoPictureParameters.
Import Invariant.

Lemma mark_id_exact N (bits : gset Z) id bits' :
  mark_id N bits id = Done bits' ->
  forall x, x ∈ bits' <-> x ∈ bits \/ (0 <= id /\ x = id).
Proof.
  unfold mark_id, bitset_set, bitset.
  destruct (Z.leb_spec 0 id).
  - destruct (Z.ltb_spec id N); intros E; inversion E; subst.
    intros x. rewrite elem_of_union, elem_of_singleton. intuition.
  - intros E; inversion E; subst. intros x. intuition lia.
Qed.

Lemma mark_ids_exact P ids (v s p v' s' p' : gset Z) :
  mark_ids P ids v s p = Done (v', s', p') ->
  forall x,
    (x ∈ v' <-> x ∈ v \/ (0 <= ids.1.1 /\ x = ids.1.1))
    /\ (x ∈ s' <-> x ∈ s \/ (0 <= ids.1.2 /\ x = ids.1.2))
    /\ (x ∈ p' <-> x ∈ p \/ (0 <= ids.2 /\ x = ids.2)).
Proof.
  destruct ids as [[iv is_] ip]. unfold mark_ids. intros H x.
  inv_bind_as H v1 Hv. inv_bind_as H s1 Hs. inv_bind_as H p1 Hp.
  inversion H; subst; clear H. cbn.
  split; [exact (mark_id_exact _ _ _ _ Hv x)|].
  split; [exact (mark_id_exact _ _ _ _ Hs x) | exact (mark_id_exact _ _ _ _ Hp x)].
Qed.

Lemma mark_id_beyond N (bits : gset Z) id :
  0 <= id -> N <= id -> mark_id N bits id = Raised OutOfRange.
Proof.
  intros H0 HN. unfold mark_id, bitset_set.
  destruct (Z.leb_spec 0 id); [|lia]. destruct (Z.ltb_spec id N); [lia | reflexivity].
Qed.

Lemma mark_id_outcome N (bits : gset Z) id :
  (exists bits', mark_id N bits id = Done bits')
  \/ mark_id N bits id = Raised OutOfRange.
Proof.
  unfold mark_id, bitset_set. destruct (0 <=? id); [|eauto].
  destruct (id <? N); eauto.
Qed.

Lemma mark_ids_beyond P ids (v s p : gset Z) :
  exceeds_bitset P ids -> mark_ids P ids v s p = Raised OutOfRange.
Proof.
  destruct ids as [[iv is_] ip]. unfold exceeds_bitset, mark_ids. cbn [fst snd].
  intros Hex.
  destruct (mark_id_outcome (MAX_VPS_IDS P) v iv) as [(v' & Hv)|Hv];
    rewrite Hv; [cbn|reflexivity].
  destruct (mark_id_outcome (MAX_SPS_IDS P) s is_) as [(s' & Hs)|Hs];
    rewrite Hs; [cbn|reflexivity].
  destruct (mark_id_outcome (MAX_PPS_IDS P) p ip) as [(p' & Hp)|Hp];
    rewrite Hp; [cbn|reflexivity].
  exfalso. destruct Hex as [[H0 HN]|[[H0 HN]|[H0 HN]]].
  - rewrite (mark_id_beyond _ _ _ H0 HN) in Hv. discriminate.
  - rewrite (mark_id_beyond _ _ _ H0 HN) in Hs. discriminate.
  - rewrite (mark_id_beyond _ _ _ H0 HN) in Hp. discriminate.
Qed.

Lemma select_updateType_given vps sps pps :
  is_Some vps \/ is_Some sps \/ is_Some pps ->
  exists updateType, select_updateType vps sps pps = Done updateType.
Proof.
  intros H. destruct pps, sps, vps; cbn; eauto.
  destruct H as [[n Hn]|[[n Hn]|[n Hn]]]; discriminate Hn.
Qed.

(** X22.  What Update does to an object.  The identity and the session of the
    object stay, the class counter stays, and exactly one call goes to the
    driver, with the identity of the object and the update sequence count of
    the nodes given.  When the driver refuses, the object is left as it was;
    when it accepts, each of the three id sets holds exactly what it held
    before and the id (if not negative) read from the node of its kind. *)
Theorem Update_marks_exactly_the_ids_given P st this vps sps pps res this' st' :
  Update P st this vps sps pps = Done (res, this', st') ->
  res = vkResultOf P (length (driverCalls st))
  /\ m_Id this' = m_Id this
  /\ VkParserVideoPictureParameters.m_videoSession this'
     = VkParserVideoPictureParameters.m_videoSession this
  /\ m_currentId st' = m_currentId st
  /\ driverCalls st'
     = driverCalls st
       ++ [UpdateVideoSessionParametersKHR (m_Id this)
             (max_updateSequenceCount vps sps pps)]
  /\ (res <> VK_SUCCESS -> this' = this)
  /\ (res = VK_SUCCESS -> forall x,
      (x ∈ m_vpsIdsUsed this'
       <-> x ∈ m_vpsIdsUsed this
           \/ (0 <= (ids_of vps sps pps).1.1 /\ x = (ids_of vps sps pps).1.1))
      /\ (x ∈ m_spsIdsUsed this'
          <-> x ∈ m_spsIdsUsed this
              \/ (0 <= (ids_of vps sps pps).1.2 /\ x = (ids_of vps sps pps).1.2))
      /\ (x ∈ m_ppsIdsUsed this'
          <-> x ∈ m_ppsIdsUsed this
              \/ (0 <= (ids_of vps sps pps).2 /\ x = (ids_of vps sps pps).2))).
Proof.
  unfold Update, ids_of. intros H.
  inv_bind_as H ut Hut. rewrite Hut.
  destruct (Z.eqb_spec (vkResultOf P (length (driverCalls st))) VK_SUCCESS)
    as [Hres|Hres].
  - inv_bind_as H sets Hsets. destruct sets as [[v s] p].
    inversion H; subst; clear H. cbn.
    do 5 (split; [reflexivity|]). split; [intros Hne; contradiction|].
    intros _. exact (mark_ids_exact _ _ _ _ _ _ _ _ Hsets).
  - inversion H; subst; clear H. cbn.
    do 5 (split; [reflexivity|]). split; [reflexivity|].
    intros Hok. contradiction.
Qed.

Lemma Update_marks_exactly_the_ids_given_witness :
  exists this' st',
    Update Examples.platform
      {| m_currentId := 1; driverCalls := [] |}
      {| m_Id := 1; m_vpsIdsUsed := ∅; m_spsIdsUsed := {[ 0 ]}; m_ppsIdsUsed := ∅;
         VkParserVideoPictureParameters.m_videoSession := Some Examples.session_1080p |}
      None None (Some 
              {| m_itemType := PPS_TYPE; m_data := h264Pps 0 3;
                     m_updateSequenceCount := 2; m_parent := None;
                     m_vkObjectOwner := None;
                     StdVideoPictureParametersSet.m_videoSession := None |})
    = Done (VK_SUCCESS, this', st')
    /\ HasPpsId this' 3 = true /\ HasSpsId this' 0 = true /\ HasPpsId this' 0 = false
    /\ m_Id this' = 1.
Proof.
  destruct (Update Examples.platform
      {| m_currentId := 1; driverCalls := [] |}
      {| m_Id := 1; m_vpsIdsUsed := ∅; m_spsIdsUsed := {[ 0 ]}; m_ppsIdsUsed := ∅;
         VkParserVideoPictureParameters.m_videoSession := Some Examples.session_1080p |}
      None None (Some 
              {| m_itemType := PPS_TYPE; m_data := h264Pps 0 3;
                     m_updateSequenceCount := 2; m_parent := None;
                     m_vkObjectOwner := None;
                     StdVideoPictureParametersSet.m_videoSession := None |})) as [[[res this'] st']|f] eqn:Hdone;
    [|vm_compute in Hdone; discriminate Hdone].
  destruct (Update_marks_exactly_the_ids_given _ _ _ _ _ _ _ _ _ Hdone)
    as (Hres & Hid & _ & _ & _ & _ & Hsets).
  assert (Hok : res = VK_SUCCESS) by (rewrite Hres; reflexivity).
  specialize (Hsets Hok). subst res. exists this', st'. split; [reflexivity|].
  unfold HasPpsId, HasSpsId.
  split; [apply bool_decide_eq_true; apply (Hsets 3); right; vm_compute; split;
          [discriminate | reflexivity]|].
  split; [apply bool_decide_eq_true; apply (Hsets 0); left; cbn; set_solver|].
  split; [|exact Hid].
  apply bool_decide_eq_false. intros Hin. apply (Hsets 0) in Hin as [Hin|[_ Hin]];
    [cbn in Hin; set_solver | vm_compute in Hin; discriminate Hin].
Defined.

(** X23.  An id beyond its bitset is not rejected: it throws.  When the
    driver accepts the call and one of the ids read from the nodes given is
    not negative and not below the size of the bitset of its kind, Create
    (with a session) and Update both end in [std::out_of_range] instead of
    returning an error. *)
Theorem id_beyond_bitset_throws P st sess this vps sps pps tmpl :
  is_Some vps \/ is_Some sps \/ is_Some pps ->
  vkResultOf P (length (driverCalls st)) = VK_SUCCESS ->
  exceeds_bitset P (ids_of vps sps pps) ->
  Create P st (Some sess) vps sps pps tmpl = Raised OutOfRange
  /\ Update P st this vps sps pps = Raised OutOfRange.
Proof.
  intros Hgiven Hok Hex.
  destruct (select_updateType_given _ _ _ Hgiven) as (ut & Hut).
  unfold ids_of in Hex. rewrite Hut in Hex.
  split.
  - unfold Create. rewrite Hut. cbn. rewrite Hok. cbn.
    destruct tmpl as [tm|]; rewrite (mark_ids_beyond _ _ _ _ _ Hex); reflexivity.
  - unfold Update. rewrite Hut. cbn. rewrite Hok. cbn.
    rewrite (mark_ids_beyond _ _ _ _ _ Hex). reflexivity.
Qed.

Lemma id_beyond_bitset_throws_witness :
  Create Examples.platform {| m_currentId := 1; driverCalls := [] |}
    (Some Examples.session_1080p) None
    (Some {| m_itemType := SPS_TYPE; m_data := h264Sps 32;
             m_updateSequenceCount := 0; m_parent := None;
             m_vkObjectOwner := None;
             StdVideoPictureParametersSet.m_videoSession := None |})
    None None = Raised OutOfRange
  /\ Update Examples.platform {| m_currentId := 1; driverCalls := [] |}
       {| m_Id := 1; m_vpsIdsUsed := ∅; m_spsIdsUsed := ∅; m_ppsIdsUsed := ∅;
          VkParserVideoPictureParameters.m_videoSession := Some Examples.session_1080p |}
       None
       (Some {| m_itemType := SPS_TYPE; m_data := h264Sps 32;
                m_updateSequenceCount := 0; m_parent := None;
                m_vkObjectOwner := None;
                StdVideoPictureParametersSet.m_videoSession := None |})
       None = Raised OutOfRange.
Proof.
  apply (id_beyond_bitset_throws Examples.platform
           {| m_currentId := 1; driverCalls := [] |}).
  - right. left. eexists. reflexivity.
  - reflexivity.
  - right. left. cbn. lia.
Defined.

(** X24.  Creation from a template.  Create makes exactly one call to the
    driver, naming the template if one is given.  When the driver refuses,
    no object results and the class counter stays; when it accepts, the new
    object is bound to the session given, and each of its three id sets holds
    exactly the ids of the template (none without a template) and the id (if
    not negative) read from the node of its kind. *)
Theorem Create_inherits_the_template P st sess vps sps pps tmpl r st' :
  Create P st sess vps sps pps tmpl = Done (r, st') ->
  driverCalls st'
  = driverCalls st ++ [CreateVideoSessionParametersKHR (m_Id <$> tmpl)]
  /\ match r with
     | None =>
         vkResultOf P (length (driverCalls st)) <> VK_SUCCESS
         /\ m_currentId st' = m_currentId st
     | Some o =>
         vkResultOf P (length (driverCalls st)) = VK_SUCCESS
         /\ VkParserVideoPictureParameters.m_videoSession o = sess
         /\ forall x,
            (x ∈ m_vpsIdsUsed o
             <-> (exists tm, tmpl = Some tm /\ x ∈ m_vpsIdsUsed tm)
                 \/ (0 <= (ids_of vps sps pps).1.1 /\ x = (ids_of vps sps pps).1.1))
            /\ (x ∈ m_spsIdsUsed o
                <-> (exists tm, tmpl = Some tm /\ x ∈ m_spsIdsUsed tm)
                    \/ (0 <= (ids_of vps sps pps).1.2
                        /\ x = (ids_of vps sps pps).1.2))
            /\ (x ∈ m_ppsIdsUsed o
                <-> (exists tm, tmpl = Some tm /\ x ∈ m_ppsIdsUsed tm)
                    \/ (0 <= (ids_of vps sps pps).2 /\ x = (ids_of vps sps pps).2))
     end.
Proof.
  unfold Create, ids_of. intros H.
  inv_bind_as H ut Hut. rewrite Hut. inv_bind_as H u Hu.
  destruct (Z.eqb_spec (vkResultOf P (length (driverCalls st))) VK_SUCCESS)
    as [Hres|Hres]; cbn [negb] in H.
  - destruct tmpl as [tm|].
    + inv_bind_as H sets Hsets. destruct sets as [[v s] p].
      inv_bind_as H newId Hid. inversion H; subst; clear H. cbn.
      split; [reflexivity|]. split; [exact Hres|]. split; [reflexivity|].
      intros x. destruct (mark_ids_exact _ _ _ _ _ _ _ _ Hsets x) as (Hv & Hs & Hp).
      rewrite Hv, Hs, Hp.
      repeat split; intros [Hin|Hin]; try (now right);
        try (left; exists tm; now split);
        destruct Hin as (tm' & Etm & Hin); injection Etm as <-; now left.
    + inv_bind_as H sets Hsets. destruct sets as [[v s] p].
      inv_bind_as H newId Hid. inversion H; subst; clear H. cbn.
      split; [reflexivity|]. split; [exact Hres|]. split; [reflexivity|].
      intros x. destruct (mark_ids_exact _ _ _ _ _ _ _ _ Hsets x) as (Hv & Hs & Hp).
      rewrite Hv, Hs, Hp.
      repeat split; intros [Hin|Hin]; try (now right);
        try (apply elem_of_empty in Hin; contradiction);
        destruct Hin as (tm' & Etm & _); discriminate Etm.
  - inversion H; subst; clear H. cbn. split; [reflexivity|]. now split.
Qed.

Lemma Create_inherits_the_template_witness :
  exists o st',
    Create Examples.platform {| m_currentId := 1; driverCalls := [] |}
      (Some Examples.session_1080p) None None
      (Some {| m_itemType := PPS_TYPE; m_data := h264Pps 0 3;
               m_updateSequenceCount := 0; m_parent := None;
               m_vkObjectOwner := None;
               StdVideoPictureParametersSet.m_videoSession := None |})
      (Some {| m_Id := 1; m_vpsIdsUsed := ∅; m_spsIdsUsed := {[ 0 ]};
               m_ppsIdsUsed := ∅;
               VkParserVideoPictureParameters.m_videoSession :=
                 Some Examples.session_1080p |})
    = Done (Some o, st')
    /\ HasSpsId o 0 = true /\ HasPpsId o 3 = true /\ HasSpsId o 3 = false.
Proof.
  set (tm := {| m_Id := 1; m_vpsIdsUsed := ∅; m_spsIdsUsed := {[ 0 ]};
                m_ppsIdsUsed := ∅;
                VkParserVideoPictureParameters.m_videoSession :=
                  Some Examples.session_1080p |}).
  set (node := {| m_itemType := PPS_TYPE; m_data := h264Pps 0 3;
                  m_updateSequenceCount := 0; m_parent := None;
                  m_vkObjectOwner := None;
                  StdVideoPictureParametersSet.m_videoSession := None |}).
  destruct (Create Examples.platform {| m_currentId := 1; driverCalls := [] |}
              (Some Examples.session_1080p) None None (Some node) (Some tm))
    as [[[o|] st']|f] eqn:Hdone;
    [|vm_compute in Hdone; discriminate Hdone..].
  destruct (Create_inherits_the_template _ _ _ _ _ _ _ _ _ Hdone)
    as (_ & _ & _ & Hsets).
  exists o, st'. split; [reflexivity|]. unfold HasSpsId, HasPpsId.
  split; [apply bool_decide_eq_true; apply (Hsets 0); left; exists tm;
          split; [reflexivity | cbn; set_solver]|].
  split; [apply bool_decide_eq_true; apply (Hsets 3); right; vm_compute; split;
          [discriminate | reflexivity]|].
  apply bool_decide_eq_false. intros Hin.
  apply (Hsets 3) in Hin as [(tm' & Etm & Hin)|[Hge Hin]].
  - injection Etm as <-. cbn in Hin. set_solver.
  - vm_compute in Hin. discriminate Hin.
Defined.

(** The count folded over one more node. *)
Lemma max_count_step (n : option StdVideoPictureParametersSet.t) acc :
  is_uint32 acc ->
  (forall x, n = Some x -> is_uint32 (m_updateSequenceCount x)) ->
  match n with
  | Some x => to_uint32 (Z.max (m_updateSequenceCount x) acc)
  | None => acc
  end
  = match n with
    | Some x => Z.max (m_updateSequenceCount x) acc
    | None => acc
    end
  /\ is_uint32 (match n with
                | Some x => Z.max (m_updateSequenceCount x) acc
                | None => acc
                end).
Proof.
  intros Hacc Hn. destruct n as [x|]; [|now split].
  specialize (Hn x eq_refl).
  assert (Hmax : is_uint32 (Z.max (m_updateSequenceCount x) acc))
    by (unfold is_uint32 in *; lia).
  split; [now apply MachineIntFacts.to_uint32_small | exact Hmax].
Qed.

(** X25.  The update sequence count sent to the driver is the largest among
    the nodes given.  With counts that are [uint32_t] values, the count that
    Update passes in [updateInfo] is at least the count of each node given,
    and it is the count of one of them or 0. *)
Theorem Update_sends_the_largest_count vps sps pps :
  (forall n, vps = Some n \/ sps = Some n \/ pps = Some n ->
     is_uint32 (m_updateSequenceCount n)) ->
  (forall n, vps = Some n \/ sps = Some n \/ pps = Some n ->
     m_updateSequenceCount n <= max_updateSequenceCount vps sps pps)
  /\ (max_updateSequenceCount vps sps pps = 0
      \/ exists n, (vps = Some n \/ sps = Some n \/ pps = Some n)
           /\ max_updateSequenceCount vps sps pps = m_updateSequenceCount n).
Proof.
  intros Hrange. unfold max_updateSequenceCount.
  assert (H0 : is_uint32 0) by (unfold is_uint32, UINT32_MOD; lia).
  destruct (max_count_step vps 0 H0) as [Ev Rv]; [intros x ->; apply Hrange; auto|].
  rewrite Ev.
  destruct (max_count_step sps _ Rv) as [Es Rs]; [intros x ->; apply Hrange; auto|].
  rewrite Es.
  destruct (max_count_step pps _ Rs) as [Ep _]; [intros x ->; apply Hrange; auto|].
  rewrite Ep. clear Ev Es Ep Rv Rs.
  split.
  - intros n Hn. destruct vps, sps, pps; destruct Hn as [Hn|[Hn|Hn]];
      try discriminate Hn; injection Hn as <-; lia.
  - destruct vps as [v|], sps as [s|], pps as [p|];
      repeat match goal with
        | |- context [Z.max ?a ?b] => destruct (Z.max_spec a b) as [[_ ->]|[_ ->]]
        end;
      first [ left; reflexivity | right; eexists; split; [|reflexivity]; auto ].
Qed.

Lemma Update_sends_the_largest_count_witness :
  max_updateSequenceCount None
    (Some {| m_itemType := SPS_TYPE; m_data := h264Sps 0;
             m_updateSequenceCount := 7; m_parent := None;
             m_vkObjectOwner := None;
             StdVideoPictureParametersSet.m_videoSession := None |})
    (Some {| m_itemType := PPS_TYPE; m_data := h264Pps 0 0;
             m_updateSequenceCount := 3; m_parent := None;
             m_vkObjectOwner := None;
             StdVideoPictureParametersSet.m_videoSession := None |})
  >= 7.
Proof.
  apply Z.le_ge.
  refine (proj1 (Update_sends_the_largest_count None
    (Some {| m_itemType := SPS_TYPE; m_data := h264Sps 0;
             m_updateSequenceCount := 7; m_parent := None;
             m_vkObjectOwner := None;
             StdVideoPictureParametersSet.m_videoSession := None |})
    (Some {| m_itemType := PPS_TYPE; m_data := h264Pps 0 0;
             m_updateSequenceCount := 3; m_parent := None;
             m_vkObjectOwner := None;
             StdVideoPictureParametersSet.m_videoSession := None |}) _)
    {| m_itemType := SPS_TYPE; m_data := h264Sps 0;
       m_updateSequenceCount := 7; m_parent := None;
       m_vkObjectOwner := None;
       StdVideoPictureParametersSet.m_videoSession := None |} _).
  - intros n [Hn|[Hn|Hn]]; [discriminate Hn| |]; injection Hn as <-;
      cbn; unfold is_uint32, UINT32_MOD; lia.
  - right. left. reflexivity.
Defined.

End ClassFacts.

(** ** The copy to the output image *)

Module ImageCopyFacts.

Import VkVideoDecoder ImageCopy.

(** X26.  The regions of the copy to the output image.  For a source format
    whose plane layout is known, CopyOptimalToLinearImage returns 0 and
    records one image copy of two regions followed by one barrier.  The first
    region is plane 0 over the whole coded extent; the second is plane 1, over
    the same extent or -- in each direction in which the format subsamples
    the second plane -- over half of it, rounded down.  Both regions read the
    array layer of the source picture and write the array layer of the
    destination picture, at offset 0, one layer deep. *)
Theorem CopyOptimalToLinearImage_regions src dst info :
  0 <= width (VkVideoPictureResourceInfoKHR.codedExtent src) ->
  0 <= height (VkVideoPictureResourceInfoKHR.codedExtent src) ->
  exists luma chroma,
    CopyOptimalToLinearImage src dst (Some info)
    = Done (0, [luma; chroma], [CmdCopyImage 2; CmdPipelineBarrier])
    /\ extent luma
       = {| VkExtent3D.width := width (VkVideoPictureResourceInfoKHR.codedExtent src);
            VkExtent3D.height := height (VkVideoPictureResourceInfoKHR.codedExtent src);
            VkExtent3D.depth := 1 |}
    /\ VkExtent3D.depth (extent chroma) = 1
    /\ (if secondaryPlaneSubsampledX info =? 0
        then VkExtent3D.width (extent chroma) = VkExtent3D.width (extent luma)
        else VkExtent3D.width (extent luma) - 1
             <= 2 * VkExtent3D.width (extent chroma)
             <= VkExtent3D.width (extent luma))
    /\ (if secondaryPlaneSubsampledY info =? 0
        then VkExtent3D.height (extent chroma) = VkExtent3D.height (extent luma)
        else VkExtent3D.height (extent luma) - 1
             <= 2 * VkExtent3D.height (extent chroma)
             <= VkExtent3D.height (extent luma))
    /\ srcSubresource luma
       = plane VK_IMAGE_ASPECT_PLANE_0_BIT (VkVideoPictureResourceInfoKHR.baseArrayLayer src)
    /\ dstSubresource luma
       = plane VK_IMAGE_ASPECT_PLANE_0_BIT (VkVideoPictureResourceInfoKHR.baseArrayLayer dst)
    /\ srcSubresource chroma
       = plane VK_IMAGE_ASPECT_PLANE_1_BIT (VkVideoPictureResourceInfoKHR.baseArrayLayer src)
    /\ dstSubresource chroma
       = plane VK_IMAGE_ASPECT_PLANE_1_BIT (VkVideoPictureResourceInfoKHR.baseArrayLayer dst)
    /\ Forall (fun region => srcOffset region = zero_offset
                             /\ dstOffset region = zero_offset) [luma; chroma].
Proof.
  intros Hw Hh. unfold CopyOptimalToLinearImage. eexists _, _.
  split; [reflexivity|]. cbn [extent srcSubresource dstSubresource srcOffset dstOffset
                              VkExtent3D.width VkExtent3D.height VkExtent3D.depth].
  split; [reflexivity|]. split; [reflexivity|].
  split.
  { destruct (secondaryPlaneSubsampledX info =? 0); cbn [negb]; [reflexivity|].
    pose proof (Z.div_mod (width (VkVideoPictureResourceInfoKHR.codedExtent src)) 2
                  ltac:(lia)) as Hdiv.
    pose proof (Z.mod_pos_bound (width (VkVideoPictureResourceInfoKHR.codedExtent src)) 2
                  ltac:(lia)) as Hmod.
    lia. }
  split.
  { destruct (secondaryPlaneSubsampledY info =? 0); cbn [negb]; [reflexivity|].
    pose proof (Z.div_mod (height (VkVideoPictureResourceInfoKHR.codedExtent src)) 2
                  ltac:(lia)) as Hdiv.
    pose proof (Z.mod_pos_bound (height (VkVideoPictureResourceInfoKHR.codedExtent src)) 2
                  ltac:(lia)) as Hmod.
    lia. }
  do 4 (split; [reflexivity|]).
  repeat constructor.
Qed.

Lemma CopyOptimalToLinearImage_regions_witness :
  exists luma chroma commands,
    CopyOptimalToLinearImage
      {| VkVideoPictureResourceInfoKHR.codedExtent := {| width := 1921; height := 1080 |};
         VkVideoPictureResourceInfoKHR.baseArrayLayer := 3 |}
      {| VkVideoPictureResourceInfoKHR.codedExtent := {| width := 1921; height := 1080 |};
         VkVideoPictureResourceInfoKHR.baseArrayLayer := 0 |}
      (Some {| secondaryPlaneSubsampledX := 1; secondaryPlaneSubsampledY := 1 |})
    = Done (0, [luma; chroma], commands)
    /\ VkExtent3D.width (extent luma) = 1921
    /\ 1920 <= 2 * VkExtent3D.width (extent chroma) <= 1921.
Proof.
  destruct (CopyOptimalToLinearImage_regions
      {| VkVideoPictureResourceInfoKHR.codedExtent := {| width := 1921; height := 1080 |};
         VkVideoPictureResourceInfoKHR.baseArrayLayer := 3 |}
      {| VkVideoPictureResourceInfoKHR.codedExtent := {| width := 1921; height := 1080 |};
         VkVideoPictureResourceInfoKHR.baseArrayLayer := 0 |}
      {| secondaryPlaneSubsampledX := 1; secondaryPlaneSubsampledY := 1 |})
    as (luma & chroma & Hdone & Hluma & _ & Hwidth & _).
  - cbn. lia.
  - cbn. lia.
  - exists luma, chroma, [CmdCopyImage 2; CmdPipelineBarrier].
    split; [exact Hdone|]. cbn in Hwidth. rewrite Hluma in *. cbn in *.
    split; [reflexivity | exact Hwidth].
Defined.

End ImageCopyFacts.

(** ** Deinitialize *)

Module LifetimeFacts.

Import VkVideoDecoder Lifetime.

(** X27.  Deinitialize is safe to repeat.  After one Deinitialize, a second
    one -- the destructor runs it again -- waits for no queue, releases
    nothing and leaves the decoder as it is. *)
Theorem Deinitialize_twice_is_once this pool pool' :
  destructor (Deinitialize this pool).1 pool' = ((Deinitialize this pool).1, []).
Proof.
  unfold destructor, Deinitialize.
  destruct (m_vkDevCtx this) as [ctx|] eqn:Hctx; cbn [fst m_vkDevCtx].
  - reflexivity.
  - rewrite Hctx. reflexivity.
Qed.

(** X28.  Deinitialize drains the decode queues before it releases anything.
    With a device context, it waits for every decode queue 0 .. n - 1 when
    the device has n > 1 of them, and for the default queue alone otherwise;
    only after the last wait are the frame data released.  Afterwards the
    frame buffer, the session and the device context are null, so a decode on
    this decoder returns -1 and records no command. *)
Theorem Deinitialize_waits_then_releases this pool ctx :
  m_vkDevCtx this = Some ctx ->
  exists waits,
    (Deinitialize this pool).2 = waits ++ [DecodeFramesDataDeinit]
    /\ (forall call, call ∈ waits <->
        exists queueId, call = DecodeQueueWaitIdle queueId
          /\ if 1 <? GetVideoDecodeNumQueues ctx
             then 0 <= queueId < GetVideoDecodeNumQueues ctx
             else queueId = m_defaultVideoQueueIndx this)
    /\ m_vkDevCtx (Deinitialize this pool).1 = None
    /\ m_videoFrameBuffer (Deinitialize this pool).1 = false
    /\ m_videoSession (decoder (Deinitialize this pool).1) = None
    /\ forall P params env,
         DecodePictureWithParameters P (decoder (Deinitialize this pool).1) params env
         = Done (-1, decoder (Deinitialize this pool).1, []).
Proof.
  intros Hctx. unfold Deinitialize. rewrite Hctx. cbn [fst snd].
  eexists. split; [reflexivity|]. split.
  - intros call. destruct (1 <? GetVideoDecodeNumQueues ctx).
    + rewrite list_elem_of_fmap. split.
      * intros (q & -> & Hq). apply elem_of_seqZ in Hq. exists q. split; [reflexivity | lia].
      * intros (q & -> & Hq). exists q. split; [reflexivity|]. apply elem_of_seqZ. lia.
    + rewrite list_elem_of_singleton. split.
      * intros ->. eauto.
      * intros (q & -> & ->). reflexivity.
  - cbn. repeat split.
Qed.

Lemma Deinitialize_waits_then_releases_witness :
  exists this',
    Deinitialize
      {| decoder := Examples.decoder_with_object;
         m_vkDevCtx := Some {| GetVideoDecodeNumQueues := 3 |};
         m_videoFrameBuffer := true;
         m_defaultVideoQueueIndx := 7 |} []
    = (this',
       [DecodeQueueWaitIdle 0; DecodeQueueWaitIdle 1; DecodeQueueWaitIdle 2;
        DecodeFramesDataDeinit])
    /\ m_videoSession (decoder this') = None.
Proof.
  destruct (Deinitialize_waits_then_releases
              {| decoder := Examples.decoder_with_object;
                 m_vkDevCtx := Some {| GetVideoDecodeNumQueues := 3 |};
                 m_videoFrameBuffer := true;
                 m_defaultVideoQueueIndx := 7 |} []
              {| GetVideoDecodeNumQueues := 3 |} eq_refl)
    as (waits & _ & _ & _ & _ & Hsession & _).
  eexists. split; [reflexivity | exact Hsession].
Defined.

End LifetimeFacts.
